(** * pptoptimizer: the relationship graph and its pruning / rewrite engine

    A shallow embedding of [pptx.go] (final revision: the one with
    [presentationRels] and [presentation]) and the properties of its
    reader, transcoder, pruning passes and writer.

    Conventions of the embedding.
    - Go [string]s are byte strings: Rocq [string] (a list of [ascii] bytes).
    - Go [int] is taken as 64 bits (the usual linux/amd64 build); path
      functions are the Unix ones (separator [/]).
    - Slices are lists.  Every slice of the program is either freshly made
      by the reader or re-assigned as a whole, no two slots share a backing
      array, so in-place updates are list updates.  Allocation succeeds.
    - The map [p.medias] is a [gmap]; where the program ranges over it,
      the order of the visit is an input of the model.
    - A Go run-time panic (index out of range, nil dereference, a path
      that does not compile) and [log.Fatal] both abort the run; they are
      the [Abort] results.
    - The archive is a list of entries held in memory: opening and reading
      a source entry and creating an output entry succeed.  The codecs and
      the XML (de)serializers are parameters. *)

From Stdlib Require Import ZArith Ascii String DecimalString Sorted.
From Stdlib Require DecimalNat.
From stdpp Require Import gmap strings list fin_maps.

#[local] Set Warnings "-register-all".
#[local] Set Warnings "-notation-overridden".


Open Scope string_scope.

(** ** Results of operations that may abort the run *)

Inductive failure : Type :=
  | IndexOutOfRange   (* panic: index out of range *)
  | NilDereference    (* panic: nil pointer dereference *)
  | PathError         (* panic: etree.MustCompilePath *)
  | FatalLog.         (* log.Fatal *)

Inductive result (A : Type) : Type :=
  | Ok (a : A)
  | Abort (e : failure).
Arguments Ok {A} a.
Arguments Abort {A} e.

#[global] Instance result_ret : MRet result := fun A a => Ok a.
#[global] Instance result_bind : MBind result := fun A B k m =>
  match m with
  | Ok a => k a
  | Abort e => Abort e
  end.

Definition isOk {A} (m : result A) : bool :=
  match m with Ok _ => true | Abort _ => false end.

(** ** The string primitives the program uses *)

Module Strings.

(** [strings.HasPrefix(s, pre)] *)
Definition HasPrefix (s pre : string) : bool := String.prefix pre s.

Fixpoint rev_acc (s acc : string) : string :=
  match s with
  | EmptyString => acc
  | String c r => rev_acc r (String c acc)
  end.
Definition rev (s : string) : string := rev_acc s EmptyString.

Fixpoint drop (n : nat) (s : string) : string :=
  match n, s with
  | O, _ => s
  | S n', String _ r => drop n' r
  | S _, EmptyString => EmptyString
  end.

(** [strings.HasSuffix(s, suf)]:
    [len(s) >= len(suf) && s[len(s)-len(suf):] == suf] *)
Definition HasSuffix (s suf : string) : bool :=
  (String.length suf <=? String.length s)%nat
  && bool_decide (drop (String.length s - String.length suf) s = suf).

(** [strings.Replace(s, old, new, 1)]: the leftmost occurrence of [old]
    is replaced; [s] is returned as it is when [old] does not occur. *)
Fixpoint Replace1 (s old new : string) : string :=
  if String.prefix old s then new ++ drop (String.length old) s
  else match s with
       | EmptyString => EmptyString
       | String c r => String c (Replace1 r old new)
       end.

Definition isUpper (c : ascii) : bool :=
  let n := nat_of_ascii c in (65 <=? n)%nat && (n <=? 90)%nat.

(** [strings.ToLower], as far as a comparison of its result with the
    literal [.tiff] can tell: ASCII capitals are lowered, and U+0130 (the
    bytes C4 B0), the one rune outside ASCII whose lower case is one of
    the letters of that literal, becomes [i].  Any other byte outside
    ASCII is left as it is; Go maps it to bytes that are not in the
    literal either. *)
Fixpoint ToLower (s : string) : string :=
  match s with
  | EmptyString => EmptyString
  | String c r =>
      match r with
      | String d r' =>
          if (nat_of_ascii c =? 196)%nat && (nat_of_ascii d =? 176)%nat
          then String "i" (ToLower r')
          else String (if isUpper c then ascii_of_nat (nat_of_ascii c + 32) else c)
                      (ToLower r)
      | EmptyString =>
          String (if isUpper c then ascii_of_nat (nat_of_ascii c + 32) else c)
                 EmptyString
      end
  end.

Definition isSlash (c : ascii) : bool := (nat_of_ascii c =? 47)%nat.

(** The part of a reversed path before its first separator, un-reversed
    into [acc]: the last element of the path. *)
Fixpoint lastElem (rs acc : string) : string :=
  match rs with
  | EmptyString => acc
  | String c r => if isSlash c then acc else lastElem r (String c acc)
  end.

Fixpoint stripSlashes (rs : string) : string :=
  match rs with
  | String c r => if isSlash c then stripSlashes r else rs
  | EmptyString => EmptyString
  end.

(** [filepath.Base]: trailing separators are dropped, the last element is
    returned; ["."] for the empty path, ["/"] for a path of separators. *)
Definition Base (path : string) : string :=
  match path with
  | EmptyString => "."
  | _ =>
      match stripSlashes (rev path) with
      | EmptyString => "/"
      | rs => lastElem rs EmptyString
      end
  end.

(** [filepath.Ext]: the suffix from the last dot of the last element,
    empty when that element has no dot. *)
Fixpoint extRev (rs acc : string) : string :=
  match rs with
  | EmptyString => EmptyString
  | String c r =>
      if isSlash c then EmptyString
      else if (nat_of_ascii c =? 46)%nat then String c acc
      else extRev r (String c acc)
  end.
Definition Ext (path : string) : string := extRev (rev path) EmptyString.

(** [fmt.Sprintf("%d", n)] for a non-negative [n]. *)
Definition itoa (n : nat) : string := NilEmpty.string_of_uint (Nat.to_uint n).

End Strings.

(** ** Object numbers: [reSlideNumber] and [getObjectNumberFromFilename] *)

Module ObjectNumber.

Definition isLetter (c : ascii) : bool :=
  let n := nat_of_ascii c in
  ((65 <=? n)%nat && (n <=? 90)%nat) || ((97 <=? n)%nat && (n <=? 122)%nat).

Definition isDigit (c : ascii) : bool :=
  let n := nat_of_ascii c in (48 <=? n)%nat && (n <=? 57)%nat.

(** The longest prefix of [s] whose bytes satisfy [f], and the rest. *)
Fixpoint span (f : ascii -> bool) (s : string) : string * string :=
  match s with
  | String c r =>
      if f c then let '(a, b) := span f r in (String c a, b)
      else (EmptyString, s)
  | EmptyString => (EmptyString, EmptyString)
  end.

(** A match of [/[a-zA-Z]+([0-9]+)\.xml] starting at the head of [s]; the
    result is the captured group.  Both repetitions are over classes
    disjoint from the byte that must follow them, so the greedy choice
    is the only one that can succeed and no backtracking is lost. *)
Definition matchHere (s : string) : option string :=
  match s with
  | String c r =>
      if Strings.isSlash c then
        let '(letters, r1) := span isLetter r in
        match letters with
        | EmptyString => None
        | _ =>
            let '(digits, r2) := span isDigit r1 in
            match digits with
            | EmptyString => None
            | _ => if String.prefix ".xml" r2 then Some digits else None
            end
        end
      else None
  | EmptyString => None
  end.

(** [reSlideNumber.FindStringSubmatch(fname)], reduced to its capture:
    the leftmost match. *)
Fixpoint FindStringSubmatch (s : string) : option string :=
  match matchHere s with
  | Some d => Some d
  | None =>
      match s with
      | String _ r => FindStringSubmatch r
      | EmptyString => None
      end
  end.

Definition maxInt : Z := 9223372036854775807.

Fixpoint digitsValue (s : string) (acc : Z) : Z :=
  match s with
  | String c r => digitsValue r (10 * acc + (Z.of_nat (nat_of_ascii c) - 48))
  | EmptyString => acc
  end.

(** [strconv.Atoi] on a non-empty string of decimal digits: the value, or
    an error when it does not fit an [int]. *)
Definition Atoi (digits : string) : option Z :=
  let v := digitsValue digits 0 in
  if (v <=? maxInt)%Z then Some v else None.

(** [getObjectNumberFromFilename]: the number and whether an error is
    returned with it ([None] is the [nil] error). *)
Definition getObjectNumberFromFilename (fname : string) : Z * option string :=
  match FindStringSubmatch fname with
  | None => (0%Z, Some ("invalid file name " ++ fname))
  | Some digits =>
      match Atoi digits with
      | None => (0%Z, Some ("invalid slide number " ++ fname))
      | Some n => (n, None)
      end
  end.

(** [n, _ := getObjectNumberFromFilename(fname)] as every caller does. *)
Definition objectNumber (fname : string) : Z :=
  fst (getObjectNumberFromFilename fname).

End ObjectNumber.

Example itoa_12 : Strings.itoa 12 = "12".
Proof. reflexivity. Qed.
Example base_media : Strings.Base "../media/image1.tiff" = "image1.tiff".
Proof. reflexivity. Qed.
Example ext_upper : Strings.ToLower (Strings.Ext "ppt/media/image1.TIFF") = ".tiff".
Proof. reflexivity. Qed.
Example number_rels : ObjectNumber.objectNumber "ppt/slides/_rels/slide12.xml.rels" = 12%Z.
Proof. reflexivity. Qed.
Example number_none : ObjectNumber.objectNumber "ppt/slides/_rels/notes.rels" = 0%Z.
Proof. reflexivity. Qed.

(** ** Data model *)

Record Relationship : Type := {
  Id : string;
  Type_ : string;
  Target : string;
  TargetMode : string
}.

(** [Relationships]: [XMLName] is the element name [xml.Unmarshal] records
    (space, local); the zero value [Relationships{}] has both empty. *)
Record Relationships : Type := {
  XMLName : string * string;
  Relationship_ : list Relationship
}.

(** [Relationships{}], the tombstone of a removed part. *)
Definition emptyRelationships : Relationships :=
  {| XMLName := ("", ""); Relationship_ := [] |}.

(** [Media]: [data] is [None] for a [nil] slice (stream the entry of the
    source archive), [Some] for bytes produced in this run. *)
Record Media : Type := {
  size : Z;
  data : option string
}.

Record DefaultEntry : Type := {
  Extension : string;
  DefaultContentType : string
}.

Record OverrideEntry : Type := {
  PartName : string;
  ContentType : string
}.

Record Types : Type := {
  TypesXMLName : string * string;
  Default : list DefaultEntry;
  Override : list OverrideEntry
}.

(** *** Document trees ([etree])

    An element has a namespace prefix, a tag, attributes and child tokens;
    every other token (character data, comment, directive, processing
    instruction) is kept as an opaque [Other].  A document is the list of
    children of its root pseudo-element. *)

Record Attr : Type := {
  AttrSpace : string;
  AttrKey : string;
  AttrValue : string
}.

Inductive Token : Type :=
  | Element (Space Tag : string) (Attrs : list Attr) (Child : list Token)
  | Other (Data : string).

Record Document : Type := { Root : list Token }.

(** One entry of the source archive ([zip.File]). *)
Record File : Type := {
  Name : string;
  UncompressedSize64 : Z;
  Content : string
}.

Record PowerpointDoc : Type := {
  sourceFileReader : list File;
  medias : gmap string Media;
  slideRels : list Relationships;
  slideLayoutRels : list Relationships;
  slideMasterRels : list Relationships;
  presentationRels : Relationships;
  slideMasters : list (option Document);
  presentation : option Document;
  contentTypes : Types
}.

#[global] Instance Relationship_eq_dec : EqDecision Relationship.
Proof. solve_decision. Defined.
#[global] Instance Relationships_eq_dec : EqDecision Relationships.
Proof. solve_decision. Defined.
#[global] Instance OverrideEntry_eq_dec : EqDecision OverrideEntry.
Proof. solve_decision. Defined.

Definition slideLayoutType : string :=
  "http://schemas.openxmlformats.org/officeDocument/2006/relationships/slideLayout".
Definition slideMasterType : string :=
  "http://schemas.openxmlformats.org/officeDocument/2006/relationships/slideMaster".
Definition imageType : string :=
  "http://schemas.openxmlformats.org/officeDocument/2006/relationships/image".

(** ** Tree queries and removal *)

Module Etree.

(** [spaceMatch(a, b)]: an empty prefix in the path matches any. *)
Definition spaceMatch (a b : string) : bool :=
  bool_decide (a = "") || bool_decide (a = b).

Definition attrIs (space key val : string) (a : Attr) : bool :=
  spaceMatch space (AttrSpace a) && bool_decide (key = AttrKey a)
  && bool_decide (val = AttrValue a).

(** The test of the path step [space:tag[@aspace:akey='val']]. *)
Definition selects (space tag aspace akey val : string) (t : Token) : bool :=
  match t with
  | Element s tg attrs _ =>
      spaceMatch space s && bool_decide (tag = tg)
      && existsb (attrIs aspace akey val) attrs
  | Other _ => false
  end.

(** The elements of a subtree, at any depth, that pass the test. *)
Fixpoint found (m : Token -> bool) (t : Token) : list Token :=
  match t with
  | Element _ _ _ ch => (if m t then [t] else []) ++ flat_map (found m) ch
  | Other _ => []
  end.

(** [doc.FindElements("//space:tag[@aspace:akey='val']")]. *)
Definition FindElements (m : Token -> bool) (d : Document) : list Token :=
  flat_map (found m) (Root d).

(** The tree after [e.Parent().RemoveChild(e)] for every found [e]:
    every element that passes the test is gone from its parent.  (An
    element found inside another found element is removed from a
    subtree that is already detached.)  [RemoveChild] returns [nil] only
    for a token that is not a child of the receiver, which a found
    element and its own parent never are: the [log.Fatal] of the callers
    is not reachable. *)
Fixpoint prune (m : Token -> bool) (t : Token) : Token :=
  match t with
  | Element s tg attrs ch =>
      Element s tg attrs
        ((fix go (l : list Token) : list Token :=
            match l with
            | [] => []
            | c :: r => if m c then go r else prune m c :: go r
            end) ch)
  | Other _ => t
  end.

Fixpoint pruneList (m : Token -> bool) (l : list Token) : list Token :=
  match l with
  | [] => []
  | c :: r => if m c then pruneList m r else prune m c :: pruneList m r
  end.

Definition removeFound (m : Token -> bool) (d : Document) : Document :=
  {| Root := pruneList m (Root d) |}.

Fixpoint hasByte (n : nat) (s : string) : bool :=
  match s with
  | EmptyString => false
  | String c r => (nat_of_ascii c =? n)%nat || hasByte n r
  end.

(** The callers build the path by [fmt.Sprintf] with the value between
    single quotes.  This gives the path of the query above for a value
    with no single quote (39) and no opening bracket (91).  For any other
    value the text is not that path: [MustCompilePath] panics (mismatched
    quotes or brackets), which is what the embedding takes for all of
    them, also for a value made up to close the filter and open another. *)
Definition quotable (val : string) : bool :=
  negb (hasByte 39 val) && negb (hasByte 91 val).

End Etree.

(** [removeLayoutFromMaster(master, id)] on a non-nil master. *)
Definition removeLayoutFromMaster (master : Document) (id : string) : result Document :=
  if Etree.quotable id
  then Ok (Etree.removeFound (Etree.selects "p" "sldLayoutId" "r" "id" id) master)
  else Abort PathError.

(** [removeMasterFromPresentation(presentation, id)] on a non-nil tree. *)
Definition removeMasterFromPresentation (pres : Document) (id : string) : result Document :=
  if Etree.quotable id
  then Ok (Etree.removeFound (Etree.selects "p" "sldMasterId" "r" "id" id) pres)
  else Abort PathError.

(** ** Reachability *)

(** [used[n-1] = true], with Go's bounds check. *)
Definition markUsed (used : list bool) (n : Z) : result (list bool) :=
  if bool_decide (1 <= n <= Z.of_nat (length used))%Z
  then Ok (<[Z.to_nat (n - 1) := true]> used)
  else Abort IndexOutOfRange.

(** The inner loop of [FindUsedLayouts] / [FindUsedMasters] over one
    relationship set. *)
Fixpoint markRels (ty : string) (rels : list Relationship) (used : list bool)
  : result (list bool) :=
  match rels with
  | [] => Ok used
  | rel :: rest =>
      if bool_decide (Type_ rel = ty)
      then used' ← markUsed used (ObjectNumber.objectNumber (Target rel));
           markRels ty rest used'
      else markRels ty rest used
  end.

(** The outer loop over the owning collection. *)
Fixpoint markAll (ty : string) (sets : list Relationships) (used : list bool)
  : result (list bool) :=
  match sets with
  | [] => Ok used
  | rels :: rest =>
      used' ← markRels ty (Relationship_ rels) used;
      markAll ty rest used'
  end.

Definition FindUsedLayouts (p : PowerpointDoc) : result (list bool) :=
  markAll slideLayoutType (slideRels p) (replicate (length (slideLayoutRels p)) false).

Definition FindUsedMasters (p : PowerpointDoc) : result (list bool) :=
  markAll slideMasterType (slideLayoutRels p) (replicate (length (slideMasterRels p)) false).

(** ** Pruning *)

(** The [copy(s[j:], s[j+1:]); s = s[:len(s)-1]; break] idiom: the first
    element that passes the test is deleted, nothing else. *)
Fixpoint removeFirst {A} (P : A -> bool) (l : list A) : list A :=
  match l with
  | [] => []
  | x :: r => if P x then r else x :: removeFirst P r
  end.

(** [s[i] = x], with Go's bounds check. *)
Definition setSlot {A} (l : list A) (i : nat) (x : A) : result (list A) :=
  if bool_decide (i < length l) then Ok (<[i := x]> l) else Abort IndexOutOfRange.

Definition hasPartName (name : string) (o : OverrideEntry) : bool :=
  bool_decide (PartName o = name).
Definition hasTarget (target : string) (r : Relationship) : bool :=
  bool_decide (Target r = target).

Definition layoutPartName (i : nat) : string :=
  "/ppt/slideLayouts/slideLayout" ++ Strings.itoa (i + 1) ++ ".xml".
Definition layoutTarget (i : nat) : string :=
  "../slideLayouts/slideLayout" ++ Strings.itoa (i + 1) ++ ".xml".
Definition masterPartName (i : nat) : string :=
  "/ppt/slideMasters/slideMaster" ++ Strings.itoa (i + 1) ++ ".xml".
Definition masterTarget (i : nat) : string :=
  "slideMasters/slideMaster" ++ Strings.itoa (i + 1) ++ ".xml".

(** "remove from content types" *)
Definition removeOverride (name : string) (t : Types) : Types :=
  {| TypesXMLName := TypesXMLName t;
     Default := Default t;
     Override := removeFirst (hasPartName name) (Override t) |}.

Definition dropTarget (target : string) (rs : Relationships) : Relationships :=
  {| XMLName := XMLName rs;
     Relationship_ := removeFirst (hasTarget target) (Relationship_ rs) |}.

(** "remove from slide master": the loop over [p.slideMasterRels] from
    slot [j] on; [sms] is [p.slideMasters]. *)
Fixpoint removeFromMasters (target : string) (j : nat) (mrels : list Relationships)
    (sms : list (option Document))
  : result (list Relationships * list (option Document)) :=
  match mrels with
  | [] => Ok ([], sms)
  | relsm :: rest =>
      match List.find (hasTarget target) (Relationship_ relsm) with
      | None =>
          '(rest', sms') ← removeFromMasters target (S j) rest sms;
          Ok (relsm :: rest', sms')
      | Some relm =>
          match sms !! j with
          | None => Abort IndexOutOfRange
          | Some None => Abort NilDereference
          | Some (Some master) =>
              master' ← removeLayoutFromMaster master (Id relm);
              '(rest', sms') ← removeFromMasters target (S j) rest
                                 (<[j := Some master']> sms);
              Ok (dropTarget target relsm :: rest', sms')
          end
      end
  end.

(** The body of the loop of [RemoveUnusedLayouts] for an unused slot [i]. *)
Definition removeLayout (i : nat) (p : PowerpointDoc) : result PowerpointDoc :=
  let ct := removeOverride (layoutPartName i) (contentTypes p) in
  '(mrels, sms) ← removeFromMasters (layoutTarget i) 0 (slideMasterRels p) (slideMasters p);
  lrels ← setSlot (slideLayoutRels p) i emptyRelationships;
  Ok {| sourceFileReader := sourceFileReader p;
        medias := medias p;
        slideRels := slideRels p;
        slideLayoutRels := lrels;
        slideMasterRels := mrels;
        presentationRels := presentationRels p;
        slideMasters := sms;
        presentation := presentation p;
        contentTypes := ct |}.

(** [for i, b := range used { if !b { step } }], from slot [i] on. *)
Fixpoint forUnused (step : nat -> PowerpointDoc -> result PowerpointDoc)
    (i : nat) (used : list bool) (p : PowerpointDoc) : result PowerpointDoc :=
  match used with
  | [] => Ok p
  | b :: rest =>
      if b then forUnused step (S i) rest p
      else p' ← step i p; forUnused step (S i) rest p'
  end.

Definition RemoveUnusedLayouts (p : PowerpointDoc) : result PowerpointDoc :=
  used ← FindUsedLayouts p;
  forUnused removeLayout 0 used p.

(** "remove from presentation" *)
Definition removeFromPresentation (target : string) (rels : Relationships)
    (pres : option Document) : result (Relationships * option Document) :=
  match List.find (hasTarget target) (Relationship_ rels) with
  | None => Ok (rels, pres)
  | Some relm =>
      match pres with
      | None => Abort NilDereference
      | Some d =>
          d' ← removeMasterFromPresentation d (Id relm);
          Ok (dropTarget target rels, Some d')
      end
  end.

(** The body of the loop of [RemoveUnusedMasters] for an unused slot [i]. *)
Definition removeMaster (i : nat) (p : PowerpointDoc) : result PowerpointDoc :=
  let ct := removeOverride (masterPartName i) (contentTypes p) in
  '(prels, pres) ← removeFromPresentation (masterTarget i) (presentationRels p) (presentation p);
  mrels ← setSlot (slideMasterRels p) i emptyRelationships;
  sms ← setSlot (slideMasters p) i None;
  Ok {| sourceFileReader := sourceFileReader p;
        medias := medias p;
        slideRels := slideRels p;
        slideLayoutRels := slideLayoutRels p;
        slideMasterRels := mrels;
        presentationRels := prels;
        slideMasters := sms;
        presentation := pres;
        contentTypes := ct |}.

Definition RemoveUnusedMasters (p : PowerpointDoc) : result PowerpointDoc :=
  used ← FindUsedMasters p;
  forUnused removeMaster 0 used p.

(** The key under which an image relationship resolves. *)
Definition mediaKey (rel : Relationship) : string :=
  "ppt/media/" ++ Strings.Base (Target rel).

Definition imageKeys (sets : list Relationships) : list string :=
  mediaKey <$> filter (fun rel => Type_ rel = imageType)
                      (mjoin (Relationship_ <$> sets)).

(** [FindUsedMedias]: the keys of the map (all its values are [true]). *)
Definition FindUsedMedias (p : PowerpointDoc) : gset string :=
  list_to_set (imageKeys (slideRels p ++ slideLayoutRels p ++ slideMasterRels p)).

Definition RemoveUnusedMedias (p : PowerpointDoc) : PowerpointDoc :=
  let usedMedias := FindUsedMedias p in
  {| sourceFileReader := sourceFileReader p;
     medias := filter (fun kv => kv.1 ∈ usedMedias) (medias p);
     slideRels := slideRels p;
     slideLayoutRels := slideLayoutRels p;
     slideMasterRels := slideMasterRels p;
     presentationRels := presentationRels p;
     slideMasters := slideMasters p;
     presentation := presentation p;
     contentTypes := contentTypes p |}.

(** The pruning sequence of [main] ([-layouts]). *)
Definition prune (p : PowerpointDoc) : result PowerpointDoc :=
  p1 ← RemoveUnusedLayouts p;
  p2 ← RemoveUnusedMasters p1;
  Ok (RemoveUnusedMedias p2).

(** ** Transcoding *)

Definition setTarget (rel : Relationship) (t : string) : Relationship :=
  {| Id := Id rel; Type_ := Type_ rel; Target := t; TargetMode := TargetMode rel |}.

(** One iteration of the loop of [ReplaceTarget]. *)
Definition replaceTarget (oldbasename newbasename : string) (rel : Relationship)
  : Relationship :=
  if Strings.HasSuffix (Target rel) oldbasename
  then setTarget rel (Strings.Replace1 (Target rel) oldbasename newbasename)
  else rel.

Definition ReplaceTarget (oldbasename newbasename : string) (r : Relationships)
  : Relationships :=
  {| XMLName := XMLName r;
     Relationship_ := replaceTarget oldbasename newbasename <$> Relationship_ r |}.

(** The test that selects the entries [ConvertPictures] transcodes. *)
Definition eligible (name : string) : bool :=
  Strings.HasPrefix name "ppt/media/"
  && bool_decide (Strings.ToLower (Strings.Ext name) = ".tiff").

Definition doubleQuote : string := String (ascii_of_nat 34) EmptyString.
Definition newline : string := String (ascii_of_nat 10) EmptyString.

Definition xmlHeader : string :=
  "<?xml version=" ++ doubleQuote ++ "1.0" ++ doubleQuote
  ++ " encoding=" ++ doubleQuote ++ "UTF-8" ++ doubleQuote
  ++ " standalone=" ++ doubleQuote ++ "yes" ++ doubleQuote ++ "?>" ++ newline.

(** One entry written to the output archive. *)
Record Entry : Type := {
  EntryName : string;
  EntryData : string
}.

Section Collaborators.

(** The codecs and the XML (de)serializers are outside the program; they
    are parameters here.  A decoder returns [None] where the real one
    returns an error. *)

(** [tiff.Decode] followed by [png.Encode] *)
Variable tiffToPng : string -> option string.
(** [xml.Unmarshal] into a fresh [Relationships] *)
Variable unmarshalRelationships : string -> option Relationships.
(** [xml.Unmarshal] into the current [p.contentTypes] *)
Variable unmarshalTypes : string -> Types -> option Types.
(** [etree.NewDocument().ReadFrom] *)
Variable readDocument : string -> option Document.
(** [xml.Marshal] and the [WriteTo] of a document *)
Variable marshalRelationships : Relationships -> string.
Variable marshalTypes : Types -> string.
Variable writeDocument : Document -> string.

(** The body of the loop of [ConvertPictures] for one archive entry. *)
Definition convertPicture (f : File) (p : PowerpointDoc) : result PowerpointDoc :=
  if eligible (Name f) then
    match tiffToPng (Content f) with
    | None => Abort FatalLog
    | Some png =>
        let newfilename := Strings.Replace1 (Name f) ".tiff" ".png" in
        let oldbase := Strings.Base (Name f) in
        let newbase := Strings.Replace1 oldbase ".tiff" ".png" in
        Ok {| sourceFileReader := sourceFileReader p;
              medias :=
                delete (Name f)
                  (<[newfilename := {| size := Z.of_nat (String.length png);
                                       data := Some png |}]> (medias p));
              slideRels := ReplaceTarget oldbase newbase <$> slideRels p;
              slideLayoutRels := ReplaceTarget oldbase newbase <$> slideLayoutRels p;
              slideMasterRels := ReplaceTarget oldbase newbase <$> slideMasterRels p;
              presentationRels := presentationRels p;
              slideMasters := slideMasters p;
              presentation := presentation p;
              contentTypes := contentTypes p |}
    end
  else Ok p.

Fixpoint convertPictures (files : list File) (p : PowerpointDoc)
  : result PowerpointDoc :=
  match files with
  | [] => Ok p
  | f :: rest => p' ← convertPicture f p; convertPictures rest p'
  end.

Definition ConvertPictures (p : PowerpointDoc) : result PowerpointDoc :=
  convertPictures (sourceFileReader p) p.

(** ** Reader *)

(** [make([]T, pos); copy(new, old)] when [pos > len(old)], then
    [new[pos-1] = x].  [pos] is never negative; [pos = 0] indexes [-1]. *)
Definition updateSlot {A} (zero : A) (l : list A) (pos : Z) (x : A) : result (list A) :=
  let l' := if bool_decide (Z.of_nat (length l) < pos)%Z
            then (l ++ replicate (Z.to_nat pos - length l) zero)%list
            else l in
  if bool_decide (1 <= pos)%Z then Ok (<[Z.to_nat (pos - 1) := x]> l')
  else Abort IndexOutOfRange.

Definition updateRelationships (rels : list Relationships) (pos : Z) (r : Relationships)
  : result (list Relationships) :=
  updateSlot emptyRelationships rels pos r.

Definition updateSlideMasters (sms : list (option Document)) (pos : Z) (sm : Document)
  : result (list (option Document)) :=
  updateSlot None sms pos (Some sm).

(** [parseRelationships]: a set that does not parse is fatal. *)
Definition parseRelationships (f : File) : result Relationships :=
  match unmarshalRelationships (Content f) with
  | Some rel => Ok rel
  | None => Abort FatalLog
  end.

Definition parseAllRelationships (rels : list Relationships) (reltype : string) (f : File)
  : result (list Relationships) :=
  if Strings.HasPrefix (Name f) ("ppt/" ++ reltype ++ "s/_rels/") then
    rel ← parseRelationships f;
    updateRelationships rels (ObjectNumber.objectNumber (Name f)) rel
  else Ok rels.

(** The body of the loop of [ParseFile] for one archive entry. *)
Definition parseEntry (f : File) (p : PowerpointDoc) : result PowerpointDoc :=
  if Strings.HasPrefix (Name f) "ppt/media/" then
    Ok {| sourceFileReader := sourceFileReader p;
          medias := <[Name f := {| size := UncompressedSize64 f; data := None |}]> (medias p);
          slideRels := slideRels p; slideLayoutRels := slideLayoutRels p;
          slideMasterRels := slideMasterRels p; presentationRels := presentationRels p;
          slideMasters := slideMasters p; presentation := presentation p;
          contentTypes := contentTypes p |}
  else if bool_decide (Name f = "[Content_Types].xml") then
    match unmarshalTypes (Content f) (contentTypes p) with
    | None => Abort FatalLog
    | Some ct =>
        Ok {| sourceFileReader := sourceFileReader p; medias := medias p;
              slideRels := slideRels p; slideLayoutRels := slideLayoutRels p;
              slideMasterRels := slideMasterRels p; presentationRels := presentationRels p;
              slideMasters := slideMasters p; presentation := presentation p;
              contentTypes := ct |}
    end
  else if Strings.HasPrefix (Name f) "ppt/slideMasters/slideMaster" then
    match readDocument (Content f) with
    | None => Abort FatalLog
    | Some doc =>
        sms ← updateSlideMasters (slideMasters p) (ObjectNumber.objectNumber (Name f)) doc;
        Ok {| sourceFileReader := sourceFileReader p; medias := medias p;
              slideRels := slideRels p; slideLayoutRels := slideLayoutRels p;
              slideMasterRels := slideMasterRels p; presentationRels := presentationRels p;
              slideMasters := sms; presentation := presentation p;
              contentTypes := contentTypes p |}
    end
  else if bool_decide (Name f = "ppt/_rels/presentation.xml.rels") then
    prels ← parseRelationships f;
    Ok {| sourceFileReader := sourceFileReader p; medias := medias p;
          slideRels := slideRels p; slideLayoutRels := slideLayoutRels p;
          slideMasterRels := slideMasterRels p; presentationRels := prels;
          slideMasters := slideMasters p; presentation := presentation p;
          contentTypes := contentTypes p |}
  else if bool_decide (Name f = "ppt/presentation.xml") then
    match readDocument (Content f) with
    | None => Abort FatalLog
    | Some doc =>
        Ok {| sourceFileReader := sourceFileReader p; medias := medias p;
              slideRels := slideRels p; slideLayoutRels := slideLayoutRels p;
              slideMasterRels := slideMasterRels p; presentationRels := presentationRels p;
              slideMasters := slideMasters p; presentation := Some doc;
              contentTypes := contentTypes p |}
    end
  else
    srels ← parseAllRelationships (slideRels p) "slide" f;
    lrels ← parseAllRelationships (slideLayoutRels p) "slideLayout" f;
    mrels ← parseAllRelationships (slideMasterRels p) "slideMaster" f;
    Ok {| sourceFileReader := sourceFileReader p; medias := medias p;
          slideRels := srels; slideLayoutRels := lrels;
          slideMasterRels := mrels; presentationRels := presentationRels p;
          slideMasters := slideMasters p; presentation := presentation p;
          contentTypes := contentTypes p |}.

Fixpoint parseEntries (files : list File) (p : PowerpointDoc) : result PowerpointDoc :=
  match files with
  | [] => Ok p
  | f :: rest => p' ← parseEntry f p; parseEntries rest p'
  end.

(** [NewPowerpointDoc()] once the archive [files] is opened. *)
Definition NewPowerpointDoc (files : list File) : PowerpointDoc :=
  {| sourceFileReader := files; medias := ∅;
     slideRels := []; slideLayoutRels := []; slideMasterRels := [];
     presentationRels := emptyRelationships;
     slideMasters := []; presentation := None;
     contentTypes := {| TypesXMLName := ("", ""); Default := []; Override := [] |} |}.

(** [ParseFile] on an archive that opens, with entries [files]. *)
Definition ParseFile (files : list File) : result PowerpointDoc :=
  parseEntries files (NewPowerpointDoc files).

(** ** Writer *)

(** [saveRelationships] *)
Definition saveRelationships (rel : Relationships) (relpath : string) : Entry :=
  {| EntryName := relpath; EntryData := xmlHeader ++ marshalRelationships rel |}.

Definition relsPath (reltype : string) (i : nat) : string :=
  "ppt/" ++ reltype ++ "s/_rels/" ++ reltype ++ Strings.itoa (i + 1) ++ ".xml.rels".

(** [saveAllRelationships], from slot [i] on: empty sets are skipped. *)
Fixpoint saveAllRelationships (rels : list Relationships) (reltype : string) (i : nat)
  : list Entry :=
  match rels with
  | [] => []
  | r :: rest =>
      match Relationship_ r with
      | [] => saveAllRelationships rest reltype (S i)
      | _ => saveRelationships r (relsPath reltype i)
             :: saveAllRelationships rest reltype (S i)
      end
  end.

(** The entries [SaveFile] never copies: it writes them anew. *)
Definition rewritten (name : string) : bool :=
  bool_decide (name = "[Content_Types].xml")
  || Strings.HasPrefix name "ppt/slides/_rels/"
  || Strings.HasPrefix name "ppt/slideLayouts/_rels/"
  || Strings.HasPrefix name "ppt/_rels/"
  || Strings.HasPrefix name "ppt/slideMasters/"
  || bool_decide (name = "ppt/presentation.xml").

(** [p.slideLayoutRels[layoutNumber-1]], with Go's bounds check. *)
Definition layoutSlot (p : PowerpointDoc) (layoutNumber : Z) : result Relationships :=
  if bool_decide (1 <= layoutNumber)%Z then
    match slideLayoutRels p !! Z.to_nat (layoutNumber - 1) with
    | Some r => Ok r
    | None => Abort IndexOutOfRange
    end
  else Abort IndexOutOfRange.

(** The first loop of [SaveFile]: what is copied from the source. *)
Fixpoint copyEntries (files : list File) (p : PowerpointDoc) : result (list Entry) :=
  match files with
  | [] => Ok []
  | f :: rest =>
      if rewritten (Name f) then copyEntries rest p
      else if Strings.HasPrefix (Name f) "ppt/media/"
              && negb (bool_decide (is_Some (medias p !! Name f)))
      then copyEntries rest p
      else
        skip ← (if Strings.HasPrefix (Name f) "ppt/slideLayouts/" then
                  r ← layoutSlot p (ObjectNumber.objectNumber (Name f));
                  Ok (bool_decide (length (Relationship_ r) < 1))
                else Ok false);
        out ← copyEntries rest p;
        Ok (if skip : bool then out
            else {| EntryName := Name f; EntryData := Content f |} :: out)
  end.

(** "add new media files": [order] is the sequence in which the [range]
    over the map [p.medias] yields its entries. *)
Fixpoint newMedias (order : list (string * Media)) : list Entry :=
  match order with
  | [] => []
  | (k, m) :: rest =>
      match data m with
      | Some d => {| EntryName := k; EntryData := d |} :: newMedias rest
      | None => newMedias rest
      end
  end.

(** "rewrite slide masters", from slot [i] on. *)
Fixpoint saveMasters (sms : list (option Document)) (i : nat) : list Entry :=
  match sms with
  | [] => []
  | None :: rest => saveMasters rest (S i)
  | Some sm :: rest =>
      {| EntryName := "ppt/slideMasters/slideMaster" ++ Strings.itoa (i + 1) ++ ".xml";
         EntryData := writeDocument sm |} :: saveMasters rest (S i)
  end.

(** The entries written after the new media files. *)
Definition rewrittenEntries (p : PowerpointDoc) (pres : Document) : list Entry :=
  (saveAllRelationships (slideRels p) "slide" 0
   ++ saveAllRelationships (slideLayoutRels p) "slideLayout" 0
   ++ saveAllRelationships (slideMasterRels p) "slideMaster" 0
   ++ [saveRelationships (presentationRels p) "ppt/_rels/presentation.xml.rels"]
   ++ [{| EntryName := "[Content_Types].xml";
          EntryData := xmlHeader ++ marshalTypes (contentTypes p) |}]
   ++ saveMasters (slideMasters p) 0
   ++ [{| EntryName := "ppt/presentation.xml"; EntryData := writeDocument pres |}])%list.

(** [SaveFile] for one iteration order of the media map: the sequence of
    entries written to the output archive.  (Opening a source entry and
    creating an output entry are taken to succeed.) *)
Definition SaveFileWith (order : list (string * Media)) (p : PowerpointDoc)
  : result (list Entry) :=
  copied ← copyEntries (sourceFileReader p) p;
  match presentation p with
  | None => Abort NilDereference
  | Some pres => Ok (copied ++ newMedias order ++ rewrittenEntries p pres)%list
  end.

(** A run of [SaveFile]: Go leaves the iteration order of a map
    unspecified, each entry is visited once. *)
Definition SaveFile (p : PowerpointDoc) (out : list Entry) : Prop :=
  exists order, order ≡ₚ map_to_list (medias p) /\ SaveFileWith order p = Ok out.

End Collaborators.

(** * Properties *)

(** ** Results *)

Lemma bind_Ok {A B} (m : result A) (k : A -> result B) (b : B) :
  m ≫= k = Ok b <-> exists a, m = Ok a /\ k a = Ok b.
Proof.
  destruct m as [a|e]; simpl; split.
  - intros H. exists a. done.
  - intros (a' & [= <-] & H). done.
  - discriminate.
  - intros (a' & [=] & _).
Qed.

Lemma isOk_true {A} (m : result A) : isOk m = true <-> exists a, m = Ok a.
Proof. destruct m; simpl; split; eauto; try discriminate. intros [? ?]; discriminate. Qed.

(** ** Reachability marks *)

(** The numbers a collection of relationship sets refers to through
    relationships of type [ty], in the order the loops visit them. *)
Definition references (ty : string) (sets : list Relationships) : list Z :=
  (fun rel => ObjectNumber.objectNumber (Target rel))
    <$> filter (fun rel => Type_ rel = ty) (mjoin (Relationship_ <$> sets)).

Fixpoint markNumbers (ns : list Z) (used : list bool) : result (list bool) :=
  match ns with
  | [] => Ok used
  | n :: rest => used' ← markUsed used n; markNumbers rest used'
  end.

Lemma markNumbers_app ns1 ns2 used :
  markNumbers (ns1 ++ ns2) used = used' ← markNumbers ns1 used; markNumbers ns2 used'.
Proof.
  revert used. induction ns1 as [|n ns1 IH]; intros used; simpl; [done|].
  destruct (markUsed used n) as [u|e]; simpl; [apply IH | done].
Qed.

Lemma markRels_numbers ty rels used :
  markRels ty rels used
  = markNumbers ((fun rel => ObjectNumber.objectNumber (Target rel))
                   <$> filter (fun rel => Type_ rel = ty) rels) used.
Proof.
  revert used. induction rels as [|rel rels IH]; intros used; simpl; [done|].
  rewrite filter_cons. destruct (decide (Type_ rel = ty)) as [Hty|Hty].
  - rewrite bool_decide_eq_true_2 by done. simpl.
    destruct (markUsed _ _); simpl; [apply IH | done].
  - rewrite bool_decide_eq_false_2 by done. apply IH.
Qed.

Lemma markAll_numbers ty sets used :
  markAll ty sets used = markNumbers (references ty sets) used.
Proof.
  unfold references. revert used.
  induction sets as [|rels sets IH]; intros used; simpl; [done|].
  rewrite filter_app, fmap_app, markNumbers_app, <- markRels_numbers.
  destruct (markRels _ _ _); simpl; [apply IH | done].
Qed.

Lemma markUsed_Ok used n used' :
  markUsed used n = Ok used' ->
  (1 <= n <= Z.of_nat (length used))%Z /\ used' = <[Z.to_nat (n - 1) := true]> used.
Proof. unfold markUsed. case_bool_decide; [|done]. intros [= <-]. done. Qed.

Lemma markNumbers_Ok ns used used' :
  markNumbers ns used = Ok used' ->
  length used' = length used
  /\ Forall (fun n => 1 <= n <= Z.of_nat (length used))%Z ns
  /\ forall i, used' !! i = Some true
               <-> used !! i = Some true
                   \/ (i < length used /\ (Z.of_nat i + 1)%Z ∈ ns).
Proof.
  revert used. induction ns as [|n ns IH]; intros used; simpl.
  - intros [= <-]. split; [done|]. split; [constructor|].
    intros i. rewrite elem_of_nil. tauto.
  - intros H. apply bind_Ok in H as (u & Hu & H).
    apply markUsed_Ok in Hu as [Hn ->].
    apply IH in H as (Hlen & Hall & Hiff).
    rewrite length_insert in Hlen, Hall. setoid_rewrite length_insert in Hiff.
    split; [done|]. split; [by constructor|].
    intros i. rewrite Hiff, elem_of_cons.
    destruct (decide (i = Z.to_nat (n - 1))) as [->|Hne].
    + rewrite list_lookup_insert_eq by lia.
      split; [|by left]. intros _. right. split; [lia|]. left. lia.
    + rewrite list_lookup_insert_ne by done.
      split; [tauto|]. intros [?|[? [Heq|?]]]; [tauto| |tauto]. lia.
Qed.

Lemma markNumbers_total ns used :
  Forall (fun n => 1 <= n <= Z.of_nat (length used))%Z ns ->
  exists used', markNumbers ns used = Ok used'.
Proof.
  revert used. induction ns as [|n ns IH]; intros used Hall; simpl; [eauto|].
  inversion Hall as [|? ? Hn Hns]; subst.
  unfold markUsed. rewrite bool_decide_eq_true_2 by done. simpl.
  apply IH. by rewrite length_insert.
Qed.

Lemma markNumbers_Abort ns used e :
  markNumbers ns used = Abort e -> e = IndexOutOfRange.
Proof.
  revert used. induction ns as [|n ns IH]; intros used; simpl; [done|].
  unfold markUsed. case_bool_decide; simpl; [apply IH | by intros [= <-]].
Qed.

Lemma elem_of_references ty sets n :
  n ∈ references ty sets
  <-> exists rels rel, rels ∈ sets /\ rel ∈ Relationship_ rels
                       /\ Type_ rel = ty /\ ObjectNumber.objectNumber (Target rel) = n.
Proof.
  unfold references. rewrite list_elem_of_fmap. split.
  - intros (rel & -> & Hin). apply list_elem_of_filter in Hin as [Hty Hin].
    apply list_elem_of_join in Hin as (l & Hrel & Hl).
    apply list_elem_of_fmap in Hl as (rels & -> & Hrels). eauto 10.
  - intros (rels & rel & Hrels & Hrel & Hty & <-). exists rel. split; [done|].
    apply list_elem_of_filter. split; [done|].
    apply list_elem_of_join. exists (Relationship_ rels). split; [done|].
    apply list_elem_of_fmap. eauto.
Qed.

(** ** The loops over unused slots *)

(** The slots a [for i, b := range used] loop acts on, from slot [k] on. *)
Fixpoint unusedFrom (k : nat) (used : list bool) : list nat :=
  match used with
  | [] => []
  | b :: rest => if b then unusedFrom (S k) rest else k :: unusedFrom (S k) rest
  end.

Fixpoint runSteps (step : nat -> PowerpointDoc -> result PowerpointDoc)
    (slots : list nat) (p : PowerpointDoc) : result PowerpointDoc :=
  match slots with
  | [] => Ok p
  | i :: rest => p' ← step i p; runSteps step rest p'
  end.

Lemma forUnused_steps step k used p :
  forUnused step k used p = runSteps step (unusedFrom k used) p.
Proof.
  revert k p. induction used as [|b used IH]; intros k p; simpl; [done|].
  destruct b; simpl; [apply IH|].
  destruct (step k p); simpl; [apply IH | done].
Qed.

Lemma elem_of_unusedFrom k used i :
  i ∈ unusedFrom k used <-> exists j, i = k + j /\ used !! j = Some false.
Proof.
  revert k. induction used as [|b used IH]; intros k; simpl.
  - rewrite elem_of_nil. split; [done|]. intros (j & _ & H). by destruct j.
  - assert (i ∈ unusedFrom (S k) used
            <-> exists j, i = k + S j /\ used !! j = Some false) as IH'.
    { rewrite IH. split; intros (j & -> & H); exists j; split; auto; lia. }
    destruct b; [|rewrite elem_of_cons]; rewrite IH'; split.
    + intros (j & -> & H). by exists (S j).
    + intros ([|j] & -> & H); [done|]. by exists j.
    + intros [->|(j & -> & H)]; [exists 0; split; [lia|done] | by exists (S j)].
    + intros ([|j] & -> & H); [left; lia | right; by exists j].
Qed.

Lemma runSteps_invariant step (Inv : PowerpointDoc -> Prop) :
  (forall i p p', Inv p -> step i p = Ok p' -> Inv p') ->
  forall slots p p', Inv p -> runSteps step slots p = Ok p' -> Inv p'.
Proof.
  intros Hstep slots. induction slots as [|i slots IH]; intros p p' HI; simpl.
  - by intros [= <-].
  - intros H. apply bind_Ok in H as (p1 & H1 & H). eauto.
Qed.

(** Each step establishes [Done] for its slot, later steps keep it. *)
Lemma runSteps_done step (Inv : PowerpointDoc -> Prop) (Done : nat -> PowerpointDoc -> Prop) :
  (forall i p p', Inv p -> step i p = Ok p' -> Inv p' /\ Done i p') ->
  (forall i j p p', Done i p -> step j p = Ok p' -> Done i p') ->
  forall slots p p', Inv p -> runSteps step slots p = Ok p' ->
    Inv p' /\ forall i, i ∈ slots -> Done i p'.
Proof.
  intros Hest Hkeep slots. induction slots as [|i slots IH]; intros p p' HI; simpl.
  - intros [= <-]. split; [done|]. intros i Hi. by apply elem_of_nil in Hi.
  - intros H. apply bind_Ok in H as (p1 & H1 & H).
    destruct (Hest _ _ _ HI H1) as [HI1 HD1].
    destruct (IH _ _ HI1 H) as [HI' HD']. split; [done|].
    intros i' [->|Hi']%elem_of_cons; [|by apply HD'].
    clear -Hkeep HD1 H. revert p1 HD1 H.
    induction slots as [|j slots IH2]; intros p1 HD1; simpl.
    + by intros [= <-].
    + intros H. apply bind_Ok in H as (p2 & H2 & H). eauto.
Qed.

(** Where every slot is already [Done], the loop changes nothing. *)
Lemma runSteps_noop step (Done : nat -> PowerpointDoc -> Prop) :
  (forall i p, Done i p -> step i p = Ok p) ->
  forall slots p, (forall i, i ∈ slots -> Done i p) -> runSteps step slots p = Ok p.
Proof.
  intros Hstep slots p. induction slots as [|i slots IH]; intros HD; simpl; [done|].
  rewrite (Hstep i p) by (apply HD; left). simpl.
  apply IH. intros j Hj. apply HD. by right.
Qed.

(** ** Deleting the first match *)

Lemma removeFirst_sublist {A} (P : A -> bool) l : removeFirst P l `sublist_of` l.
Proof.
  induction l as [|x l IH]; simpl; [done|].
  destruct (P x); [by apply sublist_cons | by apply sublist_skip].
Qed.

Lemma removeFirst_none {A} (P : A -> bool) l :
  (forall x, x ∈ l -> P x = false) -> removeFirst P l = l.
Proof.
  induction l as [|x l IH]; intros H; simpl; [done|].
  rewrite (H x) by left. f_equal. apply IH. intros y Hy. apply H. by right.
Qed.

Lemma elem_of_removeFirst {A} (P : A -> bool) l x :
  x ∈ removeFirst P l -> x ∈ l.
Proof. intros H. eapply elem_of_sublist; [exact H | apply removeFirst_sublist]. Qed.

Lemma removeFirst_fmap_sublist {A B} (f : A -> B) (P : A -> bool) l :
  f <$> removeFirst P l `sublist_of` f <$> l.
Proof. apply fmap_sublist, removeFirst_sublist. Qed.

(** With no two elements of the same key, none of that key is left. *)
Lemma removeFirst_key_gone {A} (f : A -> string) (k : string) l x :
  NoDup (f <$> l) ->
  x ∈ removeFirst (fun y => bool_decide (f y = k)) l -> f x <> k.
Proof.
  induction l as [|y l IH]; simpl; [by intros _ ?%elem_of_nil|].
  intros [Hy Hnd]%NoDup_cons. case_bool_decide as Hk.
  - intros Hx <-. apply Hy. rewrite Hk. apply list_elem_of_fmap. eauto.
  - intros [->|Hx]%elem_of_cons; [done | by apply IH].
Qed.

Lemma find_None_elem {A} (P : A -> bool) l :
  List.find P l = None <-> forall x, x ∈ l -> P x = false.
Proof.
  induction l as [|y l IH]; simpl.
  - split; [by intros _ ? ?%elem_of_nil | done].
  - destruct (P y) eqn:Hy.
    + split; [done|]. intros H. specialize (H y ltac:(left)). congruence.
    + rewrite IH. split.
      * intros H x [->|Hx]%elem_of_cons; auto.
      * intros H x Hx. apply H. by right.
Qed.

(** ** One step of layout removal *)

Lemma dropTarget_none target rs :
  List.find (hasTarget target) (Relationship_ rs) = None -> dropTarget target rs = rs.
Proof.
  intros H. destruct rs as [n l]. unfold dropTarget. simpl in *. f_equal.
  apply removeFirst_none. by apply find_None_elem.
Qed.

Lemma removeFromMasters_Ok target j mrels sms mrels' sms' :
  removeFromMasters target j mrels sms = Ok (mrels', sms') ->
  mrels' = dropTarget target <$> mrels /\ length sms' = length sms.
Proof.
  revert j sms mrels' sms'.
  induction mrels as [|relsm rest IH]; intros j sms mrels' sms'; simpl.
  - by intros [= <- <-].
  - destruct (List.find _ _) as [relm|] eqn:Hfind.
    + destruct (sms !! j) as [[master|]|]; try done.
      intros H. apply bind_Ok in H as (master' & _ & H).
      apply bind_Ok in H as ([m1 s1] & H1 & [= <- <-]).
      apply IH in H1 as [-> Hlen]. rewrite length_insert in Hlen. done.
    + intros H. apply bind_Ok in H as ([m1 s1] & H1 & [= <- <-]).
      apply IH in H1 as [-> Hlen]. by rewrite dropTarget_none.
Qed.

Lemma removeFromMasters_noop target j mrels sms :
  (forall rs r, rs ∈ mrels -> r ∈ Relationship_ rs -> Target r <> target) ->
  removeFromMasters target j mrels sms = Ok (mrels, sms).
Proof.
  revert j. induction mrels as [|relsm rest IH]; intros j H; simpl; [done|].
  assert (List.find (hasTarget target) (Relationship_ relsm) = None) as ->.
  { apply find_None_elem. intros r Hr. apply bool_decide_eq_false_2.
    apply (H relsm); [left | done]. }
  rewrite IH; [done|]. intros rs r Hrs. apply H. by right.
Qed.

(** Every id of a relationship set can stand between the quotes of a path. *)
Definition idsQuotable (rs : Relationships) : Prop :=
  forall r, r ∈ Relationship_ rs -> Etree.quotable (Id r) = true.

Lemma find_Some_elem {A} (P : A -> bool) l x :
  List.find P l = Some x -> x ∈ l /\ P x = true.
Proof.
  induction l as [|y l IH]; simpl; [done|].
  destruct (P y) eqn:Hy.
  - intros [= <-]. split; [left | done].
  - intros [Hx HP]%IH. split; [by right | done].
Qed.

Lemma removeFromMasters_total target j mrels sms :
  (forall rs, rs ∈ mrels -> idsQuotable rs) ->
  (forall k, j <= k < j + length mrels -> exists d, sms !! k = Some (Some d)) ->
  exists out, removeFromMasters target j mrels sms = Ok out.
Proof.
  revert j sms. induction mrels as [|relsm rest IH]; intros j sms Hq H; simpl; [eauto|].
  destruct (H j) as [d Hd]; [simpl; lia|].
  assert (forall rs, rs ∈ rest -> idsQuotable rs) as Hq' by (intros rs Hrs; apply Hq; by right).
  destruct (List.find _ _) as [relm|] eqn:Hfind; [rewrite Hd|].
  - apply find_Some_elem in Hfind as [Hrelm _].
    unfold removeLayoutFromMaster. rewrite (Hq relsm) by (left || done). simpl.
    match goal with |- context [removeFromMasters _ _ _ ?s] =>
      destruct (IH (S j) s) as [[m1 s1] ->]; [done| |simpl; eauto] end.
    intros k Hk. rewrite list_lookup_insert_ne by lia. apply H. simpl. lia.
  - destruct (IH (S j) sms) as [[m1 s1] ->]; [done| |simpl; eauto].
    intros k Hk. apply H. simpl. lia.
Qed.

Lemma removeLayout_Ok i p p' :
  removeLayout i p = Ok p' ->
  i < length (slideLayoutRels p)
  /\ sourceFileReader p' = sourceFileReader p
  /\ medias p' = medias p
  /\ slideRels p' = slideRels p
  /\ slideLayoutRels p' = <[i := emptyRelationships]> (slideLayoutRels p)
  /\ slideMasterRels p' = dropTarget (layoutTarget i) <$> slideMasterRels p
  /\ presentationRels p' = presentationRels p
  /\ length (slideMasters p') = length (slideMasters p)
  /\ presentation p' = presentation p
  /\ contentTypes p' = removeOverride (layoutPartName i) (contentTypes p).
Proof.
  unfold removeLayout. intros H.
  apply bind_Ok in H as ([m1 s1] & H1 & H).
  apply bind_Ok in H as (l1 & Hl & [= <-]). simpl.
  apply removeFromMasters_Ok in H1 as [-> Hlen].
  unfold setSlot in Hl. case_bool_decide; [|done]. injection Hl as <-.
  repeat split; done.
Qed.

(** ** One step of master removal *)

Lemma removeFromPresentation_Ok target rels pres rels' pres' :
  removeFromPresentation target rels pres = Ok (rels', pres') ->
  rels' = dropTarget target rels.
Proof.
  unfold removeFromPresentation.
  destruct (List.find _ _) as [relm|] eqn:Hfind.
  - destruct pres; [|done]. intros H.
    by apply bind_Ok in H as (d' & _ & [= <- <-]).
  - intros [= <- <-]. by rewrite dropTarget_none.
Qed.

Lemma removeFromPresentation_noop target rels pres :
  (forall r, r ∈ Relationship_ rels -> Target r <> target) ->
  removeFromPresentation target rels pres = Ok (rels, pres).
Proof.
  intros H. unfold removeFromPresentation.
  assert (List.find (hasTarget target) (Relationship_ rels) = None) as ->; [|done].
  apply find_None_elem. intros r Hr. apply bool_decide_eq_false_2. auto.
Qed.

Lemma removeMaster_Ok i p p' :
  removeMaster i p = Ok p' ->
  i < length (slideMasterRels p)
  /\ i < length (slideMasters p)
  /\ sourceFileReader p' = sourceFileReader p
  /\ medias p' = medias p
  /\ slideRels p' = slideRels p
  /\ slideLayoutRels p' = slideLayoutRels p
  /\ slideMasterRels p' = <[i := emptyRelationships]> (slideMasterRels p)
  /\ presentationRels p' = dropTarget (masterTarget i) (presentationRels p)
  /\ slideMasters p' = <[i := None]> (slideMasters p)
  /\ contentTypes p' = removeOverride (masterPartName i) (contentTypes p).
Proof.
  unfold removeMaster. intros H.
  apply bind_Ok in H as ([r1 d1] & H1 & H).
  apply bind_Ok in H as (m1 & Hm & H).
  apply bind_Ok in H as (s1 & Hs & [= <-]). simpl.
  apply removeFromPresentation_Ok in H1 as ->.
  unfold setSlot in Hm, Hs. repeat case_bool_decide; try done.
  injection Hm as <-. injection Hs as <-. repeat split; done.
Qed.

(** ** Layout reachability *)

(** Some slide has a slideLayout-type relationship whose target carries
    the number [n]. *)
Definition refersToLayout (p : PowerpointDoc) (n : Z) : Prop :=
  exists rels rel, rels ∈ slideRels p /\ rel ∈ Relationship_ rels
                   /\ Type_ rel = slideLayoutType
                   /\ ObjectNumber.objectNumber (Target rel) = n.

Lemma FindUsedLayouts_Ok_iff p :
  (exists used, FindUsedLayouts p = Ok used)
  <-> Forall (fun n => 1 <= n <= Z.of_nat (length (slideLayoutRels p)))%Z
             (references slideLayoutType (slideRels p)).
Proof.
  unfold FindUsedLayouts. rewrite markAll_numbers. split.
  - intros [used H]. apply markNumbers_Ok in H as (_ & H & _).
    by rewrite length_replicate in H.
  - intros H. apply markNumbers_total. by rewrite length_replicate.
Qed.

(** C9: [FindUsedLayouts] returns exactly when every slideLayout-type
    relationship of every slide has a target whose extracted number [n]
    satisfies [1 <= n <= len(p.slideLayoutRels)]; otherwise the unchecked
    write [usedSlideLayouts[n-1]] is out of range and the run panics.  A
    target from which no number can be extracted gives [n = 0]. *)
Theorem FindUsedLayouts_total_iff (p : PowerpointDoc) :
  (isOk (FindUsedLayouts p) = true
   <-> forall rels rel,
         rels ∈ slideRels p -> rel ∈ Relationship_ rels ->
         Type_ rel = slideLayoutType ->
         (1 <= ObjectNumber.objectNumber (Target rel)
          <= Z.of_nat (length (slideLayoutRels p)))%Z)
  /\ (isOk (FindUsedLayouts p) = false -> FindUsedLayouts p = Abort IndexOutOfRange)
  /\ (forall fname e,
        snd (ObjectNumber.getObjectNumberFromFilename fname) = Some e ->
        ObjectNumber.objectNumber fname = 0%Z).
Proof.
  split; [|split].
  - rewrite isOk_true, FindUsedLayouts_Ok_iff, Forall_forall. split.
    + intros H rels rel Hrels Hrel Hty. apply H, elem_of_references. eauto 10.
    + intros H n (rels & rel & ? & ? & ? & <-)%elem_of_references. eauto.
  - destruct (FindUsedLayouts p) as [u|e] eqn:H; simpl; [done|]. intros _.
    unfold FindUsedLayouts in H. rewrite markAll_numbers in H.
    by apply markNumbers_Abort in H as ->.
  - intros fname e. unfold ObjectNumber.objectNumber,
      ObjectNumber.getObjectNumberFromFilename.
    destruct (ObjectNumber.FindStringSubmatch fname); [|done].
    by destruct (ObjectNumber.Atoi _).
Qed.

Lemma FindUsedLayouts_spec p used :
  FindUsedLayouts p = Ok used ->
  length used = length (slideLayoutRels p)
  /\ forall i, used !! i = Some true
               <-> i < length (slideLayoutRels p)
                   /\ refersToLayout p (Z.of_nat i + 1).
Proof.
  unfold FindUsedLayouts. rewrite markAll_numbers. intros H.
  apply markNumbers_Ok in H as (Hlen & _ & Hiff).
  rewrite length_replicate in Hlen. split; [done|].
  intros i. rewrite Hiff, length_replicate, elem_of_references.
  split; [|by right]. intros [H|H]; [|done].
  by apply lookup_replicate in H as [[=] _].
Qed.

Lemma runSteps_removeLayout_slots slots p p' :
  runSteps removeLayout slots p = Ok p' ->
  slideRels p' = slideRels p
  /\ length (slideLayoutRels p') = length (slideLayoutRels p)
  /\ forall i, i < length (slideLayoutRels p) ->
       slideLayoutRels p' !! i
       = if decide (i ∈ slots) then Some emptyRelationships
         else slideLayoutRels p !! i.
Proof.
  revert p. induction slots as [|k slots IH]; intros p; simpl.
  - by intros [= <-].
  - intros H. apply bind_Ok in H as (p1 & H1 & H).
    apply removeLayout_Ok in H1 as (Hk & _ & _ & Hs & Hl & _).
    apply IH in H as (Hs' & Hlen' & Hslots).
    rewrite Hl, length_insert in Hlen', Hslots. rewrite Hs in Hs'.
    repeat split; try done. intros i Hi. rewrite Hslots by done.
    destruct (decide (i ∈ slots)) as [Hin|Hin].
    + rewrite decide_True; [done | by right].
    + destruct (decide (i = k)) as [->|Hne].
      * rewrite decide_True by left. by apply list_lookup_insert_eq.
      * rewrite decide_False; [by rewrite list_lookup_insert_ne|].
        by intros [?|?]%elem_of_cons.
Qed.

(** ** A small package

    One slide on layout 1, with one TIFF picture; layout 2 is used by no
    slide; both layouts belong to master 1. *)

Module Demo.

Definition rel (id ty target : string) : Relationship :=
  {| Id := id; Type_ := ty; Target := target; TargetMode := "" |}.

Definition relsName : string * string :=
  ("http://schemas.openxmlformats.org/package/2006/relationships", "Relationships").

Definition rels (l : list Relationship) : Relationships :=
  {| XMLName := relsName; Relationship_ := l |}.

Definition layoutId (id : string) : Token :=
  Element "p" "sldLayoutId" [{| AttrSpace := "r"; AttrKey := "id"; AttrValue := id |}] [].

Definition master (ids : list string) : Document :=
  {| Root := [Element "p" "sldMaster" []
                [Other " "; Element "p" "sldLayoutIdLst" [] (layoutId <$> ids)]] |}.

Definition pres : Document :=
  {| Root := [Element "p" "presentation" []
                [Element "p" "sldMasterIdLst" []
                   [Element "p" "sldMasterId"
                      [{| AttrSpace := "r"; AttrKey := "id"; AttrValue := "rId1" |}] []]]] |}.

Definition override (name : string) : OverrideEntry :=
  {| PartName := name; ContentType := "application/xml" |}.

Definition file (name : string) : File :=
  {| Name := name; UncompressedSize64 := 4; Content := "data" |}.

Definition files : list File :=
  file <$> ["[Content_Types].xml"; "ppt/presentation.xml";
            "ppt/_rels/presentation.xml.rels";
            "ppt/slides/slide1.xml"; "ppt/slides/_rels/slide1.xml.rels";
            "ppt/slideLayouts/slideLayout1.xml"; "ppt/slideLayouts/slideLayout2.xml";
            "ppt/slideLayouts/_rels/slideLayout1.xml.rels";
            "ppt/slideLayouts/_rels/slideLayout2.xml.rels";
            "ppt/slideMasters/slideMaster1.xml";
            "ppt/slideMasters/_rels/slideMaster1.xml.rels";
            "ppt/media/image1.tiff"].

Definition slide1 : Relationships :=
  rels [rel "rId1" slideLayoutType "../slideLayouts/slideLayout1.xml";
        rel "rId2" imageType "../media/image1.tiff"].

Definition layout : Relationships :=
  rels [rel "rId1" slideMasterType "../slideMasters/slideMaster1.xml"].

Definition master1 : Relationships :=
  rels [rel "rId1" slideLayoutType "../slideLayouts/slideLayout1.xml";
        rel "rId2" slideLayoutType "../slideLayouts/slideLayout2.xml"].

Definition types (names : list string) : Types :=
  {| TypesXMLName := ("http://schemas.openxmlformats.org/package/2006/content-types", "Types");
     Default := [];
     Override := override <$> names |}.

Definition doc : PowerpointDoc :=
  {| sourceFileReader := files;
     medias := {[ "ppt/media/image1.tiff" := {| size := 4; data := None |} ]};
     slideRels := [slide1];
     slideLayoutRels := [layout; layout];
     slideMasterRels := [master1];
     presentationRels := rels [rel "rId1" slideMasterType "slideMasters/slideMaster1.xml"];
     slideMasters := [Some (master ["rId1"; "rId2"])];
     presentation := Some pres;
     contentTypes := types ["/ppt/slideLayouts/slideLayout1.xml";
                            "/ppt/slideLayouts/slideLayout2.xml";
                            "/ppt/slideMasters/slideMaster1.xml"] |}.

End Demo.

Example demo_used : FindUsedLayouts Demo.doc = Ok [true; false].
Proof. reflexivity. Qed.

(** ** Prefixes *)

Lemma prefix_inv (a s : string) :
  String.prefix a s = true -> exists r, s = a ++ r.
Proof.
  revert s. induction a as [|c a IH]; intros s; simpl.
  - intros _. by exists s.
  - destruct s as [|d s]; [done|]. simpl.
    destruct (Ascii.ascii_dec c d) as [->|]; [|done].
    intros [r ->]%IH. by exists r.
Qed.

(** An entry of the layout area outside its [_rels] sub-path reaches the
    skip check of [SaveFile]. *)
Lemma layout_entry_not_rewritten name :
  Strings.HasPrefix name "ppt/slideLayouts/" = true ->
  rewritten name = Strings.HasPrefix name "ppt/slideLayouts/_rels/"
  /\ Strings.HasPrefix name "ppt/media/" = false.
Proof.
  intros [r ->]%prefix_inv. unfold rewritten.
  rewrite !bool_decide_eq_false_2 by (simpl; discriminate).
  split; [|reflexivity].
  change (Strings.HasPrefix ("ppt/slideLayouts/" ++ r) "ppt/slides/_rels/") with false.
  change (Strings.HasPrefix ("ppt/slideLayouts/" ++ r) "ppt/_rels/") with false.
  change (Strings.HasPrefix ("ppt/slideLayouts/" ++ r) "ppt/slideMasters/") with false.
  by destruct (Strings.HasPrefix _ "ppt/slideLayouts/_rels/").
Qed.

(** ** Writer *)

(** The entries of the source archive for which [SaveFile] reads
    [p.slideLayoutRels[n-1]]. *)
Definition layoutBody (name : string) : bool :=
  Strings.HasPrefix name "ppt/slideLayouts/"
  && negb (Strings.HasPrefix name "ppt/slideLayouts/_rels/").

Definition slotInRange (p : PowerpointDoc) (name : string) : Prop :=
  (1 <= ObjectNumber.objectNumber name <= Z.of_nat (length (slideLayoutRels p)))%Z.

Lemma layoutSlot_Ok_iff p n :
  (exists r, layoutSlot p n = Ok r)
  <-> (1 <= n <= Z.of_nat (length (slideLayoutRels p)))%Z.
Proof.
  unfold layoutSlot. case_bool_decide as Hn.
  - destruct (slideLayoutRels p !! Z.to_nat (n - 1)) as [r|] eqn:Hr.
    + apply lookup_lt_Some in Hr. split; [lia | eauto].
    + apply lookup_ge_None in Hr. split; [by intros [? ?] | lia].
  - split; [by intros [? ?] | lia].
Qed.

Lemma copyEntries_Ok_iff files p :
  (exists out, copyEntries files p = Ok out)
  <-> forall f, f ∈ files -> layoutBody (Name f) = true -> slotInRange p (Name f).
Proof.
  induction files as [|f files IH]; simpl.
  - split; [by intros _ ? ?%elem_of_nil | eauto].
  - assert ((forall g, g ∈ f :: files -> layoutBody (Name g) = true -> slotInRange p (Name g))
            <-> (layoutBody (Name f) = true -> slotInRange p (Name f))
                /\ (forall g, g ∈ files -> layoutBody (Name g) = true -> slotInRange p (Name g)))
      as ->.
    { split.
      - intros H. split; [apply H; left | intros g Hg; apply H; by right].
      - intros [H1 H2] g [->|Hg]%elem_of_cons; auto. }
    rewrite <- IH. clear IH. unfold layoutBody.
    destruct (Strings.HasPrefix (Name f) "ppt/slideLayouts/") eqn:Hl.
    + destruct (layout_entry_not_rewritten _ Hl) as [-> ->]. simpl.
      destruct (Strings.HasPrefix (Name f) "ppt/slideLayouts/_rels/"); simpl.
      * split; [intros H; split; [done | exact H] | by intros [_ H]].
      * unfold slotInRange. rewrite <- layoutSlot_Ok_iff.
        destruct (layoutSlot p _) as [r|e]; simpl.
        -- destruct (copyEntries files p); simpl.
           ++ split; [intros _; split; eauto | eauto].
           ++ split; [by intros [? ?] | by intros [_ [? ?]]].
        -- split; [by intros [? ?] | intros [H _]; by destruct H].
    + simpl. destruct (rewritten (Name f)); [|destruct (_ && _)]; simpl.
      * split; [intros H; split; [done | exact H] | by intros [_ H]].
      * split; [intros H; split; [done | exact H] | by intros [_ H]].
      * destruct (copyEntries files p); simpl.
        -- split; [intros _; split; [done | eauto] | eauto].
        -- split; [by intros [? ?] | by intros [_ [? ?]]].
Qed.

Lemma copyEntries_Abort files p e :
  copyEntries files p = Abort e -> e = IndexOutOfRange.
Proof.
  induction files as [|f files IH]; simpl; [done|].
  destruct (rewritten _); [done|]. destruct (_ && _); [done|].
  destruct (Strings.HasPrefix _ _); simpl.
  - unfold layoutSlot. case_bool_decide; simpl; [|by intros [= <-]].
    destruct (_ !! _); simpl; [|by intros [= <-]].
    destruct (copyEntries files p); simpl; [done|]. intros [= <-]. by apply IH.
  - destruct (copyEntries files p); simpl; [done|]. intros [= <-]. by apply IH.
Qed.

(** C10: the write phase returns exactly when every entry of the source
    archive under [ppt/slideLayouts/] and outside [ppt/slideLayouts/_rels/]
    has an extracted number [n] with [1 <= n <= len(p.slideLayoutRels)]
    (and the presentation tree is there to be written); an entry that
    breaks this makes the unchecked read [p.slideLayoutRels[n-1]] go out of
    range, which aborts the run. *)
Theorem SaveFile_total_iff
    (marshalRelationships : Relationships -> string) (marshalTypes : Types -> string)
    (writeDocument : Document -> string)
    (order : list (string * Media)) (p : PowerpointDoc) :
  (isOk (SaveFileWith marshalRelationships marshalTypes writeDocument order p) = true
   <-> (forall f, f ∈ sourceFileReader p ->
          Strings.HasPrefix (Name f) "ppt/slideLayouts/" = true ->
          Strings.HasPrefix (Name f) "ppt/slideLayouts/_rels/" = false ->
          (1 <= ObjectNumber.objectNumber (Name f)
           <= Z.of_nat (length (slideLayoutRels p)))%Z)
       /\ presentation p <> None)
  /\ ((exists f, f ∈ sourceFileReader p
         /\ Strings.HasPrefix (Name f) "ppt/slideLayouts/" = true
         /\ Strings.HasPrefix (Name f) "ppt/slideLayouts/_rels/" = false
         /\ ~ (1 <= ObjectNumber.objectNumber (Name f)
               <= Z.of_nat (length (slideLayoutRels p)))%Z) ->
      SaveFileWith marshalRelationships marshalTypes writeDocument order p
      = Abort IndexOutOfRange).
Proof.
  assert ((forall f, f ∈ sourceFileReader p ->
             Strings.HasPrefix (Name f) "ppt/slideLayouts/" = true ->
             Strings.HasPrefix (Name f) "ppt/slideLayouts/_rels/" = false ->
             slotInRange p (Name f))
          <-> exists out, copyEntries (sourceFileReader p) p = Ok out) as Hcopy.
  { rewrite copyEntries_Ok_iff. unfold layoutBody.
    split; intros H f Hf.
    - intros [H1 H2%negb_true_iff]%andb_true_iff. eauto.
    - intros H1 H2. apply H; [done|]. by rewrite H1, H2. }
  unfold slotInRange in Hcopy. split.
  - rewrite Hcopy, isOk_true. unfold SaveFileWith.
    destruct (copyEntries _ _) as [out|e]; simpl.
    + destruct (presentation p); split; eauto.
      * intros [? ?]; done.
      * by intros [_ ?].
    + split; [by intros [? ?] | by intros [[? ?] _]].
  - intros (f & Hf & H1 & H2 & Hn). unfold SaveFileWith.
    destruct (copyEntries _ _) as [out|e] eqn:Hc; simpl.
    + exfalso. apply Hn. apply Hcopy; eauto.
    + by apply copyEntries_Abort in Hc as ->.
Qed.

(** *** The order of the output *)

Lemma newMedias_Permutation order1 order2 :
  order1 ≡ₚ order2 -> newMedias order1 ≡ₚ newMedias order2.
Proof.
  induction 1 as [|[k m] l1 l2 _ IH|[k1 m1] [k2 m2] l|l1 l2 l3 _ IH1 _ IH2]; simpl.
  - done.
  - destruct (data m); [by constructor | done].
  - destruct (data m1), (data m2); try done. apply perm_swap.
  - by etrans.
Qed.

(** The slots written by [saveAllRelationships], lowest first. *)
Fixpoint nonEmptySlots (rels : list Relationships) (i : nat) : list nat :=
  match rels with
  | [] => []
  | r :: rest =>
      match Relationship_ r with
      | [] => nonEmptySlots rest (S i)
      | _ => i :: nonEmptySlots rest (S i)
      end
  end.

(** The slots written by the loop over [p.slideMasters], lowest first. *)
Fixpoint presentSlots (sms : list (option Document)) (i : nat) : list nat :=
  match sms with
  | [] => []
  | None :: rest => presentSlots rest (S i)
  | Some _ :: rest => i :: presentSlots rest (S i)
  end.

Lemma nonEmptySlots_sorted rels i :
  Forall (le i) (nonEmptySlots rels i) /\ StronglySorted lt (nonEmptySlots rels i).
Proof.
  revert i. induction rels as [|r rels IH]; intros i; simpl.
  - split; constructor.
  - destruct (IH (S i)) as [Hle Hs].
    assert (Forall (le i) (nonEmptySlots rels (S i))) as Hle'.
    { eapply Forall_impl; [exact Hle|]. simpl. lia. }
    destruct (Relationship_ r); [done|]. split.
    + by constructor.
    + constructor; [done|]. eapply Forall_impl; [exact Hle|]. simpl. lia.
Qed.

Lemma presentSlots_sorted sms i :
  Forall (le i) (presentSlots sms i) /\ StronglySorted lt (presentSlots sms i).
Proof.
  revert i. induction sms as [|sm sms IH]; intros i; simpl.
  - split; constructor.
  - destruct (IH (S i)) as [Hle Hs].
    assert (Forall (le i) (presentSlots sms (S i))) as Hle'.
    { eapply Forall_impl; [exact Hle|]. simpl. lia. }
    destruct sm; [|done]. split.
    + by constructor.
    + constructor; [done|]. eapply Forall_impl; [exact Hle|]. simpl. lia.
Qed.

Lemma saveAllRelationships_names marshalRelationships rels reltype i :
  EntryName <$> saveAllRelationships marshalRelationships rels reltype i
  = relsPath reltype <$> nonEmptySlots rels i.
Proof.
  revert i. induction rels as [|r rels IH]; intros i; simpl; [done|].
  destruct (Relationship_ r); simpl; by rewrite IH.
Qed.

Lemma saveMasters_names writeDocument sms i :
  EntryName <$> saveMasters writeDocument sms i
  = (fun k => "ppt/slideMasters/slideMaster" ++ Strings.itoa (k + 1) ++ ".xml")
      <$> presentSlots sms i.
Proof.
  revert i. induction sms as [|sm sms IH]; intros i; simpl; [done|].
  destruct sm; simpl; by rewrite IH.
Qed.

(** C7 (as the code has it): two runs of [SaveFile] on the same graph and
    source archive write the same copied entries first and the same
    rewritten entries last, with the numbered slots of every collection in
    ascending order; in between, the new media files are written in the
    iteration order of the map, so the two runs agree on them up to a
    permutation only (and entirely when at most one media file is new). *)
Theorem SaveFile_deterministic_up_to_media_order
    (marshalRelationships : Relationships -> string) (marshalTypes : Types -> string)
    (writeDocument : Document -> string)
    (p : PowerpointDoc) (out1 out2 : list Entry) :
  SaveFile marshalRelationships marshalTypes writeDocument p out1 ->
  SaveFile marshalRelationships marshalTypes writeDocument p out2 ->
  exists copied new1 new2 pres,
    presentation p = Some pres
    /\ out1 = (copied ++ new1
               ++ rewrittenEntries marshalRelationships marshalTypes writeDocument p pres)%list
    /\ out2 = (copied ++ new2
               ++ rewrittenEntries marshalRelationships marshalTypes writeDocument p pres)%list
    /\ new1 ≡ₚ new2
    /\ (length new1 <= 1 -> out1 = out2)
    /\ (forall rels reltype,
          EntryName <$> saveAllRelationships marshalRelationships rels reltype 0
          = relsPath reltype <$> nonEmptySlots rels 0
          /\ StronglySorted lt (nonEmptySlots rels 0))
    /\ EntryName <$> saveMasters writeDocument (slideMasters p) 0
       = (fun k => "ppt/slideMasters/slideMaster" ++ Strings.itoa (k + 1) ++ ".xml")
           <$> presentSlots (slideMasters p) 0
    /\ StronglySorted lt (presentSlots (slideMasters p) 0).
Proof.
  intros (o1 & Ho1 & H1) (o2 & Ho2 & H2). unfold SaveFileWith in *.
  destruct (copyEntries _ _) as [copied|]; simpl in *; [|done].
  destruct (presentation p) as [pres|]; [|done].
  injection H1 as <-. injection H2 as <-.
  assert (newMedias o1 ≡ₚ newMedias o2) as Hperm.
  { apply newMedias_Permutation. by rewrite Ho1, Ho2. }
  exists copied, (newMedias o1), (newMedias o2), pres.
  repeat split; try done.
  - intros Hlen. do 2 f_equal.
    destruct (newMedias o1) as [|e1 [|e2 l]]; simpl in Hlen; [| |lia].
    + by apply Permutation_nil_l in Hperm as ->.
    + by apply Permutation_singleton_l in Hperm as ->.
  - apply saveAllRelationships_names.
  - apply nonEmptySlots_sorted.
  - apply saveMasters_names.
  - apply presentSlots_sorted.
Qed.

(** A graph with two media files produced in this run (what
    [ConvertPictures] leaves for an archive with two TIFF pictures). *)
Definition twoNewMedias : PowerpointDoc :=
  {| sourceFileReader := Demo.files;
     medias := <["ppt/media/a.png" := {| size := 1; data := Some "a" |}]>
                 (<["ppt/media/b.png" := {| size := 1; data := Some "b" |}]> ∅);
     slideRels := slideRels Demo.doc;
     slideLayoutRels := slideLayoutRels Demo.doc;
     slideMasterRels := slideMasterRels Demo.doc;
     presentationRels := presentationRels Demo.doc;
     slideMasters := slideMasters Demo.doc;
     presentation := presentation Demo.doc;
     contentTypes := contentTypes Demo.doc |}.

(** Serializers that write nothing, for the examples. *)
Definition noBytes {A} (_ : A) : string := "".

(** C7, counterexample: the same graph has two runs whose outputs differ:
    the two new media files come in either order. *)
Lemma SaveFile_order_counterexample :
  exists out1 out2,
    SaveFile noBytes noBytes noBytes twoNewMedias out1
    /\ SaveFile noBytes noBytes noBytes twoNewMedias out2
    /\ out1 <> out2.
Proof.
  assert (map_to_list (medias twoNewMedias)
          ≡ₚ [("ppt/media/a.png", {| size := 1; data := Some "a" |});
              ("ppt/media/b.png", {| size := 1; data := Some "b" |})]) as Hperm.
  { unfold twoNewMedias. simpl.
    rewrite map_to_list_insert by (by vm_compute).
    by rewrite map_to_list_insert, map_to_list_empty by (by vm_compute). }
  eexists. eexists. split; [|split].
  - eexists. split; [exact (symmetry Hperm)|]. vm_compute. reflexivity.
  - eexists. split; [rewrite Hperm; apply perm_swap|]. vm_compute. reflexivity.
  - discriminate.
Qed.

Definition demoOutput : list Entry :=
  Eval vm_compute in
    match SaveFileWith noBytes noBytes noBytes
            [("ppt/media/image1.tiff", {| size := 4; data := None |})] Demo.doc with
    | Ok out => out
    | Abort _ => []
    end.

Lemma SaveFile_deterministic_witness :
  SaveFile noBytes noBytes noBytes Demo.doc demoOutput
  /\ exists copied new1 new2 pres,
       presentation Demo.doc = Some pres
       /\ demoOutput = (copied ++ new1
                        ++ rewrittenEntries noBytes noBytes noBytes Demo.doc pres)%list
       /\ new1 ≡ₚ new2.
Proof.
  assert (SaveFile noBytes noBytes noBytes Demo.doc demoOutput) as H.
  { exists [("ppt/media/image1.tiff", {| size := 4; data := None |})].
    split; [|vm_compute; reflexivity].
    unfold Demo.doc. simpl. by rewrite map_to_list_singleton. }
  split; [exact H|].
  destruct (SaveFile_deterministic_up_to_media_order _ _ _ _ _ _ H H)
    as (copied & new1 & new2 & pres & H1 & H2 & _ & H3 & _).
  exists copied, new1, new2, pres. done.
Defined.

(** ** Reader *)

Lemma objectNumber_error fname :
  snd (ObjectNumber.getObjectNumberFromFilename fname) <> None ->
  ObjectNumber.objectNumber fname = 0%Z.
Proof.
  unfold ObjectNumber.objectNumber, ObjectNumber.getObjectNumberFromFilename.
  destruct (ObjectNumber.FindStringSubmatch fname); [|done].
  by destruct (ObjectNumber.Atoi _).
Qed.

(** The [_rels] areas of the numbered parts. *)
Definition inRelsArea (name : string) : bool :=
  Strings.HasPrefix name "ppt/slides/_rels/"
  || Strings.HasPrefix name "ppt/slideLayouts/_rels/"
  || Strings.HasPrefix name "ppt/slideMasters/_rels/".

Lemma updateSlot_zero {A} (zero : A) l x : updateSlot zero l 0 x = Abort IndexOutOfRange.
Proof. unfold updateSlot. by rewrite (bool_decide_eq_false_2 (1 <= 0)%Z) by lia. Qed.

Lemma parseAllRelationships_naming_error unmarshalRelationships rels reltype f :
  Strings.HasPrefix (Name f) ("ppt/" ++ reltype ++ "s/_rels/") = true ->
  ObjectNumber.objectNumber (Name f) = 0%Z ->
  isOk (parseAllRelationships unmarshalRelationships rels reltype f) = false.
Proof.
  intros Hpre Hn. unfold parseAllRelationships, parseRelationships.
  rewrite Hpre, Hn. destruct (unmarshalRelationships _); [|done].
  cbn [mbind result_bind]. unfold updateRelationships. by rewrite updateSlot_zero.
Qed.

Lemma relsArea_branches name :
  inRelsArea name = true ->
  Strings.HasPrefix name "ppt/media/" = false
  /\ name <> "[Content_Types].xml"
  /\ Strings.HasPrefix name "ppt/slideMasters/slideMaster" = false
  /\ name <> "ppt/_rels/presentation.xml.rels"
  /\ name <> "ppt/presentation.xml"
  /\ (Strings.HasPrefix name "ppt/slides/_rels/" = false ->
      Strings.HasPrefix name "ppt/slideLayouts/_rels/" = false ->
      Strings.HasPrefix name "ppt/slideMasters/_rels/" = true).
Proof.
  unfold inRelsArea.
  intros [[H|H]%orb_true_iff|H]%orb_true_iff;
    pose proof H as [r ->]%prefix_inv;
    (split; [reflexivity|]); (split; [simpl; discriminate|]);
    (split; [reflexivity|]); (split; [simpl; discriminate|]);
    (split; [simpl; discriminate|]); intros H1 H2; congruence.
Qed.

Lemma parseEntry_naming_error unmarshalRelationships unmarshalTypes readDocument f p :
  inRelsArea (Name f) = true ->
  snd (ObjectNumber.getObjectNumberFromFilename (Name f)) <> None ->
  isOk (parseEntry unmarshalRelationships unmarshalTypes readDocument f p) = false.
Proof.
  intros Harea Hn%objectNumber_error.
  destruct (relsArea_branches _ Harea) as (E1 & E2 & E3 & E4 & E5 & E6).
  pose proof (parseAllRelationships_naming_error unmarshalRelationships) as Hpar.
  unfold parseEntry. rewrite E1, E3, !bool_decide_eq_false_2 by done.
  destruct (Strings.HasPrefix (Name f) "ppt/slides/_rels/") eqn:Hs.
  { specialize (Hpar (slideRels p) "slide" f Hs Hn).
    by destruct (parseAllRelationships _ (slideRels p) _ _). }
  destruct (parseAllRelationships _ (slideRels p) _ _); [|done].
  cbn [mbind result_bind].
  destruct (Strings.HasPrefix (Name f) "ppt/slideLayouts/_rels/") eqn:Hl.
  { specialize (Hpar (slideLayoutRels p) "slideLayout" f Hl Hn).
    by destruct (parseAllRelationships _ (slideLayoutRels p) _ _). }
  destruct (parseAllRelationships _ (slideLayoutRels p) _ _); [|done].
  cbn [mbind result_bind].
  specialize (Hpar (slideMasterRels p) "slideMaster" f (E6 eq_refl eq_refl) Hn).
  by destruct (parseAllRelationships _ (slideMasterRels p) _ _).
Qed.

(** C4, what the code does: an entry of a [_rels] area whose name does not
    match the numbering pattern is not skipped.  The error of
    [getObjectNumberFromFilename] is dropped, the number is [0], and
    [updateRelationships] indexes slot [-1]: wherever such an entry stands
    in the archive, [ParseFile] does not return (it panics at that entry,
    unless the run was already aborted before it). *)
Theorem ParseFile_naming_error_aborts
    (unmarshalRelationships : string -> option Relationships)
    (unmarshalTypes : string -> Types -> option Types)
    (readDocument : string -> option Document)
    (files : list File) (f : File) :
  f ∈ files ->
  inRelsArea (Name f) = true ->
  snd (ObjectNumber.getObjectNumberFromFilename (Name f)) <> None ->
  isOk (ParseFile unmarshalRelationships unmarshalTypes readDocument files) = false.
Proof.
  intros Hf Harea Hn. unfold ParseFile. generalize (NewPowerpointDoc files).
  induction files as [|g files IH]; intros p; [by apply elem_of_nil in Hf|].
  simpl. apply elem_of_cons in Hf as [<-|Hf].
  - pose proof (parseEntry_naming_error unmarshalRelationships unmarshalTypes
                  readDocument f p Harea Hn) as H.
    by destruct (parseEntry _ _ _ f p).
  - destruct (parseEntry _ _ _ g p); simpl; [by apply IH | done].
Qed.

Lemma ParseFile_naming_error_witness :
  isOk (ParseFile (fun _ => Some Demo.slide1) (fun _ t => Some t)
          (fun _ => Some Demo.pres)
          [Demo.file "ppt/slides/_rels/slide1.xml.rels";
           Demo.file "ppt/slides/_rels/notes.rels";
           Demo.file "ppt/media/image1.png"]) = false.
Proof.
  apply (ParseFile_naming_error_aborts _ _ _ _ (Demo.file "ppt/slides/_rels/notes.rels")).
  - right. left.
  - reflexivity.
  - simpl. discriminate.
Defined.

Example ParseFile_well_named :
  isOk (ParseFile (fun _ => Some Demo.slide1) (fun _ t => Some t)
          (fun _ => Some Demo.pres)
          [Demo.file "ppt/slides/_rels/slide1.xml.rels";
           Demo.file "ppt/media/image1.png"]) = true.
Proof. reflexivity. Qed.

(** ** Transcoding *)

(** *** Suffixes and first occurrences *)

#[local] Arguments String.append !_ _ / : simpl nomatch.

Lemma append_assoc (a b c : string) : (a ++ b) ++ c = a ++ b ++ c.
Proof. induction a as [|x a IH]; simpl; [done | by f_equal]. Qed.

Lemma append_empty_r (a : string) : a ++ "" = a.
Proof. induction a as [|x a IH]; simpl; [done | by f_equal]. Qed.

Lemma length_append (a b : string) :
  String.length (a ++ b) = String.length a + String.length b.
Proof. induction a as [|x a IH]; simpl; [done | by f_equal]. Qed.

Lemma drop_append (a b : string) : Strings.drop (String.length a) (a ++ b) = b.
Proof. induction a as [|x a IH]; simpl; [by destruct b | done]. Qed.

Lemma drop_split (n : nat) (s : string) :
  n <= String.length s ->
  exists a, s = a ++ Strings.drop n s /\ String.length a = n.
Proof.
  revert s. induction n as [|n IH]; intros s Hn.
  - exists "". by destruct s.
  - destruct s as [|c s]; simpl in *; [lia|].
    destruct (IH s) as (a & Ha & Hlen); [lia|].
    exists (String c a). simpl. split; [by rewrite <- Ha | by rewrite Hlen].
Qed.

Lemma prefix_append (a r : string) : String.prefix a (a ++ r) = true.
Proof.
  induction a as [|c a IH]; simpl; [by destruct r|].
  by destruct (Ascii.ascii_dec c c).
Qed.

(** [s] ends with [suf]. *)
Definition endsWith (s suf : string) : Prop := exists pre, s = pre ++ suf.

Lemma HasSuffix_endsWith s suf : Strings.HasSuffix s suf = true <-> endsWith s suf.
Proof.
  unfold Strings.HasSuffix, endsWith. rewrite andb_true_iff, Nat.leb_le, bool_decide_eq_true.
  split.
  - intros [Hlen Hdrop].
    destruct (drop_split (String.length s - String.length suf) s) as (a & Ha & _); [lia|].
    exists a. by rewrite Hdrop in Ha.
  - intros [pre ->]. rewrite length_append. split; [lia|].
    replace (_ + _ - _) with (String.length pre) by lia. apply drop_append.
Qed.

(** [s'] is [s] with its leftmost occurrence of [old] replaced by [new]:
    what is before and after that occurrence is kept. *)
Definition firstReplaced (s old new s' : string) : Prop :=
  exists pre post,
    s = pre ++ old ++ post /\ s' = pre ++ new ++ post
    /\ forall pre2 post2, s = pre2 ++ old ++ post2 -> String.length pre <= String.length pre2.

Lemma Replace1_unfold s old new :
  Strings.Replace1 s old new
  = if String.prefix old s then new ++ Strings.drop (String.length old) s
    else match s with
         | EmptyString => EmptyString
         | String c r => String c (Strings.Replace1 r old new)
         end.
Proof. by destruct s. Qed.

Lemma Replace1_first s old new :
  (exists pre post, s = pre ++ old ++ post) ->
  firstReplaced s old new (Strings.Replace1 s old new).
Proof.
  induction s as [|c s IH]; intros (pre & post & Hs).
  - destruct pre; [|done]. destruct old; [|done]. simpl in Hs. subst post.
    exists "", "". split; [done|]. split; [done|]. intros; simpl; lia.
  - rewrite Replace1_unfold.
    destruct (String.prefix old (String c s)) eqn:Hpre.
    + apply prefix_inv in Hpre as [r Hr]. rewrite Hr, drop_append.
      exists "", r. split; [done|]. split; [done|]. intros; simpl; lia.
    + destruct pre as [|d pre].
      { simpl in Hs. rewrite Hs, prefix_append in Hpre. done. }
      simpl in Hs. injection Hs as <- Hs.
      destruct IH as (pre1 & post1 & H1 & H2 & Hmin); [eauto|].
      exists (String c pre1), post1. simpl. rewrite <- H1, <- H2.
      split; [done|]. split; [done|].
      intros [|e pre2] post2 Hs2.
      { simpl in Hs2. rewrite Hs2, prefix_append in Hpre. done. }
      simpl in Hs2. injection Hs2 as <- Hs2. apply Hmin in Hs2. simpl. lia.
Qed.

Definition oldBase (f : File) : string := Strings.Base (Name f).
Definition newBase (f : File) : string :=
  Strings.Replace1 (Strings.Base (Name f)) ".tiff" ".png".

(** How [rel'] comes from [rel] when [old] is renamed to [new]. *)
Definition retargeted (old new : string) (rel rel' : Relationship) : Prop :=
  Id rel' = Id rel /\ Type_ rel' = Type_ rel /\ TargetMode rel' = TargetMode rel
  /\ (~ endsWith (Target rel) old -> Target rel' = Target rel)
  /\ (endsWith (Target rel) old -> firstReplaced (Target rel) old new (Target rel')).

Lemma replaceTarget_retargeted old new rel :
  retargeted old new rel (replaceTarget old new rel).
Proof.
  unfold retargeted, replaceTarget.
  destruct (Strings.HasSuffix (Target rel) old) eqn:Hsuf; simpl.
  - apply HasSuffix_endsWith in Hsuf. repeat split; try done.
    intros [pre Hpre]. apply Replace1_first. exists pre, "".
    by rewrite append_empty_r.
  - repeat split; try done. intros Hends%HasSuffix_endsWith. congruence.
Qed.

Lemma ReplaceTarget_lookup old new (sets : list Relationships) (i : nat) rs (k : nat) rel :
  sets !! i = Some rs -> Relationship_ rs !! k = Some rel ->
  exists rs', (ReplaceTarget old new <$> sets) !! i = Some rs'
              /\ XMLName rs' = XMLName rs
              /\ length (Relationship_ rs') = length (Relationship_ rs)
              /\ Relationship_ rs' !! k = Some (replaceTarget old new rel).
Proof.
  intros Hrs Hrel. exists (ReplaceTarget old new rs).
  rewrite list_lookup_fmap, Hrs. simpl. rewrite length_fmap, list_lookup_fmap, Hrel. done.
Qed.

(** The three collections [ConvertPictures] rewrites. *)
Inductive owner : Type := Slide | SlideLayout | SlideMaster.

Definition relsOf (o : owner) (p : PowerpointDoc) : list Relationships :=
  match o with
  | Slide => slideRels p
  | SlideLayout => slideLayoutRels p
  | SlideMaster => slideMasterRels p
  end.

(** C6, what the code does: when [ConvertPictures] transcodes the entry
    [f], every relationship of every slide, slideLayout and slideMaster
    relationship set stays at its place with its id, type and target mode.
    Its target is rewritten if and only if it ends with the old base name:
    [ReplaceTarget] is handed base names but tests [strings.HasSuffix] on
    the whole target, so a target whose own base name is another one that
    merely ends with the same letters is rewritten too.  The rewrite
    replaces the leftmost occurrence of the old base name in the target,
    which need not be its base name.  A target that does not end with the
    old base name is left as it is, and entries that are not eligible
    change nothing. *)
Theorem convertPicture_frame
    (tiffToPng : string -> option string) (f : File) (p p' : PowerpointDoc) :
  convertPicture tiffToPng f p = Ok p' ->
  (eligible (Name f) = false -> p' = p)
  /\ (eligible (Name f) = true ->
      forall o i rs k rel,
        relsOf o p !! i = Some rs -> Relationship_ rs !! k = Some rel ->
        exists rs' rel',
          relsOf o p' !! i = Some rs'
          /\ length (Relationship_ rs') = length (Relationship_ rs)
          /\ Relationship_ rs' !! k = Some rel'
          /\ retargeted (oldBase f) (newBase f) rel rel').
Proof.
  unfold convertPicture. intros H. split; intros Hel; rewrite Hel in H.
  - by injection H as <-.
  - destruct (tiffToPng _) as [png|]; [|done]. injection H as <-.
    intros o i rs k rel Hrs Hrel.
    destruct o; simpl in *;
      destruct (ReplaceTarget_lookup (Strings.Base (Name f))
                  (Strings.Replace1 (Strings.Base (Name f)) ".tiff" ".png")
                  _ _ _ _ _ Hrs Hrel) as (rs' & H1 & _ & H2 & H3);
      exists rs', (replaceTarget (oldBase f) (newBase f) rel);
      repeat split; try done; apply replaceTarget_retargeted.
Qed.

(** A slide that shows the picture [image1.tiff] and links to a page whose
    address ends with the same letters. *)
Definition link : Relationship :=
  {| Id := "rId3";
     Type_ := "http://schemas.openxmlformats.org/officeDocument/2006/relationships/hyperlink";
     Target := "http://example.org/myimage1.tiff";
     TargetMode := "External" |}.

Definition linkedSlide : Relationships :=
  Demo.rels
    [Demo.rel "rId1" slideLayoutType "../slideLayouts/slideLayout1.xml";
     Demo.rel "rId2" imageType "../media/image1.tiff";
     link].

Definition linkedDoc : PowerpointDoc :=
  {| sourceFileReader := Demo.files;
     medias := medias Demo.doc;
     slideRels := [linkedSlide];
     slideLayoutRels := slideLayoutRels Demo.doc;
     slideMasterRels := slideMasterRels Demo.doc;
     presentationRels := presentationRels Demo.doc;
     slideMasters := slideMasters Demo.doc;
     presentation := presentation Demo.doc;
     contentTypes := contentTypes Demo.doc |}.

(** The theorem at the link of [linkedSlide], when [image1.tiff] is
    transcoded: the link ends with the old base name, so its target is
    the one with the leftmost [image1.tiff] replaced. *)
Lemma convertPicture_frame_witness :
  endsWith (Target link) "image1.tiff"
  /\ exists p',
       convertPicture Some (Demo.file "ppt/media/image1.tiff") linkedDoc = Ok p'
       /\ exists rs' rel',
            relsOf Slide p' !! 0 = Some rs'
            /\ length (Relationship_ rs') = length (Relationship_ linkedSlide)
            /\ Relationship_ rs' !! 2 = Some rel'
            /\ retargeted "image1.tiff" "image1.png" link rel'.
Proof.
  split; [by exists "http://example.org/my"|].
  eexists. split; [reflexivity|].
  exact (proj2 (convertPicture_frame Some (Demo.file "ppt/media/image1.tiff")
                  linkedDoc _ eq_refl)
           eq_refl Slide 0 linkedSlide 2 _ eq_refl eq_refl).
Defined.

(** C6, the failing input: the base name of the link's target is
    [myimage1.tiff], not the old media base name [image1.tiff], and
    [ConvertPictures] rewrites it all the same. *)
Lemma ConvertPictures_suffix_counterexample :
  Strings.Base "http://example.org/myimage1.tiff" <> Strings.Base "ppt/media/image1.tiff"
  /\ exists p',
       ConvertPictures Some linkedDoc = Ok p'
       /\ Relationship_ <$> slideRels p'
          = [[Demo.rel "rId1" slideLayoutType "../slideLayouts/slideLayout1.xml";
              Demo.rel "rId2" imageType "../media/image1.png";
              {| Id := "rId3";
                 Type_ := "http://schemas.openxmlformats.org/officeDocument/2006/relationships/hyperlink";
                 Target := "http://example.org/myimage1.png";
                 TargetMode := "External" |}]].
Proof.
  split; [vm_compute; discriminate|].
  eexists. split; reflexivity.
Qed.

(** A package whose picture has an upper-case extension. *)
Definition upperDoc : PowerpointDoc :=
  {| sourceFileReader := [Demo.file "ppt/slides/_rels/slide1.xml.rels";
                          Demo.file "ppt/media/image1.TIFF"];
     medias := {[ "ppt/media/image1.TIFF" := {| size := 4; data := None |} ]};
     slideRels := [Demo.rels [Demo.rel "rId2" imageType "../media/image1.TIFF"]];
     slideLayoutRels := [];
     slideMasterRels := [];
     presentationRels := emptyRelationships;
     slideMasters := [];
     presentation := Some Demo.pres;
     contentTypes := Demo.types [] |}.

(** C3, what the code does with [ppt/media/image1.TIFF]: the entry is
    eligible (its extension is compared in lower case), but the new name
    is computed by a case-sensitive replacement of [.tiff] and so equals
    the old one; the transcoded entry is stored under the old key and
    deleted at once.  No [.png] key exists afterwards, the picture is gone
    from the media index, and the slide still refers to [image1.TIFF].
    (A codec failure is the other outcome: a fatal error.) *)
Theorem ConvertPictures_upper_case_extension (tiffToPng : string -> option string) :
  eligible "ppt/media/image1.TIFF" = true
  /\ match ConvertPictures tiffToPng upperDoc with
     | Ok p' =>
         medias p' !! "ppt/media/image1.TIFF" = None
         /\ medias p' !! "ppt/media/image1.png" = None
         /\ medias p' = ∅
         /\ slideRels p' = slideRels upperDoc
     | Abort e => e = FatalLog
     end.
Proof.
  split; [reflexivity|].
  unfold ConvertPictures, upperDoc, convertPictures, sourceFileReader.
  change (convertPicture tiffToPng (Demo.file "ppt/slides/_rels/slide1.xml.rels") ?p)
    with (Ok p).
  cbn [mbind result_bind]. unfold convertPicture.
  change (eligible (Name (Demo.file "ppt/media/image1.TIFF"))) with true. cbv iota.
  destruct (tiffToPng _) as [png|]; [|done].
  cbn [mbind result_bind medias slideRels].
  change (Strings.Replace1 (Name (Demo.file "ppt/media/image1.TIFF")) ".tiff" ".png")
    with "ppt/media/image1.TIFF".
  change (Name (Demo.file "ppt/media/image1.TIFF")) with "ppt/media/image1.TIFF".
  assert (delete "ppt/media/image1.TIFF"
            (<["ppt/media/image1.TIFF" :=
                 {| size := Z.of_nat (String.length png); data := Some png |}]>
               ({[ "ppt/media/image1.TIFF" := {| size := 4; data := None |} ]}
                : gmap string Media)) = ∅) as ->.
  { by rewrite delete_insert_eq, delete_singleton_eq. }
  repeat split; reflexivity.
Qed.

(** ** Removing reference elements from a tree *)

Lemma prune_Element m s tg attrs ch :
  Etree.prune m (Element s tg attrs ch) = Element s tg attrs (Etree.pruneList m ch).
Proof. simpl. f_equal. induction ch as [|c ch IH]; simpl; [done | by rewrite IH]. Qed.

(** Where the query finds nothing, the removal leaves the tree as it is. *)
Fixpoint prune_nothing_found (m : Token -> bool) (t : Token) {struct t} :
  (forall d, m (Other d) = false) -> Etree.found m t = [] -> Etree.prune m t = t.
Proof.
  intros Hother. destruct t as [s tg attrs ch|d]; [|done].
  rewrite prune_Element. simpl Etree.found.
  intros [_ Hch]%app_eq_nil. f_equal.
  induction ch as [|c ch IH]; [done|].
  simpl in Hch. apply app_eq_nil in Hch as [Hc Hch]. simpl.
  assert (m c = false) as ->.
  { destruct c as [s' tg' attrs' ch'|d]; [|apply Hother].
    simpl in Hc. destruct (m (Element s' tg' attrs' ch')); [done | done]. }
  f_equal; [by apply prune_nothing_found | by apply IH].
Qed.

Lemma removeFound_nothing_found m d :
  (forall x, m (Other x) = false) ->
  Etree.FindElements m d = [] -> Etree.removeFound m d = d.
Proof.
  intros Hother. destruct d as [root]. unfold Etree.FindElements, Etree.removeFound.
  simpl. intros H. f_equal.
  induction root as [|c root IH]; [done|].
  simpl in H. apply app_eq_nil in H as [Hc H]. simpl.
  assert (m c = false) as ->.
  { destruct c as [s' tg' attrs' ch'|x]; [|apply Hother].
    simpl in Hc. by destruct (m (Element s' tg' attrs' ch')). }
  f_equal; [by apply prune_nothing_found | by apply IH].
Qed.

(** ** Layout removal never stops on a missing reference element *)

(** Every master relationship set has its tree, and its ids can stand in
    a path. *)
Definition mastersPresent (p : PowerpointDoc) : Prop :=
  forall j, j < length (slideMasterRels p) ->
            exists d, slideMasters p !! j = Some (Some d).

Definition masterIdsQuotable (p : PowerpointDoc) : Prop :=
  forall rs, rs ∈ slideMasterRels p -> idsQuotable rs.

Lemma removeLayoutFromMaster_nothing_found master id :
  Etree.quotable id = true ->
  Etree.FindElements (Etree.selects "p" "sldLayoutId" "r" "id" id) master = [] ->
  removeLayoutFromMaster master id = Ok master.
Proof.
  intros Hq Hfound. unfold removeLayoutFromMaster. rewrite Hq. f_equal.
  by apply removeFound_nothing_found.
Qed.

Lemma removeFromMasters_present target j mrels sms mrels' sms' k :
  removeFromMasters target j mrels sms = Ok (mrels', sms') ->
  (exists d, sms !! k = Some (Some d)) -> exists d, sms' !! k = Some (Some d).
Proof.
  revert j sms mrels' sms'.
  induction mrels as [|relsm rest IH]; intros j sms mrels' sms'; simpl.
  - by intros [= <- <-].
  - destruct (List.find _ _) as [relm|].
    + destruct (sms !! j) as [[master|]|] eqn:Hj; try done.
      intros H Hk. apply bind_Ok in H as (master' & _ & H).
      apply bind_Ok in H as ([m1 s1] & H1 & [= <- <-]).
      eapply IH; [exact H1|].
      destruct (decide (k = j)) as [->|Hne].
      * rewrite list_lookup_insert_eq by (by eapply lookup_lt_Some). eauto.
      * by rewrite list_lookup_insert_ne.
    + intros H Hk. apply bind_Ok in H as ([m1 s1] & H1 & [= <- <-]). eauto.
Qed.

Lemma removeFromMasters_Abort target j mrels sms e :
  removeFromMasters target j mrels sms = Abort e -> e <> FatalLog.
Proof.
  revert j sms. induction mrels as [|relsm rest IH]; intros j sms; simpl; [done|].
  destruct (List.find _ _) as [relm|].
  - destruct (sms !! j) as [[master|]|]; [|by intros [= <-]..].
    unfold removeLayoutFromMaster. destruct (Etree.quotable _); simpl; [|by intros [= <-]].
    destruct (removeFromMasters _ _ rest _) as [[m1 s1]|e1] eqn:H1; simpl; [done|].
    intros [= <-]. eauto.
  - destruct (removeFromMasters _ _ rest _) as [[m1 s1]|e1] eqn:H1; simpl; [done|].
    intros [= <-]. eauto.
Qed.

Lemma removeLayout_Abort i p e : removeLayout i p = Abort e -> e <> FatalLog.
Proof.
  unfold removeLayout.
  destruct (removeFromMasters _ _ _ _) as [[m1 s1]|e1] eqn:H1; simpl.
  - unfold setSlot. case_bool_decide; simpl; [done | by intros [= <-]].
  - intros [= <-]. by eapply removeFromMasters_Abort.
Qed.

Lemma removeLayout_total i p :
  i < length (slideLayoutRels p) -> mastersPresent p -> masterIdsQuotable p ->
  exists p', removeLayout i p = Ok p'.
Proof.
  intros Hi Hp Hq. unfold removeLayout.
  destruct (removeFromMasters_total (layoutTarget i) 0 (slideMasterRels p) (slideMasters p))
    as [[m1 s1] ->]; [done | intros k Hk; apply Hp; lia|].
  simpl. unfold setSlot. rewrite bool_decide_eq_true_2 by done. simpl. eauto.
Qed.

Lemma removeLayout_present i p p' :
  removeLayout i p = Ok p' ->
  mastersPresent p /\ masterIdsQuotable p -> mastersPresent p' /\ masterIdsQuotable p'.
Proof.
  unfold removeLayout, mastersPresent, masterIdsQuotable. intros H [Hp Hq].
  apply bind_Ok in H as ([m1 s1] & H1 & H).
  apply bind_Ok in H as (l1 & Hl & [= <-]). simpl.
  pose proof (removeFromMasters_Ok _ _ _ _ _ _ H1) as [-> _]. split.
  - rewrite length_fmap. intros j Hj.
    eapply removeFromMasters_present; [exact H1 | by apply Hp].
  - intros rs (rs0 & -> & Hrs0)%list_elem_of_fmap r Hr%elem_of_removeFirst.
    by apply (Hq rs0).
Qed.

Lemma runSteps_removeLayout_total slots p :
  (forall i, i ∈ slots -> i < length (slideLayoutRels p)) ->
  mastersPresent p /\ masterIdsQuotable p ->
  exists p', runSteps removeLayout slots p = Ok p'.
Proof.
  revert p. induction slots as [|i slots IH]; intros p Hslots Hp; simpl; [eauto|].
  destruct (removeLayout_total i p) as [p1 H1];
    [apply Hslots; left | apply Hp | apply Hp |].
  rewrite H1. simpl. apply IH.
  - intros k Hk. apply removeLayout_Ok in H1 as (_ & _ & _ & _ & -> & _).
    rewrite length_insert. apply Hslots. by right.
  - by eapply removeLayout_present.
Qed.

Lemma runSteps_Abort step slots p e :
  (forall i q e', step i q = Abort e' -> e' <> FatalLog) ->
  runSteps step slots p = Abort e -> e <> FatalLog.
Proof.
  intros Hstep. revert p. induction slots as [|i slots IH]; intros p; simpl; [done|].
  destruct (step i p) as [p1|e1] eqn:H1; simpl; [by apply IH|].
  intros [= <-]. eauto.
Qed.

(** ** Layout reachability and what the layout pass removes *)

(** C1: the mark of layout slot [i] (1-based) is set if and only if some
    slide's relationship set has a slideLayout-type relationship whose
    target's number is [i]; [RemoveUnusedLayouts] tombstones the slots
    that no slide refers to and leaves the others as they are, and it
    does return when every master relationship set has its tree (and ids
    that can be quoted in a path); and the marks are a function of the
    slide relationship sets (and the number of layout slots) alone. *)
Theorem FindUsedLayouts_sound (p : PowerpointDoc) (used : list bool) :
  FindUsedLayouts p = Ok used ->
  length used = length (slideLayoutRels p)
  /\ (forall i, 1 <= i <= length (slideLayoutRels p) ->
        (used !! (i - 1) = Some true <-> refersToLayout p (Z.of_nat i)))
  /\ (forall p', RemoveUnusedLayouts p = Ok p' ->
        length (slideLayoutRels p') = length (slideLayoutRels p)
        /\ forall i, 1 <= i <= length (slideLayoutRels p) ->
             (~ refersToLayout p (Z.of_nat i) ->
                slideLayoutRels p' !! (i - 1) = Some emptyRelationships)
             /\ (refersToLayout p (Z.of_nat i) ->
                   slideLayoutRels p' !! (i - 1) = slideLayoutRels p !! (i - 1)))
  /\ ((forall j, j < length (slideMasterRels p) ->
                 exists d, slideMasters p !! j = Some (Some d)) ->
      (forall rs r, rs ∈ slideMasterRels p -> r ∈ Relationship_ rs ->
                    Etree.quotable (Id r) = true) ->
      exists p', RemoveUnusedLayouts p = Ok p')
  /\ (forall q, slideRels q = slideRels p ->
        length (slideLayoutRels q) = length (slideLayoutRels p) ->
        FindUsedLayouts q = Ok used).
Proof.
  intros Hused. pose proof (FindUsedLayouts_spec _ _ Hused) as [Hlen Hiff].
  assert (forall i, 1 <= i <= length (slideLayoutRels p) ->
            (used !! (i - 1) = Some true <-> refersToLayout p (Z.of_nat i))) as Hmark.
  { intros i Hi. rewrite Hiff. replace (Z.of_nat (i - 1) + 1)%Z with (Z.of_nat i) by lia.
    split; [by intros [_ ?] | intros ?; split; [lia | done]]. }
  split; [done|]. split; [done|]. split; [|split].
  - intros p' Hp'. unfold RemoveUnusedLayouts in Hp'. rewrite Hused in Hp'.
    simpl in Hp'. rewrite forUnused_steps in Hp'.
    apply runSteps_removeLayout_slots in Hp' as (_ & Hlen' & Hslots).
    split; [done|]. intros i Hi.
    rewrite Hslots by lia. rewrite <- (Hmark i Hi).
    destruct (used !! (i - 1)) as [b|] eqn:Hb.
    2:{ apply lookup_ge_None in Hb. lia. }
    split; intros Hr.
    + rewrite decide_True; [done|]. apply elem_of_unusedFrom. exists (i - 1).
      split; [done|]. destruct b; [by destruct Hr | done].
    + rewrite decide_False; [done|]. intros (j & Hj & Hf)%elem_of_unusedFrom.
      simpl in Hj. subst j. congruence.
  - intros Hp Hq. unfold RemoveUnusedLayouts. rewrite Hused. simpl.
    rewrite forUnused_steps. apply runSteps_removeLayout_total.
    + intros i (j & -> & Hj)%elem_of_unusedFrom. apply lookup_lt_Some in Hj.
      simpl. lia.
    + split; [exact Hp|]. intros rs Hrs r Hr. by apply (Hq rs).
  - intros q Hs Hl. unfold FindUsedLayouts in *. by rewrite Hs, Hl.
Qed.

(** The theorem on the package of [Demo]: slide 1 uses layout 1, no slide
    uses layout 2; the pass returns, keeps slot 1 and empties slot 2. *)
Lemma FindUsedLayouts_sound_witness :
  FindUsedLayouts Demo.doc = Ok [true; false]
  /\ ([true; false] !! (1 - 1) = Some true <-> refersToLayout Demo.doc 1)
  /\ ([true; false] !! (2 - 1) = Some true <-> refersToLayout Demo.doc 2)
  /\ exists p',
       RemoveUnusedLayouts Demo.doc = Ok p'
       /\ slideLayoutRels p' !! (1 - 1) = Some Demo.layout
       /\ slideLayoutRels p' !! (2 - 1) = Some emptyRelationships.
Proof.
  pose proof (FindUsedLayouts_sound Demo.doc [true; false] eq_refl)
    as (_ & Hmark & Hslots & Hreturns & _).
  assert (1 <= 1 <= length (slideLayoutRels Demo.doc)) as H1 by (simpl; lia).
  assert (1 <= 2 <= length (slideLayoutRels Demo.doc)) as H2 by (simpl; lia).
  split; [reflexivity|]. split; [exact (Hmark 1 H1)|]. split; [exact (Hmark 2 H2)|].
  destruct Hreturns as [p' Hp'].
  { intros [|j] Hj; [by eexists | simpl in Hj; lia]. }
  { intros rs r ->%list_elem_of_singleton Hr. simpl in Hr.
    apply elem_of_cons in Hr as [->|Hr]; [reflexivity|].
    apply list_elem_of_singleton in Hr as ->. reflexivity. }
  exists p'. split; [exact Hp'|].
  destruct (Hslots p' Hp') as [_ Hslot]. split.
  - rewrite (proj2 (Hslot 1 H1)); [reflexivity|]. by apply (Hmark 1 H1).
  - apply (proj1 (Hslot 2 H2)). intros Hr. by apply (Hmark 2 H2) in Hr.
Defined.

(** C5 (as the code has it): a missing reference element does not stop
    the run.  [removeLayoutFromMaster] loops over the elements found, so
    with none found it returns with the tree unchanged; [RemoveUnusedLayouts]
    never ends in [log.Fatal], and it returns whenever the layout marks can
    be computed and every master relationship set has its tree (and ids
    that can be quoted in a path), whatever the trees contain. *)
Theorem RemoveUnusedLayouts_missing_element_continues (p : PowerpointDoc) :
  (forall master id,
     Etree.quotable id = true ->
     Etree.FindElements (Etree.selects "p" "sldLayoutId" "r" "id" id) master = [] ->
     removeLayoutFromMaster master id = Ok master)
  /\ (forall e, RemoveUnusedLayouts p = Abort e -> e <> FatalLog)
  /\ (isOk (FindUsedLayouts p) = true ->
      (forall j, j < length (slideMasterRels p) ->
                 exists d, slideMasters p !! j = Some (Some d)) ->
      (forall rs r, rs ∈ slideMasterRels p -> r ∈ Relationship_ rs ->
                    Etree.quotable (Id r) = true) ->
      isOk (RemoveUnusedLayouts p) = true).
Proof.
  split; [|split].
  - apply removeLayoutFromMaster_nothing_found.
  - intros e. unfold RemoveUnusedLayouts.
    destruct (FindUsedLayouts p) as [used|e1] eqn:Hu; simpl.
    + rewrite forUnused_steps. apply runSteps_Abort. apply removeLayout_Abort.
    + intros [= <-]. unfold FindUsedLayouts in Hu. rewrite markAll_numbers in Hu.
      by apply markNumbers_Abort in Hu as ->.
  - intros [used Hu]%isOk_true Hp Hq. unfold RemoveUnusedLayouts. rewrite Hu. simpl.
    rewrite forUnused_steps. apply isOk_true, runSteps_removeLayout_total.
    + intros i (j & -> & Hj)%elem_of_unusedFrom. apply lookup_lt_Some in Hj.
      apply FindUsedLayouts_spec in Hu as [Hlen _]. simpl. lia.
    + split; [exact Hp|]. intros rs Hrs r Hr. by apply (Hq rs).
Qed.

(** A master whose relationship set refers to layout 2 while its tree
    lists layout 1 only. *)
Definition missingDoc : PowerpointDoc :=
  {| sourceFileReader := Demo.files;
     medias := medias Demo.doc;
     slideRels := slideRels Demo.doc;
     slideLayoutRels := slideLayoutRels Demo.doc;
     slideMasterRels := slideMasterRels Demo.doc;
     presentationRels := presentationRels Demo.doc;
     slideMasters := [Some (Demo.master ["rId1"])];
     presentation := presentation Demo.doc;
     contentTypes := contentTypes Demo.doc |}.

(** C5, counterexample: layout 2 is unused, master 1 has the relationship
    [rId2] that targets it, the tree of master 1 has no [p:sldLayoutId]
    with [r:id = rId2], and [RemoveUnusedLayouts] returns: the tree is as
    before, the relationship is deleted, the layout is tombstoned. *)
Lemma RemoveUnusedLayouts_missing_element_counterexample :
  FindUsedLayouts missingDoc = Ok [true; false]
  /\ slideMasterRels missingDoc
     = [Demo.rels [Demo.rel "rId1" slideLayoutType (layoutTarget 0);
                   Demo.rel "rId2" slideLayoutType (layoutTarget 1)]]
  /\ slideMasters missingDoc = [Some (Demo.master ["rId1"])]
  /\ Etree.FindElements (Etree.selects "p" "sldLayoutId" "r" "id" "rId2")
       (Demo.master ["rId1"]) = []
  /\ exists p',
       RemoveUnusedLayouts missingDoc = Ok p'
       /\ slideMasters p' = [Some (Demo.master ["rId1"])]
       /\ slideMasterRels p'
          = [Demo.rels [Demo.rel "rId1" slideLayoutType (layoutTarget 0)]]
       /\ slideLayoutRels p' = [Demo.layout; emptyRelationships].
Proof.
  repeat split; try reflexivity.
  eexists. repeat split; reflexivity.
Qed.

(** ** The manifest under the pruning passes *)

(** No override of the manifest pins the part [name]. *)
Definition noOverride (name : string) (p : PowerpointDoc) : Prop :=
  forall o, o ∈ Override (contentTypes p) -> PartName o <> name.

(** No part has two overrides. *)
Definition overridesUnique (p : PowerpointDoc) : Prop :=
  NoDup (PartName <$> Override (contentTypes p)).

Lemma removeOverride_unique name ct :
  NoDup (PartName <$> Override ct) ->
  NoDup (PartName <$> Override (removeOverride name ct))
  /\ forall o, o ∈ Override (removeOverride name ct) -> PartName o <> name.
Proof.
  intros Hnd. simpl. split.
  - eapply sublist_NoDup; [exact Hnd | apply removeFirst_fmap_sublist].
  - intros o Ho. by eapply (removeFirst_key_gone PartName).
Qed.

Lemma removeOverride_keeps name name' ct :
  (forall o, o ∈ Override ct -> PartName o <> name) ->
  forall o, o ∈ Override (removeOverride name' ct) -> PartName o <> name.
Proof. intros H o Ho%elem_of_removeFirst. auto. Qed.

Lemma removeOverride_none name ct :
  (forall o, o ∈ Override ct -> PartName o <> name) -> removeOverride name ct = ct.
Proof.
  intros H. destruct ct as [n d o]. unfold removeOverride. simpl in *. f_equal.
  apply removeFirst_none. intros x Hx. apply bool_decide_eq_false_2. auto.
Qed.

Lemma removeLayout_overrides i p p' :
  removeLayout i p = Ok p' -> overridesUnique p ->
  overridesUnique p' /\ noOverride (layoutPartName i) p'.
Proof.
  intros (_ & _ & _ & _ & _ & _ & _ & _ & _ & Hct)%removeLayout_Ok Hu.
  unfold overridesUnique, noOverride. rewrite Hct. by apply removeOverride_unique.
Qed.

Lemma removeMaster_overrides i p p' :
  removeMaster i p = Ok p' -> overridesUnique p ->
  overridesUnique p' /\ noOverride (masterPartName i) p'.
Proof.
  intros (_ & _ & _ & _ & _ & _ & _ & _ & _ & Hct)%removeMaster_Ok Hu.
  unfold overridesUnique, noOverride. rewrite Hct. by apply removeOverride_unique.
Qed.

Lemma removeLayout_noOverride name i p p' :
  noOverride name p -> removeLayout i p = Ok p' -> noOverride name p'.
Proof.
  intros Hn (_ & _ & _ & _ & _ & _ & _ & _ & _ & Hct)%removeLayout_Ok.
  unfold noOverride. rewrite Hct. by apply removeOverride_keeps.
Qed.

Lemma removeMaster_noOverride name i p p' :
  noOverride name p -> removeMaster i p = Ok p' -> noOverride name p'.
Proof.
  intros Hn (_ & _ & _ & _ & _ & _ & _ & _ & _ & Hct)%removeMaster_Ok.
  unfold noOverride. rewrite Hct. by apply removeOverride_keeps.
Qed.

(** C2 (as the code has it): on a manifest with at most one override per
    part, after [RemoveUnusedLayouts] and [RemoveUnusedMasters] no override
    names the canonical path of a layout or master slot that these passes
    tombstoned. *)
Theorem overrides_consistent_after_pruning
    (p p1 p2 : PowerpointDoc) (usedLayouts usedMasters : list bool) :
  NoDup (PartName <$> Override (contentTypes p)) ->
  FindUsedLayouts p = Ok usedLayouts ->
  RemoveUnusedLayouts p = Ok p1 ->
  FindUsedMasters p1 = Ok usedMasters ->
  RemoveUnusedMasters p1 = Ok p2 ->
  forall o, o ∈ Override (contentTypes p2) ->
    (forall i, usedLayouts !! i = Some false ->
       slideLayoutRels p2 !! i = Some emptyRelationships
       /\ PartName o <> layoutPartName i)
    /\ (forall i, usedMasters !! i = Some false ->
          slideMasterRels p2 !! i = Some emptyRelationships
          /\ slideMasters p2 !! i = Some None
          /\ PartName o <> masterPartName i).
Proof.
  intros Hnd HuL HL HuM HM o Ho.
  unfold RemoveUnusedLayouts in HL. rewrite HuL in HL. simpl in HL.
  unfold RemoveUnusedMasters in HM. rewrite HuM in HM. simpl in HM.
  rewrite forUnused_steps in HL, HM.
  destruct (runSteps_done removeLayout overridesUnique
              (fun i q => noOverride (layoutPartName i) q
                          /\ slideLayoutRels q !! i = Some emptyRelationships))
    with (slots := unusedFrom 0 usedLayouts) (p := p) (p' := p1) as [Hu1 HdoneL];
    try done.
  { intros i q q' Hq Hstep. destruct (removeLayout_overrides _ _ _ Hstep Hq) as [? ?].
    repeat split; try done.
    apply removeLayout_Ok in Hstep as (Hi & _ & _ & _ & -> & _).
    by apply list_lookup_insert_eq. }
  { intros i j q q' [Hq Hslot] Hstep. split; [by eapply removeLayout_noOverride|].
    apply removeLayout_Ok in Hstep as (Hj & _ & _ & _ & -> & _).
    destruct (decide (i = j)) as [->|Hne];
      [by apply list_lookup_insert_eq | by rewrite list_lookup_insert_ne]. }
  destruct (runSteps_done removeMaster overridesUnique
              (fun i q => noOverride (masterPartName i) q
                          /\ slideMasterRels q !! i = Some emptyRelationships
                          /\ slideMasters q !! i = Some None))
    with (slots := unusedFrom 0 usedMasters) (p := p1) (p' := p2) as [Hu2 HdoneM];
    try done.
  { intros i q q' Hq Hstep. destruct (removeMaster_overrides _ _ _ Hstep Hq) as [? ?].
    apply removeMaster_Ok in Hstep as (Hi & Hi' & _ & _ & _ & _ & Hm & _ & Hs & _).
    rewrite Hm, Hs. repeat split; try done; by apply list_lookup_insert_eq. }
  { intros i j q q' (Hq & Hs1 & Hs2) Hstep. split; [by eapply removeMaster_noOverride|].
    apply removeMaster_Ok in Hstep as (Hj & Hj' & _ & _ & _ & _ & Hm & _ & Hs & _).
    rewrite Hm, Hs. destruct (decide (i = j)) as [->|Hne].
    - split; by apply list_lookup_insert_eq.
    - by rewrite !list_lookup_insert_ne. }
  split.
  - intros i Hi.
    destruct (HdoneL i) as [HnoL HslotL].
    { apply elem_of_unusedFrom. by exists i. }
    assert (noOverride (layoutPartName i) p2 /\ slideLayoutRels p2 = slideLayoutRels p1)
      as [Hno2 Hsame].
    { apply (runSteps_invariant removeMaster
               (fun q => noOverride (layoutPartName i) q
                         /\ slideLayoutRels q = slideLayoutRels p1))
        with (slots := unusedFrom 0 usedMasters) (p := p1); [|done|done].
      intros j q q' [Hq Hl] Hstep. split; [by eapply removeMaster_noOverride|].
      apply removeMaster_Ok in Hstep as (_ & _ & _ & _ & _ & -> & _). done. }
    rewrite Hsame. split; [done | by apply Hno2].
  - intros i Hi.
    destruct (HdoneM i) as (HnoM & Hs1 & Hs2).
    { apply elem_of_unusedFrom. by exists i. }
    repeat split; try done. by apply HnoM.
Qed.

Lemma overrides_consistent_witness :
  exists p1 p2,
    RemoveUnusedLayouts Demo.doc = Ok p1
    /\ RemoveUnusedMasters p1 = Ok p2
    /\ forall o, o ∈ Override (contentTypes p2) -> PartName o <> layoutPartName 1.
Proof.
  eexists. eexists. split; [reflexivity|]. split; [reflexivity|].
  intros o Ho.
  refine (proj2 (proj1 (overrides_consistent_after_pruning Demo.doc _ _
                          [true; false] [true] _ eq_refl eq_refl eq_refl eq_refl o Ho)
                   1 eq_refl)).
  apply (bool_decide_unpack _). vm_compute. exact I.
Defined.

(** The package of [Demo] with a second override for layout 2. *)
Definition dupDoc : PowerpointDoc :=
  {| sourceFileReader := Demo.files;
     medias := medias Demo.doc;
     slideRels := slideRels Demo.doc;
     slideLayoutRels := slideLayoutRels Demo.doc;
     slideMasterRels := slideMasterRels Demo.doc;
     presentationRels := presentationRels Demo.doc;
     slideMasters := slideMasters Demo.doc;
     presentation := presentation Demo.doc;
     contentTypes := Demo.types ["/ppt/slideLayouts/slideLayout1.xml";
                                 "/ppt/slideLayouts/slideLayout2.xml";
                                 "/ppt/slideLayouts/slideLayout2.xml";
                                 "/ppt/slideMasters/slideMaster1.xml"] |}.

(** C2, counterexample: layout 2 is unused and tombstoned by
    [RemoveUnusedLayouts], and after both passes the manifest still has an
    override for its path: only the first of the two was deleted. *)
Lemma overrides_duplicate_counterexample :
  FindUsedLayouts dupDoc = Ok [true; false]
  /\ exists p1 p2,
       RemoveUnusedLayouts dupDoc = Ok p1
       /\ RemoveUnusedMasters p1 = Ok p2
       /\ slideLayoutRels p2 !! 1 = Some emptyRelationships
       /\ PartName <$> Override (contentTypes p2)
          = ["/ppt/slideLayouts/slideLayout1.xml"; layoutPartName 1;
             "/ppt/slideMasters/slideMaster1.xml"].
Proof.
  split; [reflexivity|].
  eexists. eexists. repeat split; reflexivity.
Qed.

(** ** Idempotence of the pruning sequence *)

Lemma runSteps_removeMaster_slots slots p p' :
  runSteps removeMaster slots p = Ok p' ->
  length (slideMasterRels p') = length (slideMasterRels p)
  /\ length (slideMasters p') = length (slideMasters p)
  /\ (forall i, i ∈ slots -> i < length (slideMasterRels p) /\ i < length (slideMasters p))
  /\ (forall i, slideMasterRels p' !! i
                = if decide (i ∈ slots)
                  then Some emptyRelationships else slideMasterRels p !! i)
  /\ (forall i, slideMasters p' !! i
                = if decide (i ∈ slots) then Some None else slideMasters p !! i).
Proof.
  revert p. induction slots as [|k slots IH]; intros p; simpl.
  - intros [= <-]. split; [done|]. split; [done|]. split; [|done].
    by intros i Hi%elem_of_nil.
  - intros H. apply bind_Ok in H as (p1 & H1 & H).
    apply removeMaster_Ok in H1 as (Hk & Hk' & _ & _ & _ & _ & Hm & _ & Hs & _).
    apply IH in H as (Hlen1 & Hlen2 & Hin & Hslot1 & Hslot2).
    rewrite Hm, Hs, !length_insert in *.
    split; [done|]. split; [done|]. split; [|split].
    + intros i [->|Hi]%elem_of_cons; [done | by apply Hin].
    + intros i. rewrite Hslot1.
      destruct (decide (i ∈ slots)) as [Hi|Hi].
      * rewrite decide_True; [done | by right].
      * destruct (decide (i = k)) as [->|Hne].
        -- rewrite decide_True by left. by apply list_lookup_insert_eq.
        -- rewrite decide_False; [by rewrite list_lookup_insert_ne|].
           by intros [?|?]%elem_of_cons.
    + intros i. rewrite Hslot2.
      destruct (decide (i ∈ slots)) as [Hi|Hi].
      * rewrite decide_True; [done | by right].
      * destruct (decide (i = k)) as [->|Hne].
        -- rewrite decide_True by left. by apply list_lookup_insert_eq.
        -- rewrite decide_False; [by rewrite list_lookup_insert_ne|].
           by intros [?|?]%elem_of_cons.
Qed.

(** The overrides of the manifest for the part [name], and the
    relationships of a set with the target [target]. *)
Definition overridesFor (name : string) (p : PowerpointDoc) : list OverrideEntry :=
  List.filter (hasPartName name) (Override (contentTypes p)).

Definition relationshipsTo (target : string) (rs : Relationships) : list Relationship :=
  List.filter (hasTarget target) (Relationship_ rs).

(** At most one entry for each part the pruning sequence removes.  With
    [usedLayouts] and [usedMasters] the marks of the two passes: a layout
    that is removed has at most one override in the manifest and is the
    target of at most one relationship in the set of each master that is
    kept; a master that is removed has at most one override and is the
    target of at most one relationship of the presentation.  Nothing is
    asked of the other entries (pictures, themes, parts that are kept). *)
Definition onePerRemoved (usedLayouts usedMasters : list bool) (p : PowerpointDoc) : Prop :=
  (forall i, usedLayouts !! i = Some false ->
     length (overridesFor (layoutPartName i) p) <= 1
     /\ forall j rs, usedMasters !! j = Some true -> slideMasterRels p !! j = Some rs ->
          length (relationshipsTo (layoutTarget i) rs) <= 1)
  /\ (forall m, usedMasters !! m = Some false ->
        length (overridesFor (masterPartName m) p) <= 1
        /\ length (relationshipsTo (masterTarget m) (presentationRels p)) <= 1).

Definition noTarget (target : string) (rs : Relationships) : Prop :=
  forall r, r ∈ Relationship_ rs -> Target r <> target.

(** Everything [removeLayout i] deletes is already gone. *)
Definition layoutGone (i : nat) (p : PowerpointDoc) : Prop :=
  noOverride (layoutPartName i) p
  /\ (forall rs, rs ∈ slideMasterRels p -> noTarget (layoutTarget i) rs)
  /\ slideLayoutRels p !! i = Some emptyRelationships.

(** The same, as far as the masters marked in [usedMasters] go. *)
Definition layoutGoneIn (usedMasters : list bool) (i : nat) (p : PowerpointDoc) : Prop :=
  noOverride (layoutPartName i) p
  /\ (forall j rs, usedMasters !! j = Some true -> slideMasterRels p !! j = Some rs ->
                   noTarget (layoutTarget i) rs)
  /\ slideLayoutRels p !! i = Some emptyRelationships.

(** Everything [removeMaster i] deletes is already gone. *)
Definition masterGone (i : nat) (p : PowerpointDoc) : Prop :=
  noOverride (masterPartName i) p
  /\ noTarget (masterTarget i) (presentationRels p)
  /\ slideMasterRels p !! i = Some emptyRelationships
  /\ slideMasters p !! i = Some None.

Lemma filter_removeFirst_le {A} (P Q : A -> bool) l :
  length (List.filter P (removeFirst Q l)) <= length (List.filter P l).
Proof.
  induction l as [|x l IH]; simpl; [done|].
  destruct (Q x); simpl; destruct (P x); simpl; lia.
Qed.

(** With at most one match, none is left after the first is deleted. *)
Lemma removeFirst_once {A} (P : A -> bool) l x :
  length (List.filter P l) <= 1 -> x ∈ removeFirst P l -> P x = false.
Proof.
  induction l as [|y l IH]; simpl; [by intros _ ?%elem_of_nil|].
  destruct (P y) eqn:Hy; simpl.
  - intros Hlen Hx. destruct (P x) eqn:Hpx; [|done].
    assert (x ∈ List.filter P l) as Hin.
    { apply list_elem_of_In, List.filter_In. by rewrite <- list_elem_of_In. }
    destruct (List.filter P l); [by apply elem_of_nil in Hin | simpl in Hlen; lia].
  - intros Hlen [->|Hx]%elem_of_cons; [done | by apply IH].
Qed.

Lemma removeOverride_once name ct o :
  length (List.filter (hasPartName name) (Override ct)) <= 1 ->
  o ∈ Override (removeOverride name ct) -> PartName o <> name.
Proof.
  intros Hlen Ho. simpl in Ho. apply (removeFirst_once _ _ _ Hlen) in Ho.
  by apply bool_decide_eq_false in Ho.
Qed.

Lemma dropTarget_once target rs :
  length (relationshipsTo target rs) <= 1 -> noTarget target (dropTarget target rs).
Proof.
  intros Hlen r Hr. simpl in Hr. apply (removeFirst_once _ _ _ Hlen) in Hr.
  by apply bool_decide_eq_false in Hr.
Qed.

Lemma dropTarget_le target target' rs :
  length (relationshipsTo target (dropTarget target' rs))
  <= length (relationshipsTo target rs).
Proof. apply filter_removeFirst_le. Qed.

Lemma dropTarget_keeps target target' rs :
  noTarget target rs -> noTarget target (dropTarget target' rs).
Proof. intros H r Hr%elem_of_removeFirst. auto. Qed.

Lemma noTarget_empty target : noTarget target emptyRelationships.
Proof. by intros r Hr%elem_of_nil. Qed.

Lemma elem_of_insert_inv {A} (l : list A) i x y :
  y ∈ <[i := x]> l -> y = x \/ y ∈ l.
Proof.
  intros (j & Hj)%list_elem_of_lookup.
  apply list_lookup_insert_Some in Hj as [(_ & -> & _)|[_ Hj]]; [by left|].
  right. apply list_elem_of_lookup. eauto.
Qed.

(** *** The steps keep the condition *)

Lemma removeLayout_onePerRemoved usedL usedM k p p' :
  removeLayout k p = Ok p' -> onePerRemoved usedL usedM p -> onePerRemoved usedL usedM p'.
Proof.
  intros (_ & _ & _ & _ & _ & Hmr & Hpr & _ & _ & Hct)%removeLayout_Ok [HL HM].
  unfold onePerRemoved, overridesFor. rewrite Hmr, Hpr, Hct. split.
  - intros i Hi. destruct (HL i Hi) as [Ho Hr]. split.
    + etrans; [apply filter_removeFirst_le | exact Ho].
    + intros j rs' Hj Hrs'. rewrite list_lookup_fmap in Hrs'.
      destruct (slideMasterRels p !! j) as [rs|] eqn:Hrs; [|done].
      injection Hrs' as <-. etrans; [apply dropTarget_le | by eapply Hr].
  - intros m Hm. destruct (HM m Hm) as [Ho Hr]. split; [|done].
    etrans; [apply filter_removeFirst_le | exact Ho].
Qed.

Lemma removeMaster_onePerRemoved usedL usedM k p p' :
  removeMaster k p = Ok p' -> onePerRemoved usedL usedM p -> onePerRemoved usedL usedM p'.
Proof.
  intros (_ & _ & _ & _ & _ & _ & Hmr & Hpr & _ & Hct)%removeMaster_Ok [HL HM].
  unfold onePerRemoved, overridesFor. rewrite Hmr, Hpr, Hct. split.
  - intros i Hi. destruct (HL i Hi) as [Ho Hr]. split.
    + etrans; [apply filter_removeFirst_le | exact Ho].
    + intros j rs' Hj Hrs'.
      apply list_lookup_insert_Some in Hrs' as [(_ & <- & _)|[_ Hrs']]; [simpl; lia|].
      by eapply Hr.
  - intros m Hm. destruct (HM m Hm) as [Ho Hr]. split.
    + etrans; [apply filter_removeFirst_le | exact Ho].
    + etrans; [apply dropTarget_le | exact Hr].
Qed.

(** *** What a step leaves behind *)

Lemma removeLayout_goneIn usedL usedM i p p' :
  removeLayout i p = Ok p' -> onePerRemoved usedL usedM p ->
  usedL !! i = Some false -> layoutGoneIn usedM i p'.
Proof.
  intros (Hi & _ & _ & _ & Hl & Hmr & _ & _ & _ & Hct)%removeLayout_Ok [HL _] Hrem.
  destruct (HL i Hrem) as [Ho Hr].
  unfold layoutGoneIn, noOverride. rewrite Hl, Hmr, Hct. split; [|split].
  - intros o. by apply removeOverride_once.
  - intros j rs' Hj Hrs'. rewrite list_lookup_fmap in Hrs'.
    destruct (slideMasterRels p !! j) as [rs|] eqn:Hrs; [|done].
    injection Hrs' as <-. apply dropTarget_once. by eapply Hr.
  - by apply list_lookup_insert_eq.
Qed.

Lemma removeLayout_keepsIn usedM i j p p' :
  layoutGoneIn usedM i p -> removeLayout j p = Ok p' -> layoutGoneIn usedM i p'.
Proof.
  intros (Hno & Hm & Hslot) Hstep.
  split; [by eapply removeLayout_noOverride|].
  apply removeLayout_Ok in Hstep as (Hj & _ & _ & _ & Hl & Hmr & _).
  rewrite Hl, Hmr. split.
  - intros k rs' Hk Hrs'. rewrite list_lookup_fmap in Hrs'.
    destruct (slideMasterRels p !! k) as [rs|] eqn:Hrs; [|done].
    injection Hrs' as <-. by eapply dropTarget_keeps, Hm.
  - destruct (decide (i = j)) as [->|Hne];
      [by apply list_lookup_insert_eq | by rewrite list_lookup_insert_ne].
Qed.

Lemma removeMaster_keepsIn usedM i j p p' :
  layoutGoneIn usedM i p -> removeMaster j p = Ok p' -> layoutGoneIn usedM i p'.
Proof.
  intros (Hno & Hm & Hslot) Hstep.
  split; [by eapply removeMaster_noOverride|].
  apply removeMaster_Ok in Hstep as (_ & _ & _ & _ & _ & Hl & Hmr & _).
  rewrite Hl, Hmr. split; [|done].
  intros k rs' Hk Hrs'.
  apply list_lookup_insert_Some in Hrs' as [(_ & <- & _)|[_ Hrs']];
    [apply noTarget_empty | by eapply Hm].
Qed.

Lemma removeMaster_gone usedL usedM i p p' :
  removeMaster i p = Ok p' -> onePerRemoved usedL usedM p ->
  usedM !! i = Some false -> masterGone i p'.
Proof.
  intros (Hi & Hi' & _ & _ & _ & _ & Hmr & Hpr & Hs & Hct)%removeMaster_Ok [_ HM] Hrem.
  destruct (HM i Hrem) as [Ho Hr].
  unfold masterGone, noOverride. rewrite Hmr, Hpr, Hs, Hct. split; [|split; [|split]].
  - intros o. by apply removeOverride_once.
  - by apply dropTarget_once.
  - by apply list_lookup_insert_eq.
  - by apply list_lookup_insert_eq.
Qed.

Lemma removeMaster_keeps i j p p' :
  masterGone i p -> removeMaster j p = Ok p' -> masterGone i p'.
Proof.
  intros (Hno & Hp & Hm & Hs) Hstep.
  split; [by eapply removeMaster_noOverride|].
  apply removeMaster_Ok in Hstep as (Hj & Hj' & _ & _ & _ & _ & Hmr & Hpr & Hsm & _).
  rewrite Hmr, Hpr, Hsm. split; [by apply dropTarget_keeps|].
  destruct (decide (i = j)) as [->|Hne].
  - split; by apply list_lookup_insert_eq.
  - by rewrite !list_lookup_insert_ne.
Qed.

(** *** A step on a slot that is already gone *)

Lemma removeLayout_noop i p : layoutGone i p -> removeLayout i p = Ok p.
Proof.
  intros (Hno & Hm & Hslot). unfold removeLayout.
  rewrite removeFromMasters_noop by (intros rs r Hrs; by apply Hm).
  simpl. unfold setSlot.
  rewrite bool_decide_eq_true_2 by (by eapply lookup_lt_Some). simpl.
  rewrite list_insert_id by done. rewrite removeOverride_none by done.
  by destruct p.
Qed.

Lemma removeMaster_noop i p : masterGone i p -> removeMaster i p = Ok p.
Proof.
  intros (Hno & Hp & Hm & Hs). unfold removeMaster.
  rewrite removeFromPresentation_noop by done. simpl. unfold setSlot.
  rewrite bool_decide_eq_true_2 by (by eapply lookup_lt_Some). simpl.
  rewrite bool_decide_eq_true_2 by (by eapply lookup_lt_Some). simpl.
  rewrite !list_insert_id by done. rewrite removeOverride_none by done.
  by destruct p.
Qed.

Lemma runSteps_removeMaster_frame slots p p' :
  runSteps removeMaster slots p = Ok p' ->
  slideRels p' = slideRels p
  /\ slideLayoutRels p' = slideLayoutRels p
  /\ length (slideMasterRels p') = length (slideMasterRels p).
Proof.
  apply (runSteps_invariant removeMaster
           (fun q => slideRels q = slideRels p
                     /\ slideLayoutRels q = slideLayoutRels p
                     /\ length (slideMasterRels q) = length (slideMasterRels p)));
    [|done].
  intros i q q' (H1 & H2 & H3) Hstep.
  apply removeMaster_Ok in Hstep as (_ & _ & _ & _ & -> & -> & -> & _).
  by rewrite length_insert.
Qed.

Lemma FindUsedMasters_length p used :
  FindUsedMasters p = Ok used -> length used = length (slideMasterRels p).
Proof.
  unfold FindUsedMasters. rewrite markAll_numbers.
  intros (Hlen & _)%markNumbers_Ok. by rewrite length_replicate in Hlen.
Qed.

Lemma RemoveUnusedMedias_idempotent p :
  RemoveUnusedMedias (RemoveUnusedMedias p) = RemoveUnusedMedias p.
Proof.
  unfold RemoveUnusedMedias at 1 3. simpl. f_equal.
  change (FindUsedMedias (RemoveUnusedMedias p)) with (FindUsedMedias p).
  by apply map_filter_filter_l.
Qed.

(** After both passes every removed slot is gone: for the layouts also
    in the relationship sets of the masters that were removed, which are
    empty by then. *)
Lemma passes_leave_gone usedL usedM p pa pb :
  FindUsedMasters pa = Ok usedM ->
  runSteps removeLayout (unusedFrom 0 usedL) p = Ok pa ->
  runSteps removeMaster (unusedFrom 0 usedM) pa = Ok pb ->
  onePerRemoved usedL usedM p ->
  (forall i, i ∈ unusedFrom 0 usedL -> layoutGone i pb)
  /\ (forall m, m ∈ unusedFrom 0 usedM -> masterGone m pb).
Proof.
  intros HuM HL HM Hone.
  destruct (runSteps_done removeLayout (onePerRemoved usedL usedM)
              (fun i q => usedL !! i = Some false -> layoutGoneIn usedM i q))
    with (slots := unusedFrom 0 usedL) (p := p) (p' := pa) as [Hone_a HgoneL];
    [| |done|done|].
  { intros i q q' Hq Hstep. split; [by eapply removeLayout_onePerRemoved|].
    intros Hi. by eapply removeLayout_goneIn. }
  { intros i j q q' Hq Hstep Hi. eapply removeLayout_keepsIn; [by apply Hq | done]. }
  destruct (runSteps_done removeMaster (onePerRemoved usedL usedM)
              (fun m q => usedM !! m = Some false -> masterGone m q))
    with (slots := unusedFrom 0 usedM) (p := pa) (p' := pb) as [Hone_b HgoneM];
    [| |done|done|].
  { intros i q q' Hq Hstep. split; [by eapply removeMaster_onePerRemoved|].
    intros Hi. by eapply removeMaster_gone. }
  { intros i j q q' Hq Hstep Hi. eapply removeMaster_keeps; [by apply Hq | done]. }
  pose proof (runSteps_removeMaster_slots _ _ _ HM) as (Hlen & _ & _ & Hslot & _).
  split.
  - intros i Hi.
    assert (usedL !! i = Some false) as Hrem.
    { apply elem_of_unusedFrom in Hi as (j & -> & Hj). done. }
    assert (layoutGoneIn usedM i pb) as (Hno & Hm & Hs).
    { apply (runSteps_invariant removeMaster (layoutGoneIn usedM i))
        with (slots := unusedFrom 0 usedM) (p := pa); [|by apply HgoneL|done].
      intros j q q' Hq Hstep. by eapply removeMaster_keepsIn. }
    split; [done|]. split; [|done].
    intros rs (j & Hj)%list_elem_of_lookup.
    destruct (usedM !! j) as [[|]|] eqn:Hb.
    + by eapply Hm.
    + rewrite Hslot, decide_True in Hj by (apply elem_of_unusedFrom; by exists j).
      injection Hj as <-. apply noTarget_empty.
    + apply lookup_lt_Some in Hj. apply lookup_ge_None in Hb.
      apply FindUsedMasters_length in HuM. lia.
  - intros m Hm. apply HgoneM; [done|].
    apply elem_of_unusedFrom in Hm as (j & -> & Hj). done.
Qed.

(** *** Counting what the passes delete *)

Lemma append_inj_r (a b p : string) :
  String.length a = String.length b -> a ++ p = b ++ p -> a = b.
Proof.
  revert b. induction a as [|x a IH]; intros [|y b]; simpl; try done.
  intros [= Hlen] [= -> H]. f_equal. by apply IH.
Qed.

Lemma runSteps_removeLayout_masterSlots slots p p' :
  runSteps removeLayout slots p = Ok p' ->
  length (slideMasterRels p') = length (slideMasterRels p).
Proof.
  apply (runSteps_invariant removeLayout
           (fun q => length (slideMasterRels q) = length (slideMasterRels p))); [|done].
  intros i q q' Hq (_ & _ & _ & _ & _ & -> & _)%removeLayout_Ok.
  by rewrite length_fmap.
Qed.

Lemma filter_removeFirst_same {A} (P : A -> bool) l :
  length (List.filter P (removeFirst P l)) = length (List.filter P l) - 1.
Proof.
  induction l as [|x l IH]; simpl; [done|].
  destruct (P x) eqn:Hx; simpl; [lia|]. by rewrite Hx.
Qed.

Lemma filter_removeFirst_other {A} (P Q : A -> bool) l :
  (forall x, Q x = true -> P x = false) ->
  List.filter P (removeFirst Q l) = List.filter P l.
Proof.
  intros H. induction l as [|x l IH]; simpl; [done|].
  destruct (Q x) eqn:HQ; simpl.
  - by rewrite (H x HQ).
  - by rewrite IH.
Qed.

Lemma removeFirst_count (f : OverrideEntry -> string) (name name' : string) l :
  length (List.filter (fun x => bool_decide (f x = name))
            (removeFirst (fun x => bool_decide (f x = name')) l))
  = if decide (name = name')
    then length (List.filter (fun x => bool_decide (f x = name)) l) - 1
    else length (List.filter (fun x => bool_decide (f x = name)) l).
Proof.
  destruct (decide _) as [->|Hne]; [apply filter_removeFirst_same|].
  f_equal. apply filter_removeFirst_other. intros x Hx.
  apply bool_decide_eq_true in Hx. apply bool_decide_eq_false_2. congruence.
Qed.

Lemma dropTarget_count target target' rs :
  length (relationshipsTo target (dropTarget target' rs))
  = if decide (target = target') then length (relationshipsTo target rs) - 1
    else length (relationshipsTo target rs).
Proof.
  unfold relationshipsTo, dropTarget. simpl.
  destruct (decide _) as [->|Hne]; [apply filter_removeFirst_same|].
  f_equal. apply filter_removeFirst_other. intros x Hx.
  apply bool_decide_eq_true in Hx. apply bool_decide_eq_false_2. congruence.
Qed.

(** The names of different slots are different. *)
Lemma itoa_inj a b : Strings.itoa a = Strings.itoa b -> a = b.
Proof.
  unfold Strings.itoa. intros H.
  apply (f_equal NilEmpty.uint_of_string) in H. rewrite !NilEmpty.usu in H.
  injection H as H. apply (f_equal Nat.of_uint) in H.
  by rewrite !DecimalNat.Unsigned.of_to in H.
Qed.

Lemma numbered_inj (pre : string) a b :
  pre ++ Strings.itoa (a + 1) ++ ".xml" = pre ++ Strings.itoa (b + 1) ++ ".xml" -> a = b.
Proof.
  intros H. apply (inj (String.append pre)) in H.
  assert (Strings.itoa (a + 1) = Strings.itoa (b + 1)) as Heq.
  { apply (append_inj_r _ _ ".xml"); [|done].
    apply (f_equal String.length) in H. rewrite !length_append in H. lia. }
  apply itoa_inj in Heq. lia.
Qed.

Lemma layout_not_master i m : layoutPartName i <> masterPartName m.
Proof. unfold layoutPartName, masterPartName. simpl. discriminate. Qed.

(** The numbers of entries for a part. *)
Definition overrideCount (name : string) (p : PowerpointDoc) : nat :=
  length (overridesFor name p).

Definition relCount (target : string) (j : nat) (p : PowerpointDoc) : nat :=
  from_option (fun rs => length (relationshipsTo target rs)) 0 (slideMasterRels p !! j).

Definition presCount (target : string) (p : PowerpointDoc) : nat :=
  length (relationshipsTo target (presentationRels p)).

Lemma removeLayout_counts k p p' :
  removeLayout k p = Ok p' ->
  (forall i, overrideCount (layoutPartName i) p'
             = if decide (k = i) then overrideCount (layoutPartName i) p - 1
               else overrideCount (layoutPartName i) p)
  /\ (forall i j, relCount (layoutTarget i) j p'
                  = if decide (k = i) then relCount (layoutTarget i) j p - 1
                    else relCount (layoutTarget i) j p)
  /\ (forall m, overrideCount (masterPartName m) p' = overrideCount (masterPartName m) p)
  /\ (forall t, presCount t p' = presCount t p).
Proof.
  intros (_ & _ & _ & _ & _ & Hmr & Hpr & _ & _ & Hct)%removeLayout_Ok.
  unfold overrideCount, overridesFor, relCount, presCount. rewrite Hmr, Hpr, Hct.
  split; [|split; [|split]].
  - intros i. simpl. unfold hasPartName. rewrite (removeFirst_count PartName).
    destruct (decide (k = i)) as [->|Hne].
    + by rewrite decide_True.
    + rewrite decide_False; [done|]. intros H%numbered_inj. congruence.
  - intros i j. rewrite list_lookup_fmap.
    destruct (slideMasterRels p !! j) as [rs|]; simpl; [|by destruct (decide _)].
    rewrite dropTarget_count. destruct (decide (k = i)) as [->|Hne].
    + by rewrite decide_True.
    + rewrite decide_False; [done|]. intros H%numbered_inj. congruence.
  - intros m. simpl. unfold hasPartName. rewrite (removeFirst_count PartName).
    rewrite decide_False; [done|]. intros H. by apply (layout_not_master k m).
  - done.
Qed.

Lemma removeMaster_counts k p p' :
  removeMaster k p = Ok p' ->
  (forall i, overrideCount (layoutPartName i) p' = overrideCount (layoutPartName i) p)
  /\ (forall t j, j <> k -> relCount t j p' = relCount t j p)
  /\ (forall m, overrideCount (masterPartName m) p'
                = if decide (k = m) then overrideCount (masterPartName m) p - 1
                  else overrideCount (masterPartName m) p)
  /\ (forall m, presCount (masterTarget m) p'
                = if decide (k = m) then presCount (masterTarget m) p - 1
                  else presCount (masterTarget m) p).
Proof.
  intros (_ & _ & _ & _ & _ & _ & Hmr & Hpr & _ & Hct)%removeMaster_Ok.
  unfold overrideCount, overridesFor, relCount, presCount. rewrite Hmr, Hpr, Hct.
  split; [|split; [|split]].
  - intros i. simpl. unfold hasPartName. rewrite (removeFirst_count PartName).
    rewrite decide_False; [done|]. apply layout_not_master.
  - intros t j Hj. by rewrite list_lookup_insert_ne.
  - intros m. simpl. unfold hasPartName. rewrite (removeFirst_count PartName).
    destruct (decide (k = m)) as [->|Hne].
    + by rewrite decide_True.
    + rewrite decide_False; [done|]. intros H%numbered_inj. congruence.
  - intros m. rewrite dropTarget_count. destruct (decide (k = m)) as [->|Hne].
    + by rewrite decide_True.
    + rewrite decide_False; [done|]. intros H%numbered_inj. congruence.
Qed.

Lemma NoDup_unusedFrom k used : NoDup (unusedFrom k used).
Proof.
  revert k. induction used as [|b used IH]; intros k; simpl; [constructor|].
  destruct b; [apply IH|]. apply NoDup_cons. split; [|apply IH].
  intros (j & Hj & _)%elem_of_unusedFrom. lia.
Qed.

(** A count that the step of slot [i] lowers by one (if it is not zero)
    and the other steps keep. *)
Lemma runSteps_count step (c : PowerpointDoc -> nat) (i : nat) slots :
  (forall k q q', k ∈ slots -> step k q = Ok q' ->
                  c q' = if decide (k = i) then c q - 1 else c q) ->
  NoDup slots ->
  forall p p', runSteps step slots p = Ok p' ->
               c p' = if decide (i ∈ slots) then c p - 1 else c p.
Proof.
  induction slots as [|k slots IH]; intros Hstep Hnd p p'; cbn [runSteps].
  - intros [= <-]. rewrite decide_False; [done | apply not_elem_of_nil].
  - apply NoDup_cons in Hnd as [Hk Hnd]. intros H.
    apply bind_Ok in H as (p1 & H1 & H).
    apply Hstep in H1; [|left].
    apply IH in H; [|intros k' q q' Hk'; apply Hstep; by right | done].
    rewrite H, H1. destruct (decide (k = i)) as [->|Hne].
    + rewrite (decide_False (P := i ∈ slots)) by done.
      rewrite decide_True by left. done.
    + destruct (decide (i ∈ slots)) as [Hi|Hi].
      * rewrite decide_True by (by right). done.
      * rewrite decide_False; [done|]. intros [?|?]%elem_of_cons; congruence.
Qed.

Lemma runSteps_same step (c : PowerpointDoc -> nat) slots :
  (forall k q q', k ∈ slots -> step k q = Ok q' -> c q' = c q) ->
  forall p p', runSteps step slots p = Ok p' -> c p' = c p.
Proof.
  induction slots as [|k slots IH]; intros Hstep p p'; simpl.
  - by intros [= <-].
  - intros H. apply bind_Ok in H as (p1 & H1 & H).
    apply Hstep in H1; [|left].
    apply IH in H; [|intros k' q q' Hk'; apply Hstep; by right]. congruence.
Qed.

(** The two passes delete exactly one entry (if there is one) for each
    part they remove. *)
Lemma passes_counts usedL usedM p pa pb :
  runSteps removeLayout (unusedFrom 0 usedL) p = Ok pa ->
  runSteps removeMaster (unusedFrom 0 usedM) pa = Ok pb ->
  (forall i, usedL !! i = Some false ->
     overrideCount (layoutPartName i) pb = overrideCount (layoutPartName i) p - 1
     /\ forall j, usedM !! j = Some true ->
          relCount (layoutTarget i) j pb = relCount (layoutTarget i) j p - 1)
  /\ (forall m, usedM !! m = Some false ->
        overrideCount (masterPartName m) pb = overrideCount (masterPartName m) p - 1
        /\ presCount (masterTarget m) pb = presCount (masterTarget m) p - 1).
Proof.
  intros HL HM. split.
  - intros i Hi.
    assert (i ∈ unusedFrom 0 usedL) as Hin by (apply elem_of_unusedFrom; by exists i).
    split.
    + rewrite (runSteps_same removeMaster (overrideCount (layoutPartName i))
                 _ (fun k q q' _ H => proj1 (removeMaster_counts k q q' H) i) _ _ HM).
      rewrite (runSteps_count removeLayout (overrideCount (layoutPartName i)) i
                 _ (fun k q q' _ H => proj1 (removeLayout_counts k q q' H) i)
                 (NoDup_unusedFrom _ _) _ _ HL).
      by rewrite decide_True.
    + intros j Hj.
      rewrite (runSteps_same removeMaster (relCount (layoutTarget i) j)
                 (unusedFrom 0 usedM)) with (p := pa) (p' := pb); [| |done].
      * rewrite (runSteps_count removeLayout (relCount (layoutTarget i) j) i
                   _ (fun k q q' _ H => proj1 (proj2 (removeLayout_counts k q q' H)) i j)
                   (NoDup_unusedFrom _ _) _ _ HL).
        by rewrite decide_True.
      * intros k q q' (k' & -> & Hk)%elem_of_unusedFrom H.
        apply (proj1 (proj2 (removeMaster_counts _ q q' H))). simpl. congruence.
  - intros m Hm.
    assert (m ∈ unusedFrom 0 usedM) as Hin by (apply elem_of_unusedFrom; by exists m).
    split.
    + rewrite (runSteps_count removeMaster (overrideCount (masterPartName m)) m
                 _ (fun k q q' _ H => proj1 (proj2 (proj2 (removeMaster_counts k q q' H))) m)
                 (NoDup_unusedFrom _ _) _ _ HM).
      rewrite decide_True by done.
      by rewrite (runSteps_same removeLayout (overrideCount (masterPartName m))
                    _ (fun k q q' _ H =>
                         proj1 (proj2 (proj2 (removeLayout_counts k q q' H))) m) _ _ HL).
    + rewrite (runSteps_count removeMaster (presCount (masterTarget m)) m
                 _ (fun k q q' _ H => proj2 (proj2 (proj2 (removeMaster_counts k q q' H))) m)
                 (NoDup_unusedFrom _ _) _ _ HM).
      rewrite decide_True by done.
      by rewrite (runSteps_same removeLayout (presCount (masterTarget m))
                    _ (fun k q q' _ H =>
                         proj2 (proj2 (proj2 (removeLayout_counts k q q' H)))
                           (masterTarget m)) _ _ HL).
Qed.

(** The second application has the marks of the first. *)
Lemma second_marks usedL usedM p pa pb qa :
  FindUsedLayouts p = Ok usedL -> FindUsedMasters pa = Ok usedM ->
  runSteps removeLayout (unusedFrom 0 usedL) p = Ok pa ->
  runSteps removeMaster (unusedFrom 0 usedM) pa = Ok pb ->
  FindUsedLayouts (RemoveUnusedMedias pb) = Ok usedL
  /\ (runSteps removeLayout (unusedFrom 0 usedL) (RemoveUnusedMedias pb) = Ok qa ->
      FindUsedMasters qa = Ok usedM).
Proof.
  intros HuL HuM HL HM.
  pose proof (runSteps_removeLayout_slots _ _ _ HL) as (Hsa & Hla & Hslots).
  pose proof (runSteps_removeLayout_masterSlots _ _ _ HL) as Hma.
  pose proof (runSteps_removeMaster_frame _ _ _ HM) as (Hsb & Hlb & Hmb).
  split.
  - unfold FindUsedLayouts in *. simpl. by rewrite Hsb, Hlb, Hsa, Hla.
  - intros HL2.
    pose proof (runSteps_removeLayout_slots _ _ _ HL2) as (_ & Hlq & Hslots2).
    pose proof (runSteps_removeLayout_masterSlots _ _ _ HL2) as Hmq.
    simpl in Hlq, Hslots2, Hmq.
    assert (slideLayoutRels qa = slideLayoutRels pa) as Heq.
    { apply list_eq. intros i.
      destruct (decide (i < length (slideLayoutRels pa))) as [Hi|Hi].
      - rewrite Hslots2 by (rewrite Hlb; lia). rewrite Hlb.
        rewrite (Hslots i) by lia. by destruct (decide _).
      - rewrite !lookup_ge_None_2; [done | lia | rewrite Hlq, Hlb; lia]. }
    unfold FindUsedMasters in *. by rewrite Heq, Hmq, Hmb.
Qed.

(** If the second application changes nothing, there was at most one
    entry for each removed part. *)
Lemma idempotent_onePerRemoved usedL usedM p pa pb :
  FindUsedLayouts p = Ok usedL -> FindUsedMasters pa = Ok usedM ->
  runSteps removeLayout (unusedFrom 0 usedL) p = Ok pa ->
  runSteps removeMaster (unusedFrom 0 usedM) pa = Ok pb ->
  prune (RemoveUnusedMedias pb) = Ok (RemoveUnusedMedias pb) ->
  onePerRemoved usedL usedM p.
Proof.
  intros HuL HuM HL HM H2.
  destruct (passes_counts _ _ _ _ _ HL HM) as [HcL HcM].
  unfold prune in H2.
  apply bind_Ok in H2 as (qa & HL2 & H2).
  apply bind_Ok in H2 as (qb & HM2 & [= _ _ _ _ Hmr Hpr _ _ Hct]).
  destruct (second_marks usedL usedM p pa pb qa HuL HuM HL HM) as [HuL2 HuM2].
  unfold RemoveUnusedLayouts in HL2. rewrite HuL2 in HL2. simpl in HL2.
  rewrite forUnused_steps in HL2. specialize (HuM2 HL2).
  unfold RemoveUnusedMasters in HM2. rewrite HuM2 in HM2. simpl in HM2.
  rewrite forUnused_steps in HM2.
  destruct (passes_counts _ _ _ _ _ HL2 HM2) as [HcL2 HcM2].
  split.
  - intros i Hi. destruct (HcL i Hi) as [Ho Hr]. destruct (HcL2 i Hi) as [Ho2 Hr2].
    split.
    + unfold overrideCount, overridesFor in *. simpl in Ho2. rewrite Hct in Ho2. lia.
    + intros j rs Hj Hrs. specialize (Hr j Hj). specialize (Hr2 j Hj).
      unfold relCount in *. simpl in Hr2. rewrite Hmr in Hr2. rewrite Hrs in Hr.
      simpl in Hr. lia.
  - intros m Hm. destruct (HcM m Hm) as [Ho Hr]. destruct (HcM2 m Hm) as [Ho2 Hr2].
    unfold overrideCount, overridesFor, presCount in *. simpl in Ho2, Hr2.
    rewrite Hct in Ho2. rewrite Hpr in Hr2. lia.
Qed.

(** C8 (as the code has it): when the pruning sequence returns, a second
    application to its result changes nothing if and only if the graph
    had at most one entry for each part the sequence removes: at most one
    manifest override per removed layout and per removed master, at most
    one relationship to a removed layout in the set of each master that
    is kept, and at most one relationship to a removed master in the
    presentation's set.  Each of the three passes then returns the graph
    it was given.  Other repeated entries (two relationships to one
    picture) do no harm. *)
Theorem prune_idempotent
    (p p1 p' : PowerpointDoc) (usedLayouts usedMasters : list bool) :
  FindUsedLayouts p = Ok usedLayouts ->
  RemoveUnusedLayouts p = Ok p1 ->
  FindUsedMasters p1 = Ok usedMasters ->
  prune p = Ok p' ->
  (prune p' = Ok p' <-> onePerRemoved usedLayouts usedMasters p)
  /\ (onePerRemoved usedLayouts usedMasters p ->
      RemoveUnusedLayouts p' = Ok p'
      /\ RemoveUnusedMasters p' = Ok p'
      /\ RemoveUnusedMedias p' = p').
Proof.
  intros HuL HL HuM Hprune.
  unfold prune in Hprune. rewrite HL in Hprune. simpl in Hprune.
  apply bind_Ok in Hprune as (pb & HM & [= <-]).
  unfold RemoveUnusedLayouts in HL. rewrite HuL in HL. simpl in HL.
  rewrite forUnused_steps in HL.
  unfold RemoveUnusedMasters in HM. rewrite HuM in HM. simpl in HM.
  rewrite forUnused_steps in HM.
  assert (onePerRemoved usedLayouts usedMasters p ->
          RemoveUnusedLayouts (RemoveUnusedMedias pb) = Ok (RemoveUnusedMedias pb)
          /\ RemoveUnusedMasters (RemoveUnusedMedias pb) = Ok (RemoveUnusedMedias pb)
          /\ RemoveUnusedMedias (RemoveUnusedMedias pb) = RemoveUnusedMedias pb)
    as Hsame.
  { intros Hone.
    destruct (passes_leave_gone _ _ _ _ _ HuM HL HM Hone) as [HgoneL HgoneM].
    pose proof (runSteps_removeLayout_slots _ _ _ HL) as (Hsa & Hla & _).
    pose proof (runSteps_removeMaster_frame _ _ _ HM) as (Hsb & Hlb & Hmb).
    split; [|split].
    - unfold RemoveUnusedLayouts.
      assert (FindUsedLayouts (RemoveUnusedMedias pb) = Ok usedLayouts) as ->.
      { unfold FindUsedLayouts in *. simpl. by rewrite Hsb, Hlb, Hsa, Hla. }
      simpl. rewrite forUnused_steps.
      apply (runSteps_noop removeLayout layoutGone); [apply removeLayout_noop|].
      intros i Hi. exact (HgoneL i Hi).
    - unfold RemoveUnusedMasters.
      assert (FindUsedMasters (RemoveUnusedMedias pb) = Ok usedMasters) as ->.
      { unfold FindUsedMasters in *. simpl. by rewrite Hlb, Hmb. }
      simpl. rewrite forUnused_steps.
      apply (runSteps_noop removeMaster masterGone); [apply removeMaster_noop|].
      intros i Hi. exact (HgoneM i Hi).
    - apply RemoveUnusedMedias_idempotent. }
  split; [split|exact Hsame].
  - by apply (idempotent_onePerRemoved usedLayouts usedMasters p p1 pb).
  - intros (H1 & H2 & H3)%Hsame. unfold prune. rewrite H1. simpl. rewrite H2. simpl.
    by rewrite H3.
Qed.

(** The package of [Demo] with a master that has two relationships to one
    picture, and two to the layout that is kept. *)
Definition repeatedDoc : PowerpointDoc :=
  {| sourceFileReader := Demo.files;
     medias := medias Demo.doc;
     slideRels := slideRels Demo.doc;
     slideLayoutRels := slideLayoutRels Demo.doc;
     slideMasterRels :=
       [Demo.rels [Demo.rel "rId1" slideLayoutType "../slideLayouts/slideLayout1.xml";
                   Demo.rel "rId2" slideLayoutType "../slideLayouts/slideLayout2.xml";
                   Demo.rel "rId3" imageType "../media/image1.tiff";
                   Demo.rel "rId4" imageType "../media/image1.tiff";
                   Demo.rel "rId5" slideLayoutType "../slideLayouts/slideLayout1.xml"]];
     presentationRels := presentationRels Demo.doc;
     slideMasters := slideMasters Demo.doc;
     presentation := presentation Demo.doc;
     contentTypes := contentTypes Demo.doc |}.

(** The theorem on [repeatedDoc]: layout 2 is removed, it has one override
    and one relationship in the set of master 1; the repeated targets of
    that set are no obstacle. *)
Lemma prune_idempotent_witness :
  ~ NoDup (Target <$> Relationship_ (Demo.rels
             [Demo.rel "rId3" imageType "../media/image1.tiff";
              Demo.rel "rId4" imageType "../media/image1.tiff"]))
  /\ exists p',
       prune repeatedDoc = Ok p'
       /\ slideLayoutRels p' !! 1 = Some emptyRelationships
       /\ prune p' = Ok p'.
Proof.
  split.
  { intros [Hin _]%NoDup_cons. apply Hin. left. }
  destruct (RemoveUnusedLayouts repeatedDoc) as [p1|e] eqn:H1; [|discriminate H1].
  destruct (prune repeatedDoc) as [p'|e] eqn:Hp; [|discriminate Hp].
  exists p'. split; [reflexivity|]. split.
  { injection Hp as <-. reflexivity. }
  refine (proj2 (proj1
            (prune_idempotent repeatedDoc p1 p' [true; false] [true]
               eq_refl H1 _ Hp)) _).
  - injection H1 as <-. reflexivity.
  - split.
    + intros [|[|i]] Hi; try discriminate Hi. split; [vm_compute; lia|].
      intros [|j] rs Hj Hrs; [|discriminate Hj]. injection Hrs as <-.
      vm_compute. lia.
    + intros [|m] Hm; discriminate Hm.
Defined.

(** C8, counterexample: with two overrides for the unused layout 2, the
    first application deletes one of them and the second application
    deletes the other: the manifest is not the same after it. *)
Lemma prune_twice_counterexample :
  exists p1 p2,
    prune dupDoc = Ok p1 /\ prune p1 = Ok p2
    /\ PartName <$> Override (contentTypes p1)
       = ["/ppt/slideLayouts/slideLayout1.xml"; "/ppt/slideLayouts/slideLayout2.xml";
          "/ppt/slideMasters/slideMaster1.xml"]
    /\ PartName <$> Override (contentTypes p2)
       = ["/ppt/slideLayouts/slideLayout1.xml"; "/ppt/slideMasters/slideMaster1.xml"].
Proof.
  eexists. eexists. split; [vm_compute; reflexivity|].
  split; [vm_compute; reflexivity|]. split; reflexivity.
Qed.

(** * Further properties of the graph operations *)

(** ** Master reachability *)

(** Some layout has a slideMaster-type relationship whose target carries
    the number [n]. *)
Definition refersToMaster (p : PowerpointDoc) (n : Z) : Prop :=
  exists rels rel, rels ∈ slideLayoutRels p /\ rel ∈ Relationship_ rels
                   /\ Type_ rel = slideMasterType
                   /\ ObjectNumber.objectNumber (Target rel) = n.

(** X1: [FindUsedMasters] returns exactly when every slideMaster-type
    relationship of every layout has a target numbered between 1 and the
    number of master slots, and panics with an index out of range
    otherwise; when it returns, there is one mark per master slot and the
    mark of slot [i] is set if and only if some layout refers to master
    [i+1]. *)
Theorem FindUsedMasters_marks (p : PowerpointDoc) :
  (isOk (FindUsedMasters p) = true
   <-> forall rels rel,
         rels ∈ slideLayoutRels p -> rel ∈ Relationship_ rels ->
         Type_ rel = slideMasterType ->
         (1 <= ObjectNumber.objectNumber (Target rel)
          <= Z.of_nat (length (slideMasterRels p)))%Z)
  /\ (forall e, FindUsedMasters p = Abort e -> e = IndexOutOfRange)
  /\ (forall used, FindUsedMasters p = Ok used ->
        length used = length (slideMasterRels p)
        /\ forall i, used !! i = Some true
                     <-> i < length (slideMasterRels p)
                         /\ refersToMaster p (Z.of_nat i + 1)).
Proof.
  unfold FindUsedMasters. rewrite markAll_numbers. split; [|split].
  - rewrite isOk_true. split.
    + intros [used H]. apply markNumbers_Ok in H as (_ & H & _).
      rewrite length_replicate, Forall_forall in H.
      intros rels rel Hrels Hrel Hty. apply H, elem_of_references. eauto 10.
    + intros H. apply markNumbers_total. rewrite length_replicate, Forall_forall.
      intros n (rels & rel & ? & ? & ? & <-)%elem_of_references. eauto.
  - intros e. apply markNumbers_Abort.
  - intros used H. apply markNumbers_Ok in H as (Hlen & _ & Hiff).
    rewrite length_replicate in Hlen. split; [done|].
    intros i. rewrite Hiff, length_replicate. unfold refersToMaster.
    rewrite <- elem_of_references. split; [|by right]. intros [H|H]; [|done].
    by apply lookup_replicate in H as [[=] _].
Qed.

(** ** Master removal *)

Lemma removeFromPresentation_Abort target rels pres e :
  removeFromPresentation target rels pres = Abort e -> e <> FatalLog.
Proof.
  unfold removeFromPresentation. destruct (List.find _ _); [|done].
  destruct pres; [|by intros [= <-]].
  unfold removeMasterFromPresentation. by destruct (Etree.quotable _); [|intros [= <-]].
Qed.

Lemma removeMaster_Abort i p e : removeMaster i p = Abort e -> e <> FatalLog.
Proof.
  unfold removeMaster.
  destruct (removeFromPresentation _ _ _) as [[r1 d1]|e1] eqn:H1; simpl.
  - unfold setSlot. repeat (case_bool_decide; simpl); try done; by intros [= <-].
  - intros [= <-]. by eapply removeFromPresentation_Abort.
Qed.

(** What [removeMaster] needs besides its slots: a presentation tree and
    presentation relationship ids that can stand in a path. *)
Definition presentationReady (p : PowerpointDoc) : Prop :=
  is_Some (presentation p) /\ idsQuotable (presentationRels p).

Lemma removeFromPresentation_total target rels pres :
  is_Some pres -> idsQuotable rels ->
  exists rels' pres', removeFromPresentation target rels pres = Ok (rels', pres')
                      /\ is_Some pres'.
Proof.
  intros [d ->] Hq. unfold removeFromPresentation.
  destruct (List.find _ _) as [relm|] eqn:Hfind; [|eauto].
  apply find_Some_elem in Hfind as [Hrelm _].
  unfold removeMasterFromPresentation. rewrite (Hq _ Hrelm). simpl. eauto.
Qed.

Lemma removeMaster_total i p :
  i < length (slideMasterRels p) -> i < length (slideMasters p) ->
  presentationReady p ->
  exists p', removeMaster i p = Ok p' /\ presentationReady p'.
Proof.
  intros Hi Hi' [Hpres Hq]. unfold removeMaster.
  destruct (removeFromPresentation_total (masterTarget i) _ _ Hpres Hq)
    as (r1 & d1 & H1 & Hd1).
  pose proof (removeFromPresentation_Ok _ _ _ _ _ H1) as Hr1.
  rewrite H1. simpl. unfold setSlot. rewrite !bool_decide_eq_true_2 by done. simpl.
  eexists. split; [done|]. split; [done|]. simpl. subst r1.
  intros r Hr%elem_of_removeFirst. by apply Hq.
Qed.

Lemma runSteps_removeMaster_total slots p :
  (forall i, i ∈ slots -> i < length (slideMasterRels p) /\ i < length (slideMasters p)) ->
  presentationReady p ->
  exists p', runSteps removeMaster slots p = Ok p'.
Proof.
  revert p. induction slots as [|i slots IH]; intros p Hslots Hp; simpl; [eauto|].
  destruct (Hslots i) as [Hi Hi']; [left|].
  destruct (removeMaster_total i p Hi Hi' Hp) as (p1 & H1 & Hp1).
  rewrite H1. simpl. apply IH; [|done].
  intros k Hk. apply removeMaster_Ok in H1 as (_ & _ & _ & _ & _ & _ & -> & _ & -> & _).
  rewrite !length_insert. apply Hslots. by right.
Qed.

(** The package of [Demo] with a second master that no layout refers
    to. *)
Definition twoMasters : PowerpointDoc :=
  {| sourceFileReader :=
       (Demo.files ++ [Demo.file "ppt/slideMasters/slideMaster2.xml";
                       Demo.file "ppt/slideMasters/_rels/slideMaster2.xml.rels"])%list;
     medias := medias Demo.doc;
     slideRels := slideRels Demo.doc;
     slideLayoutRels := slideLayoutRels Demo.doc;
     slideMasterRels :=
       [Demo.master1;
        Demo.rels [Demo.rel "rId1"
                     "http://schemas.openxmlformats.org/officeDocument/2006/relationships/theme"
                     "../theme/theme2.xml"]];
     presentationRels :=
       Demo.rels [Demo.rel "rId1" slideMasterType "slideMasters/slideMaster1.xml";
                  Demo.rel "rId2" slideMasterType "slideMasters/slideMaster2.xml"];
     slideMasters := [Some (Demo.master ["rId1"; "rId2"]); Some (Demo.master [])];
     presentation :=
       Some {| Root := [Element "p" "presentation" []
                          [Element "p" "sldMasterIdLst" []
                             [Element "p" "sldMasterId"
                                [{| AttrSpace := "r"; AttrKey := "id"; AttrValue := "rId1" |}] [];
                              Element "p" "sldMasterId"
                                [{| AttrSpace := "r"; AttrKey := "id"; AttrValue := "rId2" |}] []]]] |};
     contentTypes := Demo.types ["/ppt/slideLayouts/slideLayout1.xml";
                                 "/ppt/slideLayouts/slideLayout2.xml";
                                 "/ppt/slideMasters/slideMaster1.xml";
                                 "/ppt/slideMasters/slideMaster2.xml"] |}.

(** X2: [RemoveUnusedMasters] tombstones the unmarked masters.  It returns
    whenever there are at least as many master trees as master
    relationship sets and the presentation tree is there (with
    relationship ids that can be quoted in a path); and whenever it
    returns, every master slot whose mark is not set has an empty
    relationship set and a nil tree, every marked slot keeps both, the
    number of slots is the same (no renumbering), and slides, layouts and
    media are not touched. *)
Theorem RemoveUnusedMasters_tombstones (p : PowerpointDoc) (used : list bool) :
  FindUsedMasters p = Ok used ->
  (length (slideMasterRels p) <= length (slideMasters p) ->
   presentation p <> None ->
   (forall r, r ∈ Relationship_ (presentationRels p) -> Etree.quotable (Id r) = true) ->
   exists p', RemoveUnusedMasters p = Ok p')
  /\ (forall p', RemoveUnusedMasters p = Ok p' ->
        length (slideMasterRels p') = length (slideMasterRels p)
        /\ length (slideMasters p') = length (slideMasters p)
        /\ slideRels p' = slideRels p
        /\ slideLayoutRels p' = slideLayoutRels p
        /\ medias p' = medias p
        /\ (forall i, used !! i = Some false ->
              slideMasterRels p' !! i = Some emptyRelationships
              /\ slideMasters p' !! i = Some None)
        /\ (forall i, used !! i = Some true ->
              slideMasterRels p' !! i = slideMasterRels p !! i
              /\ slideMasters p' !! i = slideMasters p !! i)).
Proof.
  intros Hu. split.
  - intros Hlen Hpres Hq. unfold RemoveUnusedMasters. rewrite Hu. simpl.
    rewrite forUnused_steps. apply runSteps_removeMaster_total.
    + intros i (j & -> & Hj)%elem_of_unusedFrom. apply lookup_lt_Some in Hj.
      unfold FindUsedMasters in Hu. rewrite markAll_numbers in Hu.
      apply markNumbers_Ok in Hu as (Hl & _). rewrite length_replicate in Hl.
      simpl. lia.
    + split; [by destruct (presentation p) | exact Hq].
  - intros p' H. unfold RemoveUnusedMasters in H. rewrite Hu in H. simpl in H.
    rewrite forUnused_steps in H.
    pose proof (runSteps_removeMaster_frame _ _ _ H) as (Hs & Hl & _).
    assert (medias p' = medias p) as Hmed.
    { apply (runSteps_invariant removeMaster (fun q => medias q = medias p))
        with (slots := unusedFrom 0 used) (p := p); [|done|done].
      intros i q q' Hq (_ & _ & _ & -> & _)%removeMaster_Ok. done. }
    apply runSteps_removeMaster_slots in H as (Hlen1 & Hlen2 & _ & Hslot1 & Hslot2).
    repeat split; try done.
    + rewrite Hslot1, decide_True; [done|]. apply elem_of_unusedFrom. by exists i.
    + rewrite Hslot2, decide_True; [done|]. apply elem_of_unusedFrom. by exists i.
    + rewrite Hslot1, decide_False; [done|].
      intros (j & Hj & Hf)%elem_of_unusedFrom. simpl in Hj. subst j. congruence.
    + rewrite Hslot2, decide_False; [done|].
      intros (j & Hj & Hf)%elem_of_unusedFrom. simpl in Hj. subst j. congruence.
Qed.

(** The theorem on [twoMasters]: the pass returns, master 1 keeps its
    relationship set and its tree, master 2 is tombstoned. *)
Lemma RemoveUnusedMasters_tombstones_witness :
  FindUsedMasters twoMasters = Ok [true; false]
  /\ exists p',
       RemoveUnusedMasters twoMasters = Ok p'
       /\ slideMasterRels p' !! 0 = Some Demo.master1
       /\ slideMasters p' !! 0 = Some (Some (Demo.master ["rId1"; "rId2"]))
       /\ slideMasterRels p' !! 1 = Some emptyRelationships
       /\ slideMasters p' !! 1 = Some None.
Proof.
  split; [reflexivity|].
  destruct (RemoveUnusedMasters_tombstones twoMasters [true; false] eq_refl)
    as [Hreturns Hslots].
  destruct Hreturns as [p' Hp'].
  { simpl. lia. }
  { discriminate. }
  { intros r Hr. simpl in Hr. apply elem_of_cons in Hr as [->|Hr]; [reflexivity|].
    apply list_elem_of_singleton in Hr as ->. reflexivity. }
  exists p'. split; [exact Hp'|].
  destruct (Hslots p' Hp') as (_ & _ & _ & _ & _ & Hfalse & Htrue).
  destruct (Htrue 0 eq_refl) as [-> ->]. destruct (Hfalse 1 eq_refl) as [-> ->].
  repeat split; reflexivity.
Defined.

(** X3: [RemoveUnusedMasters] never ends in [log.Fatal]; it returns
    whenever the master marks can be computed, there are at least as many
    master trees as master relationship sets, and the presentation tree is
    there (with relationship ids that can be quoted in a path); and it
    does not return when an unmarked master slot has no slot in
    [p.slideMasters] (a master [_rels] entry without a master body):
    [p.slideMasters[i] = nil] is then out of range. *)
Theorem RemoveUnusedMasters_returns (p : PowerpointDoc) :
  (forall e, RemoveUnusedMasters p = Abort e -> e <> FatalLog)
  /\ (isOk (FindUsedMasters p) = true ->
      length (slideMasterRels p) <= length (slideMasters p) ->
      presentation p <> None ->
      (forall r, r ∈ Relationship_ (presentationRels p) -> Etree.quotable (Id r) = true) ->
      isOk (RemoveUnusedMasters p) = true)
  /\ (forall used i,
        FindUsedMasters p = Ok used -> used !! i = Some false ->
        length (slideMasters p) <= i ->
        isOk (RemoveUnusedMasters p) = false).
Proof.
  split; [|split].
  - intros e. unfold RemoveUnusedMasters.
    destruct (FindUsedMasters p) as [used|e1] eqn:Hu; simpl.
    + rewrite forUnused_steps. apply runSteps_Abort. apply removeMaster_Abort.
    + intros [= <-]. unfold FindUsedMasters in Hu. rewrite markAll_numbers in Hu.
      by apply markNumbers_Abort in Hu as ->.
  - intros [used Hu]%isOk_true Hlen Hpres Hq. unfold RemoveUnusedMasters.
    rewrite Hu. simpl. rewrite forUnused_steps.
    apply isOk_true, runSteps_removeMaster_total.
    + intros i (j & -> & Hj)%elem_of_unusedFrom. apply lookup_lt_Some in Hj.
      unfold FindUsedMasters in Hu. rewrite markAll_numbers in Hu.
      apply markNumbers_Ok in Hu as (Hl & _). rewrite length_replicate in Hl.
      simpl. lia.
    + split; [by destruct (presentation p) | exact Hq].
  - intros used i Hu Hi Hshort. unfold RemoveUnusedMasters. rewrite Hu. simpl.
    rewrite forUnused_steps.
    destruct (runSteps removeMaster _ p) as [p'|e] eqn:H; [|done]. exfalso.
    apply runSteps_removeMaster_slots in H as (_ & _ & Hin & _).
    destruct (Hin i) as [_ Hlt]; [|lia].
    apply elem_of_unusedFrom. by exists i.
Qed.

(** ** The cascade from slides to masters and media *)

(** X4: in the pruning sequence a master is reached through used layouts
    only.  After [RemoveUnusedLayouts], the mark [FindUsedMasters] gives
    to master slot [m] is set if and only if a layout that some slide
    uses has, in its original relationship set, a slideMaster-type
    relationship whose target carries the number [m+1]; what a removed
    layout refers to does not count. *)
Theorem masters_reached_through_used_layouts
    (p p1 : PowerpointDoc) (usedLayouts usedMasters : list bool) :
  FindUsedLayouts p = Ok usedLayouts ->
  RemoveUnusedLayouts p = Ok p1 ->
  FindUsedMasters p1 = Ok usedMasters ->
  length usedMasters = length (slideMasterRels p)
  /\ forall m,
       usedMasters !! m = Some true
       <-> m < length (slideMasterRels p)
           /\ exists i rels rel,
                usedLayouts !! i = Some true
                /\ slideLayoutRels p !! i = Some rels
                /\ rel ∈ Relationship_ rels
                /\ Type_ rel = slideMasterType
                /\ ObjectNumber.objectNumber (Target rel) = (Z.of_nat m + 1)%Z.
Proof.
  intros HuL HL HuM.
  pose proof (FindUsedLayouts_spec _ _ HuL) as [HlenL _].
  unfold RemoveUnusedLayouts in HL. rewrite HuL in HL. simpl in HL.
  rewrite forUnused_steps in HL.
  pose proof (runSteps_removeLayout_masterSlots _ _ _ HL) as Hm.
  apply runSteps_removeLayout_slots in HL as (_ & Hlen & Hslots).
  unfold FindUsedMasters in HuM. rewrite markAll_numbers in HuM.
  apply markNumbers_Ok in HuM as (HlenM & _ & Hiff).
  rewrite length_replicate in HlenM, Hiff. rewrite Hm in HlenM, Hiff.
  split; [done|]. intros m. rewrite Hiff, elem_of_references. split.
  - intros [H|[Hlt (rels & rel & Hrels & Hrel & Hty & Hn)]].
    { by apply lookup_replicate in H as [[=] _]. }
    split; [done|].
    apply list_elem_of_lookup in Hrels as [i Hi].
    pose proof (lookup_lt_Some _ _ _ Hi) as Hilt. rewrite Hlen in Hilt.
    rewrite Hslots in Hi by done.
    destruct (decide (i ∈ unusedFrom 0 usedLayouts)) as [Hin|Hin].
    { injection Hi as <-. by apply elem_of_nil in Hrel. }
    exists i, rels, rel. repeat split; try done.
    destruct (usedLayouts !! i) as [[|]|] eqn:Hb; [done| |].
    + exfalso. apply Hin, elem_of_unusedFrom. by exists i.
    + apply lookup_ge_None in Hb. lia.
  - intros [Hlt (i & rels & rel & Hb & Hi & Hrel & Hty & Hn)]. right.
    split; [done|]. exists rels, rel. repeat split; try done.
    apply list_elem_of_lookup. exists i.
    rewrite Hslots by (by eapply lookup_lt_Some).
    rewrite decide_False; [done|].
    intros (j & Hj & Hf)%elem_of_unusedFrom. simpl in Hj. subst j. congruence.
Qed.

Lemma masters_reached_witness :
  exists p1,
    RemoveUnusedLayouts Demo.doc = Ok p1
    /\ FindUsedMasters p1 = Ok [true]
    /\ length [true] = length (slideMasterRels Demo.doc).
Proof.
  eexists. split; [reflexivity|]. split; [reflexivity|].
  exact (proj1 (masters_reached_through_used_layouts Demo.doc _ [true; false] [true]
                  eq_refl eq_refl eq_refl)).
Defined.

(** What the pruning passes keep of a graph [p]. *)
Definition prunedFrom (p q : PowerpointDoc) : Prop :=
  sourceFileReader q = sourceFileReader p
  /\ slideRels q = slideRels p
  /\ length (slideLayoutRels q) = length (slideLayoutRels p)
  /\ length (slideMasterRels q) = length (slideMasterRels p)
  /\ length (slideMasters q) = length (slideMasters p)
  /\ medias q ⊆ medias p
  /\ Default (contentTypes q) = Default (contentTypes p)
  /\ Override (contentTypes q) `sublist_of` Override (contentTypes p)
  /\ Relationship_ (presentationRels q) `sublist_of` Relationship_ (presentationRels p).

Lemma removeLayout_prunedFrom p i q q' :
  prunedFrom p q -> removeLayout i q = Ok q' -> prunedFrom p q'.
Proof.
  intros (H1 & H2 & H3 & H4 & H5 & H6 & H7 & H8 & H9) Hstep.
  apply removeLayout_Ok in Hstep
    as (_ & E1 & E2 & E3 & E4 & E5 & E6 & Hlen & _ & E7).
  unfold prunedFrom.
  rewrite E1, E2, E3, E4, E5, E6, E7, length_insert, length_fmap, Hlen.
  repeat split; try done.
  simpl. etrans; [apply removeFirst_sublist | done].
Qed.

Lemma removeMaster_prunedFrom p i q q' :
  prunedFrom p q -> removeMaster i q = Ok q' -> prunedFrom p q'.
Proof.
  intros (H1 & H2 & H3 & H4 & H5 & H6 & H7 & H8 & H9) Hstep.
  apply removeMaster_Ok in Hstep
    as (_ & _ & E1 & E2 & E3 & E4 & E5 & E6 & E7 & E8).
  unfold prunedFrom.
  rewrite E1, E2, E3, E4, E5, E6, E7, E8, !length_insert. repeat split; try done.
  - simpl. etrans; [apply removeFirst_sublist | done].
  - simpl. etrans; [apply removeFirst_sublist | done].
Qed.

(** X5: the pruning sequence only takes away.  Slides are never touched,
    the numbered collections keep their length (removed parts leave their
    slot, nothing is renumbered), the media index, the manifest overrides
    and the presentation relationships of the result are sub-collections
    of the original ones in the original order, and the source archive
    and the manifest defaults stay as they are. *)
Theorem prune_only_removes (p p' : PowerpointDoc) :
  prune p = Ok p' ->
  sourceFileReader p' = sourceFileReader p
  /\ slideRels p' = slideRels p
  /\ length (slideLayoutRels p') = length (slideLayoutRels p)
  /\ length (slideMasterRels p') = length (slideMasterRels p)
  /\ length (slideMasters p') = length (slideMasters p)
  /\ medias p' ⊆ medias p
  /\ Default (contentTypes p') = Default (contentTypes p)
  /\ Override (contentTypes p') `sublist_of` Override (contentTypes p)
  /\ Relationship_ (presentationRels p') `sublist_of` Relationship_ (presentationRels p).
Proof.
  intros H. unfold prune in H.
  apply bind_Ok in H as (pa & HL & H). apply bind_Ok in H as (pb & HM & [= <-]).
  unfold RemoveUnusedLayouts in HL. apply bind_Ok in HL as (uL & _ & HL).
  unfold RemoveUnusedMasters in HM. apply bind_Ok in HM as (uM & _ & HM).
  rewrite forUnused_steps in HL, HM.
  assert (prunedFrom p pa) as Ha.
  { eapply (runSteps_invariant removeLayout (prunedFrom p));
      [intros i q q'; apply removeLayout_prunedFrom | | exact HL].
    by repeat split. }
  assert (prunedFrom p pb) as (H1 & H2 & H3 & H4 & H5 & H6 & H7 & H8 & H9).
  { eapply (runSteps_invariant removeMaster (prunedFrom p));
      [intros i q q'; apply removeMaster_prunedFrom | exact Ha | exact HM]. }
  simpl. repeat split; try done.
  etrans; [apply map_filter_subseteq | done].
Qed.

Lemma prune_only_removes_witness :
  exists p',
    prune Demo.doc = Ok p'
    /\ slideRels p' = slideRels Demo.doc
    /\ length (slideLayoutRels p') = length (slideLayoutRels Demo.doc).
Proof.
  eexists. split; [vm_compute; reflexivity|].
  pose proof (prune_only_removes Demo.doc _ eq_refl) as (_ & H1 & H2 & _).
  exact (conj H1 H2).
Defined.

(** X6: [RemoveUnusedMedias] keeps a media entry, as it is, exactly when
    its key is ["ppt/media/"] followed by the base name of the target of
    some image-type relationship of a slide, layout or master relationship
    set; every other entry is deleted and nothing else changes. *)
Theorem RemoveUnusedMedias_keeps_referenced (p : PowerpointDoc) (k : string) (m : Media) :
  (medias (RemoveUnusedMedias p) !! k = Some m
   <-> medias p !! k = Some m
       /\ exists rels rel,
            rels ∈ (slideRels p ++ slideLayoutRels p ++ slideMasterRels p)%list
            /\ rel ∈ Relationship_ rels
            /\ Type_ rel = imageType
            /\ "ppt/media/" ++ Strings.Base (Target rel) = k)
  /\ slideRels (RemoveUnusedMedias p) = slideRels p
  /\ slideLayoutRels (RemoveUnusedMedias p) = slideLayoutRels p
  /\ slideMasterRels (RemoveUnusedMedias p) = slideMasterRels p
  /\ slideMasters (RemoveUnusedMedias p) = slideMasters p
  /\ contentTypes (RemoveUnusedMedias p) = contentTypes p.
Proof.
  split; [|done]. unfold RemoveUnusedMedias, FindUsedMedias, imageKeys. simpl.
  rewrite map_lookup_filter_Some. simpl.
  rewrite elem_of_list_to_set, list_elem_of_fmap.
  split; intros [Hk H]; (split; [done|]).
  - destruct H as (rel & -> & Hin). apply list_elem_of_filter in Hin as [Hty Hin].
    apply list_elem_of_join in Hin as (l & Hrel & Hl).
    apply list_elem_of_fmap in Hl as (rels & -> & Hrels). eauto 10.
  - destruct H as (rels & rel & Hrels & Hrel & Hty & <-). exists rel. split; [done|].
    apply list_elem_of_filter. split; [done|].
    apply list_elem_of_join. exists (Relationship_ rels). split; [done|].
    apply list_elem_of_fmap. eauto.
Qed.

(** ** Numbers written into names and read back *)

Fixpoint allBytes (f : ascii -> bool) (s : string) : bool :=
  match s with
  | EmptyString => true
  | String c r => f c && allBytes f r
  end.

Definition notDigit (c : ascii) : bool := negb (ObjectNumber.isDigit c).

(** [r] does not go on with a byte of the class [f]. *)
Definition stopsAt (f : ascii -> bool) (r : string) : Prop :=
  match r with
  | EmptyString => True
  | String c _ => f c = false
  end.

Lemma span_all f s r :
  allBytes f s = true -> stopsAt f r -> ObjectNumber.span f (s ++ r) = (s, r).
Proof.
  induction s as [|c s IH]; simpl.
  - intros _ Hr. destruct r as [|x r]; simpl in *; [done | by rewrite Hr].
  - intros [Hc Hs]%andb_true_iff Hr. by rewrite Hc, IH.
Qed.

Lemma digit_not_letter c : ObjectNumber.isDigit c = true -> ObjectNumber.isLetter c = false.
Proof.
  unfold ObjectNumber.isDigit, ObjectNumber.isLetter.
  rewrite andb_true_iff, orb_false_iff, !andb_false_iff, !Nat.leb_le, !Nat.leb_gt. lia.
Qed.

Lemma span_letters_stop s t :
  allBytes notDigit s = true ->
  exists L x r,
    ObjectNumber.span ObjectNumber.isLetter (s ++ String "/" t) = (L, String x r)
    /\ ObjectNumber.isDigit x = false.
Proof.
  induction s as [|c s IH]; simpl.
  - intros _. by exists "", "/"%char, t.
  - intros [Hc Hs]%andb_true_iff. destruct (ObjectNumber.isLetter c) eqn:Hl.
    + destruct (IH Hs) as (L & x & r & -> & Hx). eauto.
    + exists "", c, (s ++ String "/" t). split; [done|].
      unfold notDigit in Hc. by destruct (ObjectNumber.isDigit c).
Qed.

Lemma matchHere_before_last_slash c s t :
  allBytes notDigit s = true ->
  ObjectNumber.matchHere (String c (s ++ String "/" t)) = None.
Proof.
  intros Hs. simpl. destruct (Strings.isSlash c); [|done].
  destruct (span_letters_stop s t Hs) as (L & x & r & -> & Hx).
  destruct L; [done|]. simpl. by rewrite Hx.
Qed.

Lemma FindStringSubmatch_unfold s :
  ObjectNumber.FindStringSubmatch s
  = match ObjectNumber.matchHere s with
    | Some d => Some d
    | None => match s with
              | String _ r => ObjectNumber.FindStringSubmatch r
              | EmptyString => None
              end
    end.
Proof. by destruct s. Qed.

Lemma FindStringSubmatch_skip s t :
  allBytes notDigit s = true ->
  ObjectNumber.FindStringSubmatch (s ++ String "/" t)
  = ObjectNumber.FindStringSubmatch (String "/" t).
Proof.
  induction s as [|c s IH]; [done|]. intros [Hc Hs]%andb_true_iff.
  rewrite FindStringSubmatch_unfold.
  change (String c s ++ String "/" t) with (String c (s ++ String "/" t)).
  rewrite matchHere_before_last_slash by done. by apply IH.
Qed.

Lemma matchHere_numbered letters digits post :
  allBytes ObjectNumber.isLetter letters = true -> letters <> "" ->
  allBytes ObjectNumber.isDigit digits = true -> digits <> "" ->
  ObjectNumber.matchHere (String "/" (letters ++ digits ++ ".xml" ++ post)) = Some digits.
Proof.
  intros Hl Hl0 Hd Hd0. unfold ObjectNumber.matchHere.
  change (Strings.isSlash "/") with true. cbv iota.
  assert (stopsAt ObjectNumber.isLetter (digits ++ ".xml" ++ post)) as Hstop.
  { destruct digits as [|x ds]; [done|]. simpl in *.
    apply andb_true_iff in Hd as [Hx _]. by apply digit_not_letter. }
  rewrite (span_all _ letters) by done.
  destruct letters as [|l ls]; [done|].
  rewrite (span_all _ digits) by done.
  destruct digits; [done|]. by rewrite prefix_append.
Qed.

Lemma string_of_uint_digits d :
  allBytes ObjectNumber.isDigit (NilEmpty.string_of_uint d) = true.
Proof. induction d; simpl; done. Qed.

Lemma digitsValue_uint d k :
  ObjectNumber.digitsValue (NilEmpty.string_of_uint d) (Z.of_nat k)
  = Z.of_nat (Nat.of_uint_acc d k).
Proof.
  revert k. induction d; intros k; simpl; [done|..];
    match goal with
    | |- ObjectNumber.digitsValue _ ?a = Z.of_nat (Nat.of_uint_acc _ ?k') =>
        replace a with (Z.of_nat k'); [apply IHd|]
    end;
    rewrite Nat.tail_mul_spec; set (c := nat_of_ascii _); vm_compute in c; lia.
Qed.

Lemma itoa_value n : ObjectNumber.digitsValue (Strings.itoa n) 0 = Z.of_nat n.
Proof.
  unfold Strings.itoa. rewrite (digitsValue_uint _ 0).
  change (Nat.of_uint_acc (Nat.to_uint n) 0) with (Nat.of_uint (Nat.to_uint n)).
  by rewrite DecimalNat.Unsigned.of_to.
Qed.

Lemma itoa_nonempty n : Strings.itoa n <> "".
Proof.
  intros H. pose proof (itoa_value n) as Hv. rewrite H in Hv. simpl in Hv.
  assert (n = 0) as -> by lia. discriminate H.
Qed.

Lemma getObjectNumber_numbered stem letters n post :
  allBytes notDigit stem = true ->
  allBytes ObjectNumber.isLetter letters = true -> letters <> "" ->
  ObjectNumber.getObjectNumberFromFilename
    (stem ++ String "/" (letters ++ Strings.itoa n ++ ".xml" ++ post))
  = if bool_decide (Z.of_nat n <= ObjectNumber.maxInt)%Z
    then (Z.of_nat n, None)
    else (0%Z, Some ("invalid slide number "
                     ++ stem ++ String "/" (letters ++ Strings.itoa n ++ ".xml" ++ post))).
Proof.
  intros Hs Hl Hl0. unfold ObjectNumber.getObjectNumberFromFilename.
  rewrite FindStringSubmatch_skip, FindStringSubmatch_unfold by done.
  rewrite matchHere_numbered;
    [|done|done|apply string_of_uint_digits|apply itoa_nonempty].
  unfold ObjectNumber.Atoi. rewrite itoa_value.
  case_bool_decide as Hn.
  - by rewrite (proj2 (Z.leb_le _ _) Hn).
  - rewrite (proj2 (Z.leb_gt _ _)); [done | lia].
Qed.

(** X7: a number the program writes into a part name is the number it reads
    back from it.  For every slot [i] whose number [i+1] fits an [int],
    [getObjectNumberFromFilename] returns [i+1] and no error on the
    [_rels] entry names written by [saveAllRelationships], on the
    relationship targets and manifest part names that the pruning passes
    compare with, and on a slide-master body name. *)
Theorem objectNumber_of_written_names (i : nat) :
  (Z.of_nat (i + 1) <= ObjectNumber.maxInt)%Z ->
  Forall (fun name =>
            ObjectNumber.getObjectNumberFromFilename name = (Z.of_nat (i + 1), None))
    [relsPath "slide" i; relsPath "slideLayout" i; relsPath "slideMaster" i;
     layoutTarget i; masterTarget i; layoutPartName i; masterPartName i;
     "ppt/slideMasters/slideMaster" ++ Strings.itoa (i + 1) ++ ".xml";
     "ppt/slideLayouts/slideLayout" ++ Strings.itoa (i + 1) ++ ".xml"].
Proof.
  intros Hi.
  pose proof (fun stem letters post H1 H2 H3 =>
                getObjectNumber_numbered stem letters (i + 1) post H1 H2 H3) as H.
  rewrite bool_decide_eq_true_2 in H by done.
  repeat constructor.
  - exact (H "ppt/slides/_rels" "slide" ".rels" eq_refl eq_refl ltac:(done)).
  - exact (H "ppt/slideLayouts/_rels" "slideLayout" ".rels" eq_refl eq_refl ltac:(done)).
  - exact (H "ppt/slideMasters/_rels" "slideMaster" ".rels" eq_refl eq_refl ltac:(done)).
  - exact (H "../slideLayouts" "slideLayout" "" eq_refl eq_refl ltac:(done)).
  - exact (H "slideMasters" "slideMaster" "" eq_refl eq_refl ltac:(done)).
  - exact (H "/ppt/slideLayouts" "slideLayout" "" eq_refl eq_refl ltac:(done)).
  - exact (H "/ppt/slideMasters" "slideMaster" "" eq_refl eq_refl ltac:(done)).
  - exact (H "ppt/slideMasters" "slideMaster" "" eq_refl eq_refl ltac:(done)).
  - exact (H "ppt/slideLayouts" "slideLayout" "" eq_refl eq_refl ltac:(done)).
Qed.

Lemma objectNumber_of_written_names_witness :
  ObjectNumber.getObjectNumberFromFilename (relsPath "slide" 41) = (42%Z, None).
Proof.
  assert (Z.of_nat (41 + 1) <= ObjectNumber.maxInt)%Z as H by (vm_compute; discriminate).
  exact (Forall_inv (objectNumber_of_written_names 41 H)).
Defined.

(** ** Placing a part at its slot *)

Lemma updateSlot_Ok {A} (zero : A) (l : list A) (pos : Z) (x : A) :
  (1 <= pos)%Z ->
  exists l',
    updateSlot zero l pos x = Ok l'
    /\ length l' = Nat.max (length l) (Z.to_nat pos)
    /\ l' !! Z.to_nat (pos - 1) = Some x
    /\ (forall i, i <> Z.to_nat (pos - 1) -> i < length l -> l' !! i = l !! i)
    /\ (forall i, i <> Z.to_nat (pos - 1) -> length l <= i < Z.to_nat pos ->
                  l' !! i = Some zero).
Proof.
  intros Hpos. unfold updateSlot. rewrite (bool_decide_eq_true_2 (1 <= pos)%Z) by done.
  eexists. split; [done|]. case_bool_decide as Hgrow.
  - rewrite length_insert, length_app, length_replicate.
    split; [lia|]. split; [|split].
    + apply list_lookup_insert_eq. rewrite length_app, length_replicate. lia.
    + intros i Hne Hi. rewrite list_lookup_insert_ne by done. by apply lookup_app_l.
    + intros i Hne Hi. rewrite list_lookup_insert_ne by done.
      rewrite lookup_app_r by lia. apply lookup_replicate_2. lia.
  - rewrite length_insert. split; [lia|]. split; [|split].
    + apply list_lookup_insert_eq. lia.
    + intros i Hne Hi. by rewrite list_lookup_insert_ne.
    + intros i Hne Hi. lia.
Qed.

(** X8: [updateRelationships] and [updateSlideMasters] put a part at the
    slot of its number.  For a number [pos >= 1] the result has
    [max(len, pos)] slots, slot [pos-1] holds the new part, every other
    old slot is kept, and the slots added in between are empty (a zero
    relationship set, a nil tree); for [pos = 0] the write goes to index
    [-1] and panics. *)
Theorem updateRelationships_places
    (rels : list Relationships) (sms : list (option Document))
    (pos : Z) (r : Relationships) (sm : Document) :
  ((pos < 1)%Z ->
     updateRelationships rels pos r = Abort IndexOutOfRange
     /\ updateSlideMasters sms pos sm = Abort IndexOutOfRange)
  /\ ((1 <= pos)%Z ->
      (exists rels',
         updateRelationships rels pos r = Ok rels'
         /\ length rels' = Nat.max (length rels) (Z.to_nat pos)
         /\ rels' !! Z.to_nat (pos - 1) = Some r
         /\ (forall i, i <> Z.to_nat (pos - 1) -> i < length rels ->
                       rels' !! i = rels !! i)
         /\ (forall i, i <> Z.to_nat (pos - 1) -> length rels <= i < Z.to_nat pos ->
                       rels' !! i = Some emptyRelationships))
      /\ (exists sms',
            updateSlideMasters sms pos sm = Ok sms'
            /\ length sms' = Nat.max (length sms) (Z.to_nat pos)
            /\ sms' !! Z.to_nat (pos - 1) = Some (Some sm)
            /\ (forall i, i <> Z.to_nat (pos - 1) -> i < length sms ->
                          sms' !! i = sms !! i)
            /\ (forall i, i <> Z.to_nat (pos - 1) -> length sms <= i < Z.to_nat pos ->
                          sms' !! i = Some None))).
Proof.
  split.
  - intros Hpos. unfold updateRelationships, updateSlideMasters, updateSlot.
    by rewrite !(bool_decide_eq_false_2 (1 <= pos)%Z) by lia.
  - intros Hpos. split; by apply updateSlot_Ok.
Qed.

(** ** What the writer emits for the numbered collections *)

Lemma elem_of_saveAllRelationships marshalRelationships rels reltype k e :
  e ∈ saveAllRelationships marshalRelationships rels reltype k
  <-> exists i r, rels !! i = Some r /\ Relationship_ r <> []
                  /\ e = saveRelationships marshalRelationships r (relsPath reltype (k + i)).
Proof.
  revert k. induction rels as [|r0 rels IH]; intros k; simpl.
  - rewrite elem_of_nil. split; [done|]. by intros (i & r & Hi & _).
  - assert ((exists i r, (r0 :: rels) !! i = Some r /\ Relationship_ r <> []
                 /\ e = saveRelationships marshalRelationships r (relsPath reltype (k + i)))
            <-> (Relationship_ r0 <> []
                 /\ e = saveRelationships marshalRelationships r0 (relsPath reltype k))
                \/ e ∈ saveAllRelationships marshalRelationships rels reltype (S k)) as ->.
    { rewrite IH. split.
      - intros ([|i] & r & Hi & Hr & He); simpl in Hi.
        + injection Hi as <-. left. by rewrite Nat.add_0_r in He.
        + right. exists i, r. by rewrite Nat.add_succ_comm.
      - intros [[Hr He]|(i & r & Hi & Hr & He)].
        + exists 0, r0. by rewrite Nat.add_0_r.
        + exists (S i), r. by rewrite <- Nat.add_succ_comm. }
    destruct (Relationship_ r0) eqn:Hr0.
    + split; [by right | by intros [[? _]|?]].
    + rewrite elem_of_cons. split; (intros [H|H]; [left|by right]); [done | by destruct H].
Qed.

(** The name under which the tree of master slot [i] is written. *)
Definition masterBodyName (i : nat) : string :=
  "ppt/slideMasters/slideMaster" ++ Strings.itoa (i + 1) ++ ".xml".

Lemma saveMasters_cons writeDocument sm0 sms k :
  saveMasters writeDocument (sm0 :: sms) k
  = match sm0 with
    | Some sm => {| EntryName := masterBodyName k; EntryData := writeDocument sm |}
                 :: saveMasters writeDocument sms (S k)
    | None => saveMasters writeDocument sms (S k)
    end.
Proof. by destruct sm0. Qed.

Lemma elem_of_saveMasters writeDocument sms k e :
  e ∈ saveMasters writeDocument sms k
  <-> exists i sm, sms !! i = Some (Some sm)
        /\ e = {| EntryName := masterBodyName (k + i); EntryData := writeDocument sm |}.
Proof.
  revert k. induction sms as [|sm0 sms IH]; intros k.
  - simpl. rewrite elem_of_nil. split; [done|]. by intros (i & r & Hi & _).
  - rewrite saveMasters_cons.
    assert ((exists i sm, (sm0 :: sms) !! i = Some (Some sm)
                 /\ e = {| EntryName := masterBodyName (k + i);
                           EntryData := writeDocument sm |})
            <-> (exists sm, sm0 = Some sm
                   /\ e = {| EntryName := masterBodyName k;
                             EntryData := writeDocument sm |})
                \/ e ∈ saveMasters writeDocument sms (S k)) as ->.
    { rewrite IH. split.
      - intros ([|i] & sm & Hi & He); simpl in Hi.
        + injection Hi as ->. left. exists sm. by rewrite Nat.add_0_r in He.
        + right. exists i, sm. by rewrite Nat.add_succ_comm.
      - intros [(sm & -> & He)|(i & sm & Hi & He)].
        + exists 0, sm. by rewrite Nat.add_0_r.
        + exists (S i), sm. by rewrite <- Nat.add_succ_comm. }
    destruct sm0 as [sm|].
    + rewrite elem_of_cons. split; (intros [H|H]; [left|by right]).
      * by exists sm.
      * by destruct H as (? & [= <-] & ->).
    + split; [by right | by intros [(? & [=] & _)|?]].
Qed.

(** X9: what [saveAllRelationships] writes is read back to the same slot.
    For each of the three numbered collections, a non-empty relationship
    set at slot [i] (with [i+1] fitting an [int]) is written under a name
    that [parseAllRelationships] of the same collection accepts and
    numbers [i+1]: if the XML codec reads back what it wrote, parsing
    that entry puts the set at slot [i] again and keeps the other
    slots. *)
Theorem saved_relationships_parse_back
    (marshalRelationships : Relationships -> string)
    (unmarshalRelationships : string -> option Relationships)
    (reltype : string) (rels acc : list Relationships) (i : nat) (r : Relationships)
    (sz : Z) :
  reltype ∈ ["slide"; "slideLayout"; "slideMaster"] ->
  rels !! i = Some r -> Relationship_ r <> [] ->
  (Z.of_nat (i + 1) <= ObjectNumber.maxInt)%Z ->
  unmarshalRelationships (xmlHeader ++ marshalRelationships r) = Some r ->
  exists e acc',
    e ∈ saveAllRelationships marshalRelationships rels reltype 0
    /\ EntryName e = relsPath reltype i
    /\ parseAllRelationships unmarshalRelationships acc reltype
         {| Name := EntryName e; UncompressedSize64 := sz; Content := EntryData e |}
       = Ok acc'
    /\ acc' !! i = Some r
    /\ forall j, j <> i -> j < length acc -> acc' !! j = acc !! j.
Proof.
  intros Hty Hi Hr Hn Hcodec.
  exists (saveRelationships marshalRelationships r (relsPath reltype i)).
  assert (Strings.HasPrefix (relsPath reltype i) ("ppt/" ++ reltype ++ "s/_rels/") = true
          /\ ObjectNumber.objectNumber (relsPath reltype i) = Z.of_nat (i + 1))
    as [Hpre Hnum].
  { pose proof (fun stem letters post H1 H2 H3 =>
                  getObjectNumber_numbered stem letters (i + 1) post H1 H2 H3) as H.
    rewrite bool_decide_eq_true_2 in H by done.
    unfold ObjectNumber.objectNumber.
    repeat (apply elem_of_cons in Hty as [->|Hty]); [| | |by apply elem_of_nil in Hty].
    - split; [reflexivity|].
      exact (f_equal fst (H "ppt/slides/_rels" "slide" ".rels" eq_refl eq_refl
                            ltac:(done))).
    - split; [reflexivity|].
      exact (f_equal fst (H "ppt/slideLayouts/_rels" "slideLayout" ".rels" eq_refl eq_refl
                            ltac:(done))).
    - split; [reflexivity|].
      exact (f_equal fst (H "ppt/slideMasters/_rels" "slideMaster" ".rels" eq_refl eq_refl
                            ltac:(done))). }
  destruct (updateSlot_Ok emptyRelationships acc (Z.of_nat (i + 1)) r)
    as (acc' & Hacc & _ & Hslot & Hold & _); [lia|].
  replace (Z.to_nat (Z.of_nat (i + 1) - 1)) with i in Hslot, Hold by lia.
  exists acc'. split; [|split; [done|split; [|by split]]].
  - apply elem_of_saveAllRelationships. by exists i, r.
  - unfold parseAllRelationships, parseRelationships.
    cbn [Name Content EntryName EntryData saveRelationships].
    rewrite Hpre, Hcodec, Hnum. exact Hacc.
Qed.

Lemma saved_relationships_parse_back_witness :
  exists e acc',
    e ∈ saveAllRelationships (fun _ => "x") (slideRels Demo.doc) "slide" 0
    /\ EntryName e = relsPath "slide" 0
    /\ parseAllRelationships (fun _ => Some Demo.slide1) [] "slide"
         {| Name := EntryName e; UncompressedSize64 := 0; Content := EntryData e |}
       = Ok acc'
    /\ acc' !! 0 = Some Demo.slide1
    /\ forall j, j <> 0 -> j < length ([] : list Relationships) -> acc' !! j = [] !! j.
Proof.
  apply (saved_relationships_parse_back (fun _ => "x") (fun _ => Some Demo.slide1)
           "slide" (slideRels Demo.doc) [] 0 Demo.slide1 0).
  - left.
  - reflexivity.
  - discriminate.
  - vm_compute. discriminate.
  - reflexivity.
Defined.

(** ** What the writer copies *)

(** A source entry as it is copied to the output. *)
Definition toEntry (f : File) : Entry :=
  {| EntryName := Name f; EntryData := Content f |}.

(** The relationship slot of the layout body [name] is there and empty. *)
Definition layoutSlotEmpty (p : PowerpointDoc) (name : string) : bool :=
  match layoutSlot p (ObjectNumber.objectNumber name) with
  | Ok r => bool_decide (length (Relationship_ r) < 1)
  | Abort _ => false
  end.

(** The three tests of the first loop of [SaveFile], in its order. *)
Definition isCopied (p : PowerpointDoc) (f : File) : bool :=
  negb (rewritten (Name f))
  && negb (Strings.HasPrefix (Name f) "ppt/media/"
           && negb (bool_decide (is_Some (medias p !! Name f))))
  && negb (Strings.HasPrefix (Name f) "ppt/slideLayouts/" && layoutSlotEmpty p (Name f)).

Lemma copyEntries_filter files p out :
  copyEntries files p = Ok out ->
  out = toEntry <$> filter (fun f => isCopied p f = true) files.
Proof.
  revert out. induction files as [|f files IH]; intros out; simpl.
  - by intros [= <-].
  - rewrite filter_cons.
    destruct (rewritten (Name f)) eqn:Hrw.
    { rewrite decide_False; [by apply IH|]. unfold isCopied. by rewrite Hrw. }
    destruct (_ && negb _) eqn:Hmed.
    { rewrite decide_False; [by apply IH|]. unfold isCopied. by rewrite Hrw, Hmed. }
    destruct (Strings.HasPrefix (Name f) "ppt/slideLayouts/") eqn:Hl; simpl.
    + destruct (layoutSlot p _) as [r|e] eqn:Hs; simpl; [|done].
      destruct (copyEntries files p) as [rest|]; simpl; [|done].
      intros [= <-]. destruct (bool_decide (length (Relationship_ r) < 1)) eqn:Hb.
      * rewrite decide_False; [by apply IH|].
        unfold isCopied, layoutSlotEmpty. by rewrite Hrw, Hmed, Hl, Hs, Hb.
      * rewrite decide_True.
        -- simpl. f_equal. by apply IH.
        -- unfold isCopied, layoutSlotEmpty. by rewrite Hrw, Hmed, Hl, Hs, Hb.
    + destruct (copyEntries files p) as [rest|]; simpl; [|done].
      intros [= <-]. rewrite decide_True.
      * simpl. f_equal. by apply IH.
      * unfold isCopied. by rewrite Hrw, Hmed, Hl.
Qed.

(** X10: what the first loop of [SaveFile] copies.  The copied entries are
    source entries, unchanged and in source order.  None of them is an
    entry that is written anew (manifest, [_rels] of slides and layouts,
    [ppt/_rels/], everything under [ppt/slideMasters/], the presentation),
    none is a media file whose key is gone from the media index, none is
    a layout body whose relationship slot is empty; and every source
    entry outside these three areas is copied. *)
Theorem copyEntries_copies (files : list File) (p : PowerpointDoc) (out : list Entry) :
  copyEntries files p = Ok out ->
  out `sublist_of` (toEntry <$> files)
  /\ (forall e, e ∈ out ->
        rewritten (EntryName e) = false
        /\ (Strings.HasPrefix (EntryName e) "ppt/media/" = true ->
            is_Some (medias p !! EntryName e))
        /\ (Strings.HasPrefix (EntryName e) "ppt/slideLayouts/" = true ->
            exists r, slideLayoutRels p
                        !! Z.to_nat (ObjectNumber.objectNumber (EntryName e) - 1) = Some r
                      /\ Relationship_ r <> []))
  /\ (forall f, f ∈ files ->
        rewritten (Name f) = false ->
        Strings.HasPrefix (Name f) "ppt/media/" = false ->
        Strings.HasPrefix (Name f) "ppt/slideLayouts/" = false ->
        toEntry f ∈ out).
Proof.
  intros H. pose proof (copyEntries_filter _ _ _ H) as ->.
  assert (forall f, f ∈ files -> Strings.HasPrefix (Name f) "ppt/slideLayouts/" = true ->
                    rewritten (Name f) = false ->
                    exists r, layoutSlot p (ObjectNumber.objectNumber (Name f)) = Ok r)
    as Hslot.
  { intros f Hf Hl Hrw. apply layoutSlot_Ok_iff.
    apply (proj1 (copyEntries_Ok_iff files p)); [eauto | done |].
    unfold layoutBody. rewrite Hl. simpl.
    destruct (layout_entry_not_rewritten _ Hl) as [Heq _]. by rewrite <- Heq, Hrw. }
  split; [|split].
  - apply fmap_sublist, sublist_filter.
  - intros e (f & -> & Hf)%list_elem_of_fmap.
    apply list_elem_of_filter in Hf as [Hc Hf]. unfold isCopied in Hc. simpl.
    apply andb_true_iff in Hc as [[Hrw Hmed]%andb_true_iff Hlay].
    apply negb_true_iff in Hrw, Hmed, Hlay. split; [done|]. split.
    + intros Hpre. rewrite Hpre in Hmed. simpl in Hmed.
      apply negb_false_iff in Hmed. by apply bool_decide_eq_true in Hmed.
    + intros Hpre. rewrite Hpre in Hlay. simpl in Hlay.
      destruct (Hslot f Hf Hpre Hrw) as [r Hr].
      unfold layoutSlotEmpty in Hlay. rewrite Hr in Hlay.
      apply bool_decide_eq_false in Hlay.
      unfold layoutSlot in Hr. case_bool_decide; [|done].
      destruct (slideLayoutRels p !! _) as [r'|] eqn:Hlook; [|done].
      injection Hr as ->. exists r. split; [done|].
      intros Hnil. rewrite Hnil in Hlay. simpl in Hlay. lia.
  - intros f Hf Hrw Hmed Hlay. apply list_elem_of_fmap. exists f. split; [done|].
    apply list_elem_of_filter. split; [|done].
    unfold isCopied. by rewrite Hrw, Hmed, Hlay.
Qed.

(** The graph of [Demo] after the pruning sequence. *)
Definition prunedDemo : PowerpointDoc :=
  Eval vm_compute in match prune Demo.doc with Ok p => p | Abort _ => Demo.doc end.

Lemma copyEntries_copies_witness :
  copyEntries Demo.files prunedDemo
  = Ok (toEntry <$> [Demo.file "ppt/slides/slide1.xml";
                     Demo.file "ppt/slideLayouts/slideLayout1.xml";
                     Demo.file "ppt/media/image1.tiff"])
  /\ (toEntry <$> [Demo.file "ppt/slides/slide1.xml";
                   Demo.file "ppt/slideLayouts/slideLayout1.xml";
                   Demo.file "ppt/media/image1.tiff"])
     `sublist_of` (toEntry <$> Demo.files).
Proof.
  assert (copyEntries Demo.files prunedDemo
          = Ok (toEntry <$> [Demo.file "ppt/slides/slide1.xml";
                             Demo.file "ppt/slideLayouts/slideLayout1.xml";
                             Demo.file "ppt/media/image1.tiff"])) as H
      by (vm_compute; reflexivity).
  split; [exact H|]. exact (proj1 (copyEntries_copies _ _ _ H)).
Defined.

(** ** What a run of the writer emits *)

Lemma elem_of_newMedias order e :
  e ∈ newMedias order
  <-> exists k m d, (k, m) ∈ order /\ data m = Some d
                    /\ e = {| EntryName := k; EntryData := d |}.
Proof.
  induction order as [|[k0 m0] order IH]; simpl.
  - rewrite elem_of_nil. split; [done|]. by intros (k & m & d & ?%elem_of_nil & _).
  - destruct (data m0) as [d0|] eqn:Hd0; [rewrite elem_of_cons|]; rewrite IH; split.
    + intros [->|(k & m & d & Hin & Hd & ->)].
      * exists k0, m0, d0. split; [left | done].
      * exists k, m, d. split; [by right | done].
    + intros (k & m & d & [[= -> ->]|Hin]%elem_of_cons & Hd & ->).
      * left. congruence.
      * right. eauto 10.
    + intros (k & m & d & Hin & Hd & ->). exists k, m, d. split; [by right | done].
    + intros (k & m & d & [[= -> ->]|Hin]%elem_of_cons & Hd & ->); [congruence|].
      eauto 10.
Qed.

(** X11: the entries of a run of [SaveFile], whatever the order of the
    media map.  An entry is in the output exactly when it is one of: an
    entry copied by the first loop; a media entry of the index that
    carries a payload, under its key with that payload; a non-empty
    relationship set of a slide, layout or master, under the [_rels] name
    of its slot; the presentation relationship set (written even when it
    is empty); the manifest; a non-nil master tree under the name of its
    slot; the presentation tree. *)
Theorem SaveFile_output
    (marshalRelationships : Relationships -> string) (marshalTypes : Types -> string)
    (writeDocument : Document -> string) (p : PowerpointDoc) (out : list Entry) :
  SaveFile marshalRelationships marshalTypes writeDocument p out ->
  exists copied pres,
    copyEntries (sourceFileReader p) p = Ok copied
    /\ presentation p = Some pres
    /\ forall e,
         e ∈ out
         <-> e ∈ copied
             \/ (exists k m d, medias p !! k = Some m /\ data m = Some d
                               /\ e = {| EntryName := k; EntryData := d |})
             \/ (exists i r, slideRels p !! i = Some r /\ Relationship_ r <> []
                   /\ e = {| EntryName := relsPath "slide" i;
                             EntryData := xmlHeader ++ marshalRelationships r |})
             \/ (exists i r, slideLayoutRels p !! i = Some r /\ Relationship_ r <> []
                   /\ e = {| EntryName := relsPath "slideLayout" i;
                             EntryData := xmlHeader ++ marshalRelationships r |})
             \/ (exists i r, slideMasterRels p !! i = Some r /\ Relationship_ r <> []
                   /\ e = {| EntryName := relsPath "slideMaster" i;
                             EntryData := xmlHeader ++ marshalRelationships r |})
             \/ e = {| EntryName := "ppt/_rels/presentation.xml.rels";
                       EntryData := xmlHeader ++ marshalRelationships (presentationRels p) |}
             \/ e = {| EntryName := "[Content_Types].xml";
                       EntryData := xmlHeader ++ marshalTypes (contentTypes p) |}
             \/ (exists i sm, slideMasters p !! i = Some (Some sm)
                   /\ e = {| EntryName := masterBodyName i; EntryData := writeDocument sm |})
             \/ e = {| EntryName := "ppt/presentation.xml"; EntryData := writeDocument pres |}.
Proof.
  intros (order & Hperm & H). unfold SaveFileWith in H.
  destruct (copyEntries _ _) as [copied|] eqn:Hc; simpl in H; [|done].
  destruct (presentation p) as [pres|]; [|done]. injection H as <-.
  exists copied, pres. split; [done|]. split; [done|]. intros e.
  unfold rewrittenEntries. rewrite !elem_of_app, !list_elem_of_singleton.
  rewrite elem_of_newMedias, !elem_of_saveAllRelationships, elem_of_saveMasters.
  unfold saveRelationships.
  assert ((exists k m d, (k, m) ∈ order /\ data m = Some d
                         /\ e = {| EntryName := k; EntryData := d |})
          <-> (exists k m d, medias p !! k = Some m /\ data m = Some d
                             /\ e = {| EntryName := k; EntryData := d |})) as ->.
  { split; intros (k & m & d & Hin & Hd & He); exists k, m, d; (split; [|done]).
    - rewrite Hperm in Hin. by apply elem_of_map_to_list in Hin.
    - rewrite Hperm. by apply elem_of_map_to_list. }
  tauto.
Qed.

Lemma SaveFile_output_witness :
  exists copied pres,
    copyEntries (sourceFileReader Demo.doc) Demo.doc = Ok copied
    /\ presentation Demo.doc = Some pres.
Proof.
  assert (SaveFile noBytes noBytes noBytes Demo.doc demoOutput) as H.
  { exists [("ppt/media/image1.tiff", {| size := 4; data := None |})].
    split; [|vm_compute; reflexivity].
    unfold Demo.doc. simpl. by rewrite map_to_list_singleton. }
  destruct (SaveFile_output _ _ _ _ _ H) as (copied & pres & H1 & H2 & _).
  by exists copied, pres.
Defined.

(** ** The media index the reader builds *)

Lemma parseEntry_medias unmarshalRelationships unmarshalTypes readDocument f p p' :
  parseEntry unmarshalRelationships unmarshalTypes readDocument f p = Ok p' ->
  sourceFileReader p' = sourceFileReader p
  /\ medias p'
     = if Strings.HasPrefix (Name f) "ppt/media/"
       then <[Name f := {| size := UncompressedSize64 f; data := None |}]> (medias p)
       else medias p.
Proof.
  unfold parseEntry.
  destruct (Strings.HasPrefix (Name f) "ppt/media/"); [by intros [= <-]|].
  case_bool_decide as E1.
  { destruct (unmarshalTypes _ _); [by intros [= <-] | done]. }
  destruct (Strings.HasPrefix (Name f) "ppt/slideMasters/slideMaster").
  { destruct (readDocument _); [|done].
    intros Hb%bind_Ok. by destruct Hb as (sms & _ & [= <-]). }
  case_bool_decide as E2.
  { intros Hb%bind_Ok. by destruct Hb as (r & _ & [= <-]). }
  case_bool_decide as E3.
  { destruct (readDocument _); [by intros [= <-] | done]. }
  intros Hb%bind_Ok. destruct Hb as (r1 & _ & Hb).
  apply bind_Ok in Hb as (r2 & _ & Hb). apply bind_Ok in Hb as (r3 & _ & [= <-]). done.
Qed.

Lemma parseEntries_medias unmarshalRelationships unmarshalTypes readDocument files p p' :
  parseEntries unmarshalRelationships unmarshalTypes readDocument files p = Ok p' ->
  sourceFileReader p' = sourceFileReader p
  /\ (forall k m, medias p' !! k = Some m ->
        medias p !! k = Some m
        \/ (Strings.HasPrefix k "ppt/media/" = true /\ data m = None
            /\ exists f, f ∈ files /\ Name f = k /\ size m = UncompressedSize64 f))
  /\ (forall k, is_Some (medias p !! k) -> is_Some (medias p' !! k))
  /\ (forall f, f ∈ files -> Strings.HasPrefix (Name f) "ppt/media/" = true ->
                is_Some (medias p' !! Name f)).
Proof.
  revert p. induction files as [|f files IH]; intros p; simpl.
  - intros [= <-]. split; [done|]. split; [by left|]. split; [done|].
    by intros f ?%elem_of_nil.
  - intros H. apply bind_Ok in H as (p1 & H1 & H).
    apply parseEntry_medias in H1 as [Hs1 Hm1].
    apply IH in H as (Hs & Hsome & Hmono & Hall).
    split; [congruence|]. split; [|split].
    + intros k m Hk. destruct (Hsome k m Hk) as [H1|(Hpre & Hd & g & Hg & Hn & Hsz)].
      * rewrite Hm1 in H1. destruct (Strings.HasPrefix (Name f) "ppt/media/") eqn:Hf;
          [|by left].
        apply lookup_insert_Some in H1 as [[<- <-]|[_ H1]]; [|by left].
        right. split; [done|]. split; [done|]. exists f. split; [left | done].
      * right. split; [done|]. split; [done|]. exists g. split; [by right | done].
    + intros k Hk. apply Hmono. rewrite Hm1. destruct (Strings.HasPrefix _ _); [|done].
      destruct (decide (Name f = k)) as [->|Hne];
        [rewrite lookup_insert_eq; eauto | by rewrite lookup_insert_ne].
    + intros g [->|Hg]%elem_of_cons Hpre; [|by apply Hall].
      apply Hmono. rewrite Hm1, Hpre, lookup_insert_eq. eauto.
Qed.

(** X12: the media index after [ParseFile].  Its keys are exactly the
    names of the archive entries under [ppt/media/]; every entry of the
    index has no payload ([data] is nil: the bytes stay in the archive)
    and the size of an archive entry of that name; and the graph keeps
    the list of archive entries it was read from. *)
Theorem ParseFile_media_index
    (unmarshalRelationships : string -> option Relationships)
    (unmarshalTypes : string -> Types -> option Types)
    (readDocument : string -> option Document)
    (files : list File) (p : PowerpointDoc) :
  ParseFile unmarshalRelationships unmarshalTypes readDocument files = Ok p ->
  sourceFileReader p = files
  /\ (forall k, is_Some (medias p !! k)
                <-> Strings.HasPrefix k "ppt/media/" = true
                    /\ exists f, f ∈ files /\ Name f = k)
  /\ (forall k m, medias p !! k = Some m ->
        data m = None
        /\ exists f, f ∈ files /\ Name f = k /\ size m = UncompressedSize64 f).
Proof.
  unfold ParseFile. intros H.
  apply parseEntries_medias in H as (Hs & Hsome & _ & Hall).
  split; [done|]. split.
  - intros k. split.
    + intros [m Hm]. destruct (Hsome k m Hm) as [H|(Hpre & _ & f & Hf & Hn & _)];
        [simpl in H; by rewrite lookup_empty in H | eauto].
    + intros (Hpre & f & Hf & <-). by apply Hall.
  - intros k m Hm. destruct (Hsome k m Hm) as [H|(_ & Hd & f & Hf & Hn & Hsz)];
      [simpl in H; by rewrite lookup_empty in H | eauto].
Qed.

Lemma ParseFile_media_index_witness :
  exists p,
    ParseFile (fun _ => Some Demo.slide1) (fun _ t => Some t) (fun _ => Some Demo.pres)
      [Demo.file "ppt/slides/_rels/slide1.xml.rels"; Demo.file "ppt/media/image1.png"]
    = Ok p
    /\ sourceFileReader p
       = [Demo.file "ppt/slides/_rels/slide1.xml.rels"; Demo.file "ppt/media/image1.png"].
Proof.
  eexists. split; [reflexivity|].
  exact (proj1 (ParseFile_media_index
                  (fun _ => Some Demo.slide1) (fun _ t => Some t) (fun _ => Some Demo.pres)
                  [Demo.file "ppt/slides/_rels/slide1.xml.rels";
                   Demo.file "ppt/media/image1.png"] _ eq_refl)).
Defined.

(** ** Transcoding one picture, and all of them *)

Lemma firstReplaced_tiff_differs name name' :
  firstReplaced name ".tiff" ".png" name' -> name' <> name.
Proof.
  intros (pre & post & -> & -> & _) H.
  apply (f_equal String.length) in H. rewrite !length_append in H. simpl in H. lia.
Qed.

(** X13: transcoding an eligible entry whose name has [.tiff] in lower
    case.  If the codec succeeds, [convertPicture] returns; the new key is
    the name with its leftmost [.tiff] replaced by [.png]; the old key is
    gone from the media index, the new key holds the PNG bytes as payload
    with their length as size, and no other key changes; trees, manifest
    and presentation relationships are not touched. *)
Theorem convertPicture_renames
    (tiffToPng : string -> option string) (f : File) (p : PowerpointDoc) (png : string) :
  eligible (Name f) = true ->
  (exists pre post, Name f = pre ++ ".tiff" ++ post) ->
  tiffToPng (Content f) = Some png ->
  exists p' newfilename,
    convertPicture tiffToPng f p = Ok p'
    /\ firstReplaced (Name f) ".tiff" ".png" newfilename
    /\ medias p' !! Name f = None
    /\ medias p' !! newfilename
       = Some {| size := Z.of_nat (String.length png); data := Some png |}
    /\ (forall k, k <> Name f -> k <> newfilename -> medias p' !! k = medias p !! k)
    /\ slideMasters p' = slideMasters p
    /\ presentation p' = presentation p
    /\ presentationRels p' = presentationRels p
    /\ contentTypes p' = contentTypes p.
Proof.
  intros Hel Hocc Hpng. unfold convertPicture. rewrite Hel, Hpng.
  pose proof (Replace1_first (Name f) ".tiff" ".png" Hocc) as Hfirst.
  pose proof (firstReplaced_tiff_differs _ _ Hfirst) as Hne.
  eexists. exists (Strings.Replace1 (Name f) ".tiff" ".png").
  split; [done|]. simpl. split; [done|]. split; [apply lookup_delete_eq|].
  split; [by rewrite lookup_delete_ne, lookup_insert_eq|].
  split; [|done]. intros k Hk1 Hk2. by rewrite lookup_delete_ne, lookup_insert_ne.
Qed.

Lemma convertPicture_renames_witness :
  exists p' newfilename,
    convertPicture Some (Demo.file "ppt/media/image1.tiff") Demo.doc = Ok p'
    /\ firstReplaced "ppt/media/image1.tiff" ".tiff" ".png" newfilename
    /\ medias p' !! "ppt/media/image1.tiff" = None.
Proof.
  destruct (convertPicture_renames Some (Demo.file "ppt/media/image1.tiff") Demo.doc "data")
    as (p' & n & H1 & H2 & H3 & _).
  - reflexivity.
  - by exists "ppt/media/image1", "".
  - reflexivity.
  - by exists p', n.
Defined.

Lemma convertPicture_isOk tiffToPng f p :
  isOk (convertPicture tiffToPng f p)
  = negb (eligible (Name f)) || bool_decide (is_Some (tiffToPng (Content f))).
Proof.
  unfold convertPicture. destruct (eligible (Name f)); [|done].
  destruct (tiffToPng (Content f)) as [png|]; cbn [isOk negb orb].
  - symmetry. apply bool_decide_eq_true_2. eauto.
  - symmetry. apply bool_decide_eq_false_2. by intros [? ?].
Qed.

(** What [ConvertPictures] keeps of a graph [p]. *)
Definition convertedFrom (p q : PowerpointDoc) : Prop :=
  sourceFileReader q = sourceFileReader p
  /\ length (slideRels q) = length (slideRels p)
  /\ length (slideLayoutRels q) = length (slideLayoutRels p)
  /\ length (slideMasterRels q) = length (slideMasterRels p)
  /\ presentationRels q = presentationRels p
  /\ slideMasters q = slideMasters p
  /\ presentation q = presentation p
  /\ contentTypes q = contentTypes p.

Lemma convertPicture_convertedFrom tiffToPng p f q q' :
  convertedFrom p q -> convertPicture tiffToPng f q = Ok q' -> convertedFrom p q'.
Proof.
  unfold convertPicture. intros Hq.
  destruct (eligible (Name f)); [|by intros [= <-]].
  destruct (tiffToPng _); [|done]. intros [= <-].
  destruct Hq as (H1 & H2 & H3 & H4 & H5 & H6 & H7 & H8).
  unfold convertedFrom. simpl. by rewrite !length_fmap.
Qed.

Lemma convertPictures_spec tiffToPng files p :
  (isOk (convertPictures tiffToPng files p) = true
   <-> forall f, f ∈ files -> eligible (Name f) = true -> tiffToPng (Content f) <> None)
  /\ (forall e, convertPictures tiffToPng files p = Abort e -> e = FatalLog)
  /\ ((forall f, f ∈ files -> eligible (Name f) = false) ->
      convertPictures tiffToPng files p = Ok p)
  /\ (forall q p', convertedFrom q p -> convertPictures tiffToPng files p = Ok p' ->
                   convertedFrom q p').
Proof.
  revert p. induction files as [|f files IH]; intros p; simpl.
  - split; [|split; [done|split; [done|]]].
    + split; [by intros _ f ?%elem_of_nil | done].
    + by intros q p' Hq [= <-].
  - pose proof (convertPicture_isOk tiffToPng f p) as Hok.
    destruct (convertPicture tiffToPng f p) as [p1|e1] eqn:H1; simpl in *.
    + destruct (IH p1) as (IH1 & IH2 & IH3 & IH4).
      split; [|split; [done|split]].
      * rewrite IH1. split.
        -- intros H g [->|Hg]%elem_of_cons Hel; [|by apply H].
           symmetry in Hok. apply orb_true_iff in Hok as [Hn|Hs].
           ++ by rewrite Hel in Hn.
           ++ apply bool_decide_eq_true in Hs. by destruct Hs as [? ->].
        -- intros H g Hg. apply H. by right.
      * intros Hnone. unfold convertPicture in H1.
        rewrite (Hnone f) in H1 by left. injection H1 as <-.
        apply IH3. intros g Hg. apply Hnone. by right.
      * intros q p' Hq. apply IH4. by eapply convertPicture_convertedFrom.
    + split; [|split; [|split; [|done]]].
      * split; [done|]. intros H. exfalso.
        symmetry in Hok. apply orb_false_iff in Hok as [Hel%negb_false_iff Hs].
        apply bool_decide_eq_false in Hs. apply Hs.
        destruct (tiffToPng (Content f)) eqn:Hc; [eauto|].
        by destruct (H f ltac:(left) Hel).
      * intros e [= <-]. unfold convertPicture in H1.
        destruct (eligible _); [|done]. by destruct (tiffToPng _); [|injection H1 as <-].
      * intros Hnone. unfold convertPicture in H1. by rewrite (Hnone f) in H1 by left.
Qed.

(** X14: [ConvertPictures] returns exactly when the codec succeeds on
    every eligible entry of the source archive; the only way it stops is
    the fatal error of a codec failure (it has no index to run out of
    range).  With no eligible entry it changes nothing.  When it returns,
    the three relationship collections have as many slots as before and
    trees, manifest, presentation relationships and source archive are
    the same. *)
Theorem ConvertPictures_returns (tiffToPng : string -> option string) (p : PowerpointDoc) :
  (isOk (ConvertPictures tiffToPng p) = true
   <-> forall f, f ∈ sourceFileReader p -> eligible (Name f) = true ->
                 tiffToPng (Content f) <> None)
  /\ (forall e, ConvertPictures tiffToPng p = Abort e -> e = FatalLog)
  /\ ((forall f, f ∈ sourceFileReader p -> eligible (Name f) = false) ->
      ConvertPictures tiffToPng p = Ok p)
  /\ (forall p', ConvertPictures tiffToPng p = Ok p' ->
        sourceFileReader p' = sourceFileReader p
        /\ length (slideRels p') = length (slideRels p)
        /\ length (slideLayoutRels p') = length (slideLayoutRels p)
        /\ length (slideMasterRels p') = length (slideMasterRels p)
        /\ presentationRels p' = presentationRels p
        /\ slideMasters p' = slideMasters p
        /\ presentation p' = presentation p
        /\ contentTypes p' = contentTypes p).
Proof.
  unfold ConvertPictures.
  destruct (convertPictures_spec tiffToPng (sourceFileReader p) p) as (H1 & H2 & H3 & H4).
  split; [done|]. split; [done|]. split; [done|].
  intros p' Hp'. apply (H4 p p'); [|done]. by repeat split.
Qed.

(** ** After a reference element is removed *)

Lemma selects_prune space tag aspace akey val m t :
  Etree.selects space tag aspace akey val (Etree.prune m t)
  = Etree.selects space tag aspace akey val t.
Proof. destruct t; [by rewrite prune_Element | done]. Qed.

(** In a pruned subtree the query finds nothing below the root. *)
Fixpoint found_prune (m : Token -> bool) (t : Token) {struct t} :
  (forall x, m (Etree.prune m x) = m x) -> m t = false ->
  Etree.found m (Etree.prune m t) = [].
Proof.
  intros Hstable Ht. destruct t as [s tg attrs ch|d]; [|done].
  pose proof (Hstable (Element s tg attrs ch)) as Hroot.
  rewrite prune_Element in *. simpl. rewrite Hroot, Ht. simpl.
  clear Hroot Ht.
  induction ch as [|c ch IH]; [done|]. simpl.
  destruct (m c) eqn:Hc; [exact IH|].
  simpl. rewrite (found_prune m c Hstable Hc). exact IH.
Qed.

Lemma FindElements_removeFound m d :
  (forall x, m (Etree.prune m x) = m x) ->
  Etree.FindElements m (Etree.removeFound m d) = [].
Proof.
  intros Hstable. destruct d as [root]. unfold Etree.FindElements, Etree.removeFound.
  simpl. induction root as [|c root IH]; [done|]. simpl.
  destruct (m c) eqn:Hc; [by apply IH|].
  simpl. by rewrite (found_prune m c Hstable Hc), IH.
Qed.

(** X15: after [removeLayoutFromMaster] (and [removeMasterFromPresentation])
    returns, the tree has no element left, at any depth, that the query
    for that id selects; a second call with the same id returns the tree
    as it is. *)
Theorem reference_elements_removed (d : Document) (id : string) :
  Etree.quotable id = true ->
  (exists d', removeLayoutFromMaster d id = Ok d'
     /\ Etree.FindElements (Etree.selects "p" "sldLayoutId" "r" "id" id) d' = []
     /\ removeLayoutFromMaster d' id = Ok d')
  /\ (exists d', removeMasterFromPresentation d id = Ok d'
        /\ Etree.FindElements (Etree.selects "p" "sldMasterId" "r" "id" id) d' = []
        /\ removeMasterFromPresentation d' id = Ok d').
Proof.
  intros Hq. unfold removeLayoutFromMaster, removeMasterFromPresentation. rewrite Hq.
  split; eexists; (split; [done|]).
  - assert (Etree.FindElements (Etree.selects "p" "sldLayoutId" "r" "id" id)
              (Etree.removeFound (Etree.selects "p" "sldLayoutId" "r" "id" id) d) = [])
      as Hnone by (apply FindElements_removeFound; intros x; apply selects_prune).
    split; [done|]. f_equal. by apply removeFound_nothing_found.
  - assert (Etree.FindElements (Etree.selects "p" "sldMasterId" "r" "id" id)
              (Etree.removeFound (Etree.selects "p" "sldMasterId" "r" "id" id) d) = [])
      as Hnone by (apply FindElements_removeFound; intros x; apply selects_prune).
    split; [done|]. f_equal. by apply removeFound_nothing_found.
Qed.

Lemma reference_elements_removed_witness :
  exists d',
    removeLayoutFromMaster (Demo.master ["rId1"; "rId2"]) "rId2" = Ok d'
    /\ Etree.FindElements (Etree.selects "p" "sldLayoutId" "r" "id" "rId2") d' = []
    /\ removeLayoutFromMaster d' "rId2" = Ok d'.
Proof. exact (proj1 (reference_elements_removed (Demo.master ["rId1"; "rId2"]) "rId2" eq_refl)). Defined.

(** ** The name of the output file *)

(** [main]: [strings.Replace(input, filepath.Ext(input), ".new.pptx", 1)] *)
Definition outputFileName (input : string) : string :=
  Strings.Replace1 input (Strings.Ext input) ".new.pptx".

Lemma rev_acc_append s acc : Strings.rev_acc s acc = Strings.rev_acc s "" ++ acc.
Proof.
  revert acc. induction s as [|c s IH]; intros acc; simpl; [done|].
  rewrite (IH (String c acc)), (IH (String c "")), append_assoc. done.
Qed.

Lemma rev_acc_rev_acc s acc t :
  Strings.rev_acc (Strings.rev_acc s acc) t = Strings.rev_acc acc (s ++ t).
Proof.
  revert acc. induction s as [|c s IH]; intros acc; simpl; [done|]. by rewrite IH.
Qed.

Lemma rev_acc_app a b acc :
  Strings.rev_acc (a ++ b) acc = Strings.rev_acc b (Strings.rev_acc a acc).
Proof. revert acc. induction a as [|c a IH]; intros acc; simpl; [done | apply IH]. Qed.

Lemma hasByte_rev_acc n s acc :
  Etree.hasByte n (Strings.rev_acc s acc) = Etree.hasByte n s || Etree.hasByte n acc.
Proof.
  revert acc. induction s as [|c s IH]; intros acc; simpl; [done|].
  rewrite IH. simpl. by destruct (nat_of_ascii c =? n)%nat, (Etree.hasByte n s).
Qed.

(** The extension is empty, or a dot and a dot-free rest, found at the end
    of the reversed path. *)
Lemma extRev_spec rs acc :
  Strings.extRev rs acc = ""
  \/ exists a b, rs = a ++ String "." b /\ Etree.hasByte 46 a = false
                 /\ Strings.extRev rs acc = String "." (Strings.rev_acc a acc).
Proof.
  revert acc. induction rs as [|c rs IH]; intros acc; simpl; [by left|].
  destruct (Strings.isSlash c); [by left|].
  destruct (nat_of_ascii c =? 46)%nat eqn:Hc.
  - right. exists "", rs. apply Nat.eqb_eq in Hc.
    assert (c = "."%char) as -> by (rewrite <- (ascii_nat_embedding c), Hc; done). done.
  - destruct (IH (String c acc)) as [->|(a & b & -> & Ha & ->)]; [by left|].
    right. exists (String c a), b. simpl. by rewrite Hc, Ha.
Qed.

Lemma Ext_spec path :
  Strings.Ext path = ""
  \/ exists stem e, path = stem ++ String "." e /\ Etree.hasByte 46 e = false
                    /\ Strings.Ext path = String "." e.
Proof.
  unfold Strings.Ext, Strings.rev.
  destruct (extRev_spec (Strings.rev_acc path "") "") as [H|(a & b & Hrs & Ha & H)];
    [by left|]. right.
  exists (Strings.rev_acc b ""), (Strings.rev_acc a ""). split; [|split; [|done]].
  - pose proof (rev_acc_rev_acc path "" "") as Hrr. rewrite Hrs in Hrr.
    simpl in Hrr. rewrite append_empty_r in Hrr. rewrite <- Hrr.
    rewrite rev_acc_app. simpl. by rewrite (rev_acc_append b).
  - rewrite hasByte_rev_acc, Ha. done.
Qed.

(** X16: the output path of [main] is the input path with the leftmost
    occurrence of its extension replaced by [.new.pptx] (which need not
    be the extension itself when the same text occurs earlier in the
    path); for an input without extension, [.new.pptx] is put in front
    of the whole path.  In every case the output path differs from the
    input path. *)
Theorem outputFileName_spec (input : string) :
  firstReplaced input (Strings.Ext input) ".new.pptx" (outputFileName input)
  /\ endsWith input (Strings.Ext input)
  /\ (Strings.Ext input = "" -> outputFileName input = ".new.pptx" ++ input)
  /\ outputFileName input <> input.
Proof.
  assert (endsWith input (Strings.Ext input)) as Hends.
  { destruct (Ext_spec input) as [->|(stem & e & Hp & _ & ->)].
    - exists input. by rewrite append_empty_r.
    - by exists stem. }
  assert (firstReplaced input (Strings.Ext input) ".new.pptx" (outputFileName input))
    as Hfirst.
  { apply Replace1_first. destruct Hends as [pre Hpre]. exists pre, "".
    by rewrite append_empty_r. }
  split; [done|]. split; [done|]. split.
  - intros Hext. unfold outputFileName. rewrite Hext, Replace1_unfold.
    by destruct input.
  - destruct Hfirst as (pre & post & Hin & Hout & _). intros Heq.
    rewrite Hout in Heq.
    assert (".new.pptx" ++ post = Strings.Ext input ++ post) as Heq'.
    { apply (inj (String.append pre)). by rewrite Heq, <- Hin. }
    clear Heq. rename Heq' into Heq.
    assert (".new.pptx" = Strings.Ext input) as Hext.
    { apply (append_inj_r _ _ post); [|done].
      apply (f_equal String.length) in Heq. rewrite !length_append in Heq. lia. }
    destruct (Ext_spec input) as [H|(stem & e & _ & He & H)]; rewrite H in Hext; [done|].
    injection Hext as <-. done.
Qed.

Example outputFileName_deck : outputFileName "talks/deck.pptx" = "talks/deck.new.pptx".
Proof. reflexivity. Qed.
Example outputFileName_no_ext : outputFileName "deck" = ".new.pptxdeck".
Proof. reflexivity. Qed.
Example outputFileName_earlier : outputFileName "a.pptx/b.pptx" = "a.new.pptx/b.pptx".
Proof. reflexivity. Qed.
